(** * ThreadPool: a shallow embedding of the FIXED / CACHED / ACTIVE engines

    The development follows the headers of the repository:
    [basicthread.h] (worker identity), [basepool.h] (engine state and
    setter permission), [fixedpool.h], [cachedpoo.h], [activepool.h] and
    the facade [threadpool.h].  The spin locks of [util.h] appear as lock
    and unlock events.

    Conventions.
    - A [size_t] (and [std::atomic<size_t>]) is an [N], with the wrap-around
      modulo [2^64] written out ([size_incr], [size_decr]); an [int] is a [Z].
      The implicit conversions the C++ performs when the two meet in a
      comparison or an assignment are [size_of_int] and [int_of_size].
    - A [std::queue<Task>] is a [list Task], front first.
    - [std::unordered_map<int, unique_ptr<Thread>>] is a [gmap Z Thread];
      [std::vector<unique_ptr<ThreadWithDQ>>] is a
      [list (option ThreadWithDQ)], [None] being the null pointer.
    - Observable effects (condition-variable notifications, lock
      acquisitions, sleeps, diagnostics, task executions) are recorded in a
      trace of [Event]s returned next to the new state.
    - Undefined behaviour of the C++ (indexing past the end of a vector,
      dereferencing a null [unique_ptr], signed overflow) is an explicit
      outcome, never a default value. *)

From stdpp Require Import base numbers list gmap strings.

(** ** Machine integers *)

Module Util.

Definition SIZE_MOD : N := (2 ^ 64)%N.
Definition INT_MAX : Z := (2 ^ 31 - 1)%Z.

(** [size_t] arithmetic is modulo [2^64]. *)
Definition wrap64 (n : N) : N := (n mod SIZE_MOD)%N.

(** [c++] on a [size_t]. *)
Definition size_incr (n : N) : N := wrap64 (n + 1).

(** [c--] on a [size_t]: [0] wraps to [2^64 - 1]. *)
Definition size_decr (n : N) : N := wrap64 (n + (SIZE_MOD - 1)).

(** Conversion [int -> size_t] (usual arithmetic conversions). *)
Definition size_of_int (i : Z) : N := Z.to_N (i mod 2 ^ 64)%Z.

(** Conversion [size_t -> int]: the low 32 bits, read as two's complement. *)
Definition int_of_size (n : N) : Z :=
  let low := (Z.of_N n mod 2 ^ 32)%Z in
  if (low <? 2 ^ 31)%Z then low else (low - 2 ^ 32)%Z.

(** Conversion of a signed 64-bit tick count to [size_t]. *)
Definition size_of_long (i : Z) : N := Z.to_N (i mod 2 ^ 64)%Z.

(** [for (int i = 0; i < bound; i++)] with a [size_t] bound: the body runs
    [bound] times, unless the bound is past [INT_MAX], where the increment
    overflows. *)
Definition iterations (bound : N) : option nat :=
  if (Z.of_N bound <=? INT_MAX)%Z then Some (N.to_nat bound) else None.

End Util.

(** ** Tasks, events, outcomes *)

(** A task is an opaque closure; the pool never inspects it, so an
    identifier is all the model keeps. *)
Definition Task : Type := nat.

Inductive CondVar := notFull | notEmpty | allExit.

Inductive SpinLock := pubLock | priLock.

Inductive Event :=
| EvNotifyAll (cv : CondVar)
| EvWaitFor (cv : CondVar) (seconds : N)
| EvSleep (seconds : N)
| EvCerr (msg : string)
| EvLock (l : SpinLock)
| EvUnlock (l : SpinLock)
| EvRun (t : Task)
| EvThreadStart (id : Z).

(** How a call that may [throw] a C string ends. *)
Inductive Outcome :=
| Returned
| Threw (msg : string)
| Undefined.

#[global] Instance CondVar_eq_dec : EqDecision CondVar.
Proof. solve_decision. Defined.
#[global] Instance SpinLock_eq_dec : EqDecision SpinLock.
Proof. solve_decision. Defined.
#[global] Instance Event_eq_dec : EqDecision Event.
Proof. solve_decision. Defined.
#[global] Instance Outcome_eq_dec : EqDecision Outcome.
Proof. solve_decision. Defined.

(** Number of task executions recorded in a trace. *)
Fixpoint executed (tr : list Event) : N :=
  match tr with
  | [] => 0
  | EvRun _ :: tr' => 1 + executed tr'
  | _ :: tr' => executed tr'
  end.

(** The tasks executed in a trace, in order. *)
Fixpoint ran (tr : list Event) : list Task :=
  match tr with
  | [] => []
  | EvRun task :: tr' => task :: ran tr'
  | _ :: tr' => ran tr'
  end.

(** Number of lines written to [std::cerr] in a trace. *)
Fixpoint diagnostics (tr : list Event) : nat :=
  match tr with
  | [] => 0
  | EvCerr _ :: tr' => S (diagnostics tr')
  | _ :: tr' => diagnostics tr'
  end.

(** ** basicthread.h *)

Module BasicThread.

(** [static int Thread::threadIdBase]. *)
Record Statics := { threadIdBase : Z }.

Record Thread := { threadId_ : Z }.

Definition initial_statics : Statics := {| threadIdBase := 0 |}.

(** [Thread::Thread]: [threadId_(threadIdBase++)].  Incrementing an [int]
    that holds [INT_MAX] is undefined. *)
Definition new_id (g : Statics) : option (Z * Statics) :=
  if (threadIdBase g =? Util.INT_MAX)%Z then None
  else Some (threadIdBase g, {| threadIdBase := threadIdBase g + 1 |}).

Definition Thread_new (g : Statics) : option (Thread * Statics) :=
  '(id, g') ← new_id g; Some ({| threadId_ := id |}, g').

Definition getId (t : Thread) : Z := threadId_ t.

(** [Thread::start]: spawn and detach. *)
Definition start (t : Thread) : list Event := [EvThreadStart (threadId_ t)].

End BasicThread.

(** ** basepool.h *)

Module BasePool.

Inductive PoolState := STATE_INIT | STATE_RUNNING | STATE_EXITING.

#[global] Instance PoolState_eq_dec : EqDecision PoolState.
Proof. solve_decision. Defined.

Definition checkSetPermission (state_ : PoolState) : bool :=
  bool_decide (state_ = STATE_INIT).

Definition set_refused : string :=
  "CANNOT call set-function now! Nothing changed."%string.

Definition unsupported (func : string) : string :=
  String.append func "(): Unsupported operation!"%string.

(** [condition_variable::wait_for(lock, d, pred)] is
    [while (!pred()) if (wait_until(..) == timeout) return pred(); return true;].
    While the caller is blocked the mutex is released and the other
    threads run: each wake-up carries what they did to the shared state
    ([interfere]) and whether it is the deadline ([deadline]).  When the
    list of wake-ups is used up the deadline has come. *)
Record WakeUp (S : Type) := { interfere : S → S; deadline : bool }.
Arguments interfere {S}.
Arguments deadline {S}.

Fixpoint wait_for {S : Type} (pred : S → bool) (wakes : list (WakeUp S)) (s : S)
  : bool * S :=
  if pred s then (true, s)
  else match wakes with
       | [] => (false, s)
       | w :: wakes' =>
           let s' := interfere w s in
           if deadline w then (pred s', s') else wait_for pred wakes' s'
       end.

(** The shared state after the first [n] wake-ups. *)
Definition disturbed {S : Type} (wakes : list (WakeUp S)) (n : nat) (s : S) : S :=
  foldl (λ s w, interfere w s) s (take n wakes).

(** A wait ends after [n] wake-ups: the predicate held in none of the
    states the waiter saw before, none of the wake-ups before the last one
    was the deadline, and the wait ends there because the predicate holds,
    or because the last wake-up was the deadline, or because the wake-ups
    are used up (the deadline has come). *)
Definition ends_after {S : Type} (pred : S → bool) (wakes : list (WakeUp S)) (s : S)
    (n : nat) : Prop :=
  (n ≤ length wakes)%nat ∧
  (∀ m, (m < n)%nat → pred (disturbed wakes m s) = false) ∧
  (∀ m w, (Datatypes.S m < n)%nat → wakes !! m = Some w → deadline w = false) ∧
  (pred (disturbed wakes n s) = true ∨
   n = length wakes ∨
   ∃ m w, n = Datatypes.S m ∧ wakes !! m = Some w ∧ deadline w = true).

End BasePool.

(** ** activepool.h, class [ThreadWithDQ] *)

Module ThreadWithDQ.

(** The two queue objects a role pointer may designate. *)
Inductive QueueRef := TaskQ1 | TaskQ2.

#[global] Instance QueueRef_eq_dec : EqDecision QueueRef.
Proof. solve_decision. Defined.

Record t := {
  threadId_ : Z;
  publicTaskCount_ : N;
  privateTaskCount_ : N;
  publicQ_ : QueueRef;
  privateQ_ : QueueRef;
  TaskQ1_ : list Task;
  TaskQ2_ : list Task
}.

Definition DEFAULT_TASK_MAX_COUNT : N := 500001.

(** [static size_t taskMaxCount_]: initialised once, written nowhere. *)
Record Statics := { taskMaxCount_ : N }.

Definition initial_statics : Statics :=
  {| taskMaxCount_ := DEFAULT_TASK_MAX_COUNT |}.

Definition getTaskMaxCount (g : Statics) : N := taskMaxCount_ g.

(** [ThreadWithDQ::setTaskMaxCount]: the body is a TODO. *)
Definition setTaskMaxCount (g : Statics) (w : t) (maxCount : N) : Statics * t :=
  (g, w).

(** Constructor: both counters zero, [publicQ_ = &TaskQ1_],
    [privateQ_ = &TaskQ2_]. *)
Definition make (id : Z) : t :=
  {| threadId_ := id;
     publicTaskCount_ := 0; privateTaskCount_ := 0;
     publicQ_ := TaskQ1; privateQ_ := TaskQ2;
     TaskQ1_ := []; TaskQ2_ := [] |}.

Definition deref (w : t) (r : QueueRef) : list Task :=
  match r with TaskQ1 => TaskQ1_ w | TaskQ2 => TaskQ2_ w end.

Definition store (w : t) (r : QueueRef) (q : list Task) : t :=
  match r with
  | TaskQ1 =>
      {| threadId_ := threadId_ w;
         publicTaskCount_ := publicTaskCount_ w;
         privateTaskCount_ := privateTaskCount_ w;
         publicQ_ := publicQ_ w; privateQ_ := privateQ_ w;
         TaskQ1_ := q; TaskQ2_ := TaskQ2_ w |}
  | TaskQ2 =>
      {| threadId_ := threadId_ w;
         publicTaskCount_ := publicTaskCount_ w;
         privateTaskCount_ := privateTaskCount_ w;
         publicQ_ := publicQ_ w; privateQ_ := privateQ_ w;
         TaskQ1_ := TaskQ1_ w; TaskQ2_ := q |}
  end.

Definition set_counts (w : t) (pub pri : N) : t :=
  {| threadId_ := threadId_ w;
     publicTaskCount_ := pub; privateTaskCount_ := pri;
     publicQ_ := publicQ_ w; privateQ_ := privateQ_ w;
     TaskQ1_ := TaskQ1_ w; TaskQ2_ := TaskQ2_ w |}.

Definition set_roles (w : t) (pub pri : QueueRef) : t :=
  {| threadId_ := threadId_ w;
     publicTaskCount_ := publicTaskCount_ w;
     privateTaskCount_ := privateTaskCount_ w;
     publicQ_ := pub; privateQ_ := pri;
     TaskQ1_ := TaskQ1_ w; TaskQ2_ := TaskQ2_ w |}.

(** [size_t] addition of the two counters. *)
Definition getTaskCount (w : t) : N :=
  Util.wrap64 (publicTaskCount_ w + privateTaskCount_ w).

Definition getPublicTaskCount (w : t) : N := publicTaskCount_ w.

(** [giveTask]: under [pubLock], append to [*publicQ_] and increment
    [publicTaskCount_]. *)
Definition giveTask (w : t) (task : Task) : t * list Event :=
  let w1 := store w (publicQ_ w) (deref w (publicQ_ w) ++ [task]) in
  let w2 := set_counts w1 (Util.size_incr (publicTaskCount_ w1)) (privateTaskCount_ w1) in
  (w2, [EvLock pubLock; EvUnlock pubLock]).

(** [swapQ]: [pubLock] then [priLock]; exchange the role pointers;
    [tmp = publicTaskCount_.exchange(privateTaskCount_.load());
     privateTaskCount_ = tmp].  The guards release in reverse order. *)
Definition swapQ (w : t) : t * list Event :=
  let w1 := set_roles w (privateQ_ w) (publicQ_ w) in
  let tmp := publicTaskCount_ w1 in
  let w2 := set_counts w1 (privateTaskCount_ w1) (privateTaskCount_ w1) in
  let w3 := set_counts w2 (publicTaskCount_ w2) tmp in
  (w3, [EvLock pubLock; EvLock priLock; EvUnlock priLock; EvUnlock pubLock]).

(** [trySwapQ], with the [int] it returns. *)
Definition trySwapQ (w : t) : Z * t * list Event :=
  if (privateTaskCount_ w =? 0)%N then
    if negb (publicTaskCount_ w =? 0)%N then
      let '(w', tr) := swapQ w in (1%Z, w', tr)
    else ((-1)%Z, w, [])
  else (0%Z, w, []).

(** The three results of [trySwapQ]: the header documents the integers
    0, 1 and -1; the names are the specification's. *)
Inductive SwapResult := HAS_WORK | EMPTY | SWAPPED.

Definition swap_result (ret : Z) : option SwapResult :=
  if (ret =? 0)%Z then Some HAS_WORK
  else if (ret =? 1)%Z then Some SWAPPED
  else if (ret =? -1)%Z then Some EMPTY
  else None.

(** The loop of [consumeTasks]: call the front task, pop it, until the
    queue is empty.  Returns what is left of the queue and the executions. *)
Fixpoint drain (q : list Task) : list Task * list Event :=
  match q with
  | [] => ([], [])
  | task :: q' => let '(rest, tr) := drain q' in (rest, EvRun task :: tr)
  end.

(** [consumeTasks]: under [priLock], drain [*privateQ_], then
    [privateTaskCount_ = 0]. *)
Definition consumeTasks (w : t) : t * list Event :=
  let '(rest, runs) := drain (deref w (privateQ_ w)) in
  let w1 := store w (privateQ_ w) rest in
  let w2 := set_counts w1 (publicTaskCount_ w1) 0 in
  (w2, [EvLock priLock] ++ runs ++ [EvUnlock priLock]).

(** One operation on a worker's double buffer, and runs of them. *)
Inductive Op := OpGive (task : Task) | OpTrySwap | OpConsume.

Definition step (w : t) (o : Op) : t * list Event :=
  match o with
  | OpGive task => giveTask w task
  | OpTrySwap => let '(_, w', tr) := trySwapQ w in (w', tr)
  | OpConsume => consumeTasks w
  end.

Fixpoint run (w : t) (ops : list Op) : t * list Event :=
  match ops with
  | [] => (w, [])
  | o :: ops' =>
      let '(w1, tr1) := step w o in
      let '(w2, tr2) := run w1 ops' in
      (w2, tr1 ++ tr2)
  end.

(** Number of work items handed over by a run. *)
Fixpoint given (ops : list Op) : N :=
  match ops with
  | [] => 0
  | OpGive _ :: ops' => 1 + given ops'
  | _ :: ops' => given ops'
  end.

(** The true sum of the two counters. *)
Definition load (w : t) : N := (publicTaskCount_ w + privateTaskCount_ w)%N.

(** The counters agree with the queues they describe and the role
    pointers designate different queues. *)
Record consistent (w : t) : Prop := {
  roles_differ : publicQ_ w ≠ privateQ_ w;
  public_counted : publicTaskCount_ w = N.of_nat (length (deref w (publicQ_ w)));
  private_counted : privateTaskCount_ w = N.of_nat (length (deref w (privateQ_ w)))
}.

(** The work items handed over by a run, in order. *)
Fixpoint given_tasks (ops : list Op) : list Task :=
  match ops with
  | [] => []
  | OpGive task :: ops' => task :: given_tasks ops'
  | _ :: ops' => given_tasks ops'
  end.

(** What the worker still holds, oldest first: the private queue, then the
    public one. *)
Definition pending (w : t) : list Task :=
  deref w (privateQ_ w) ++ deref w (publicQ_ w).

(** One round of the loop in [ActivePool::threadFunc] as far as the double
    buffer goes: [trySwapQ()], and unless it returned -1 (the worker then
    waits), [consumeTasks()]. *)
Definition round (w : t) : t * list Event :=
  let '(ret, w1, tr1) := trySwapQ w in
  if (ret =? -1)%Z then (w1, tr1)
  else let '(w2, tr2) := consumeTasks w1 in (w2, tr1 ++ tr2).

End ThreadWithDQ.

(** ** activepool.h, class [ActivePool] *)

Module ActivePool.
Import BasePool.

Definition DEFAULT_THREAD_MAX_COUNT : N := 32.

Record t := {
  state_ : PoolState;
  initThreadCount_ : N;
  curThreadCount_ : N;
  threads_ : list (option ThreadWithDQ.t)
}.

(** Constructor: [initThreadCount_(4)], [curThreadCount_(0)], no thread;
    [BasePool] puts the engine in [STATE_INIT]. *)
Definition make : t :=
  {| state_ := STATE_INIT; initThreadCount_ := 4; curThreadCount_ := 0;
     threads_ := [] |}.

Definition set_threads (p : t) (ths : list (option ThreadWithDQ.t)) : t :=
  {| state_ := state_ p; initThreadCount_ := initThreadCount_ p;
     curThreadCount_ := curThreadCount_ p; threads_ := ths |}.

(** [ActivePool::setTaskMaxCount]: the body is a TODO; nothing is written
    and nothing is printed. *)
Definition setTaskMaxCount (g : ThreadWithDQ.Statics) (p : t) (maxCount : N)
  : ThreadWithDQ.Statics * t * list Event :=
  (g, p, []).

Fixpoint create_threads (n : nat) (g : BasicThread.Statics)
    (ths : list (option ThreadWithDQ.t))
  : option (BasicThread.Statics * list (option ThreadWithDQ.t)) :=
  match n with
  | O => Some (g, ths)
  | S n' =>
      '(id, g') ← BasicThread.new_id g;
      create_threads n' g' (ths ++ [Some (ThreadWithDQ.make id)])
  end.

(** [for (auto& th : threads_) th->start();] *)
Fixpoint start_all (ths : list (option ThreadWithDQ.t)) : option (list Event) :=
  match ths with
  | [] => Some []
  | Some th :: ths' =>
      tr ← start_all ths'; Some (EvThreadStart (ThreadWithDQ.threadId_ th) :: tr)
  | None :: _ => None
  end.

Definition start (g : BasicThread.Statics) (p : t) (initThreadCount : Z)
  : option (BasicThread.Statics * t * list Event) :=
  let init := Util.size_of_int initThreadCount in
  n ← Util.iterations init;
  '(g', ths) ← create_threads n g (threads_ p);
  tr ← start_all ths;
  Some (g',
        {| state_ := STATE_RUNNING; initThreadCount_ := init;
           curThreadCount_ := Util.size_of_int initThreadCount;
           threads_ := ths |},
        tr).

(** The loop of [trySubmitTask], from index [i] on; [rest] is the part of
    [threads_] that starts at index [i].  Returns
    [(leastBusyTid, minTaskCount)]. *)
Fixpoint scan (rest : list (option ThreadWithDQ.t)) (i : Z) (cur : N)
    (leastBusyTid minTaskCount : Z) : option (Z * Z) :=
  if (Util.size_of_int i <? cur)%N then
    match rest with
    | Some th :: rest' =>
        let count := ThreadWithDQ.getPublicTaskCount th in
        if (i =? Util.INT_MAX)%Z then None
        else if (count <? Util.size_of_int minTaskCount)%N
             then scan rest' (i + 1)%Z cur i (Util.int_of_size count)
             else scan rest' (i + 1)%Z cur leastBusyTid minTaskCount
    | _ => None
    end
  else Some (leastBusyTid, minTaskCount).

Definition trySubmitTask (g : ThreadWithDQ.Statics) (p : t) (task : Task)
  : option (bool * t * list Event) :=
  match threads_ p with
  | Some th0 :: rest =>
      '(leastBusyTid, minTaskCount) ←
        scan rest 1 (curThreadCount_ p) 0
             (Util.int_of_size (ThreadWithDQ.getPublicTaskCount th0));
      if (Util.size_of_int minTaskCount =? ThreadWithDQ.getTaskMaxCount g)%N
      then Some (false, p, [])
      else
        match threads_ p !! Z.to_nat leastBusyTid with
        | Some (Some th) =>
            let '(th', tr) := ThreadWithDQ.giveTask th task in
            Some (true,
                  set_threads p (<[Z.to_nat leastBusyTid := Some th']> (threads_ p)),
                  tr)
        | _ => None
        end
  | _ => None
  end.

Definition busy_message : string :=
  "ThreadPool is busy, waiting for 1 second..."%string.

(** [submitTask].  [during_sleep] is what the worker threads do to the pool
    while the submitter sleeps for one second. *)
Definition submitTask (g : ThreadWithDQ.Statics) (p : t) (during_sleep : t → t)
    (task : Task) : Outcome * t * list Event :=
  match trySubmitTask g p task with
  | None => (Undefined, p, [])
  | Some (true, p1, tr1) => (Returned, p1, tr1 ++ [EvNotifyAll notEmpty])
  | Some (false, p1, tr1) =>
      let p2 := during_sleep p1 in
      let tr := tr1 ++ [EvSleep 1; EvCerr busy_message] in
      match trySubmitTask g p2 task with
      | None => (Undefined, p2, tr)
      | Some (true, p3, tr3) => (Returned, p3, tr ++ tr3 ++ [EvNotifyAll notEmpty])
      | Some (false, p3, tr3) => (Threw "TaskQueueOverflow", p3, tr ++ tr3)
      end
  end.

(** *** [ActivePool::start] in its two parts, and [ActivePool::threadFunc] *)

(** [start] up to the end of the loop that starts the threads:
    [initThreadCount_] is stored, the threads are created and started;
    [curThreadCount_] and [state_] are not yet written. *)
Definition start_threads (g : BasicThread.Statics) (p : t) (initThreadCount : Z)
  : option (BasicThread.Statics * t * list Event) :=
  let init := Util.size_of_int initThreadCount in
  n ← Util.iterations init;
  '(g', ths) ← create_threads n g (threads_ p);
  tr ← start_all ths;
  Some (g',
        {| state_ := state_ p; initThreadCount_ := init;
           curThreadCount_ := curThreadCount_ p; threads_ := ths |},
        tr).

(** The last two statements of [start]:
    [curThreadCount_ = initThreadCount; state_ = STATE_RUNNING;] *)
Definition start_commit (p : t) (initThreadCount : Z) : t :=
  {| state_ := STATE_RUNNING; initThreadCount_ := initThreadCount_ p;
     curThreadCount_ := Util.size_of_int initThreadCount;
     threads_ := threads_ p |}.

(** Where a worker stands in [threadFunc]: not yet entered, at the test of
    the [while], waiting on [notEmpty_], past the loop, or returned. *)
Inductive Position := NotEntered | AtLoopTest | Parked | PastLoop | Returned.

(** [int id = threadId - threads_[0]->getId();] with [threads_[id]] in
    range. *)
Definition slot_of (p : t) (threadId : Z) : option nat :=
  match threads_ p with
  | Some th0 :: _ =>
      let id := (threadId - ThreadWithDQ.threadId_ th0)%Z in
      if (id <? 0)%Z then None
      else if (Z.to_nat id <? length (threads_ p))%nat then Some (Z.to_nat id)
           else None
  | _ => None
  end.

(** One pass from the test of [while (state_ == STATE_RUNNING)]:
    [trySwapQ()]; on -1 the worker waits on [notEmpty_]; otherwise
    [consumeTasks()] and back to the test. *)
Definition loop_test (p : t) (id : nat) : option (t * Position * list Event) :=
  if bool_decide (state_ p = STATE_RUNNING) then
    match threads_ p !! id with
    | Some (Some thd) =>
        let '(ret, thd1, tr1) := ThreadWithDQ.trySwapQ thd in
        if (ret =? -1)%Z then
          Some (set_threads p (<[id := Some thd1]> (threads_ p)), Parked, tr1)
        else
          let '(thd2, tr2) := ThreadWithDQ.consumeTasks thd1 in
          Some (set_threads p (<[id := Some thd2]> (threads_ p)), AtLoopTest, tr1 ++ tr2)
    | _ => None
    end
  else Some (p, PastLoop, []).

(** The wait on [notEmpty_] returns: its predicate
    [getPublicTaskCount() > 0 || state_ == STATE_EXITING] holds.  Then
    [if (state_ == STATE_EXITING) break;] else [consumeTasks()]. *)
Definition resume (p : t) (id : nat) : option (t * Position * list Event) :=
  match threads_ p !! id with
  | Some (Some thd) =>
      if (0 <? ThreadWithDQ.getPublicTaskCount thd)%N
         || bool_decide (state_ p = STATE_EXITING) then
        if bool_decide (state_ p = STATE_EXITING) then Some (p, PastLoop, [])
        else
          let '(thd2, tr2) := ThreadWithDQ.consumeTasks thd in
          Some (set_threads p (<[id := Some thd2]> (threads_ p)), AtLoopTest, tr2)
      else Some (p, Parked, [])
  | _ => None
  end.

(** After the loop:
    [threads_[id] = nullptr; curThreadCount_--; allExit_.notify_all();] *)
Definition leave (p : t) (id : nat) : t * Position * list Event :=
  ({| state_ := state_ p; initThreadCount_ := initThreadCount_ p;
      curThreadCount_ := Util.size_decr (curThreadCount_ p);
      threads_ := <[id := None]> (threads_ p) |},
   Returned, [EvNotifyAll allExit]).

(** A worker that runs its whole loop function from the entry to the first
    point where it waits or returns, given that it gets there within
    [fuel] passes. *)
Fixpoint passes (fuel : nat) (p : t) (id : nat) : option (t * Position * list Event) :=
  match fuel with
  | O => Some (p, AtLoopTest, [])
  | S fuel' =>
      '(p1, at1, tr1) ← loop_test p id;
      match at1 with
      | AtLoopTest => '(p2, at2, tr2) ← passes fuel' p1 id; Some (p2, at2, tr1 ++ tr2)
      | PastLoop => let '(p2, at2, tr2) := leave p1 id in Some (p2, at2, tr1 ++ tr2)
      | _ => Some (p1, at1, tr1)
      end
  end.

(** The loop function from its entry. *)
Definition threadFunc (fuel : nat) (p : t) (threadId : Z)
  : option (t * Position * list Event) :=
  id ← slot_of p threadId; passes fuel p id.

(** Worker [k] exists and its public load is the least, the lowest index
    winning ties. *)
Definition least_loaded (ths : list (option ThreadWithDQ.t)) (k : nat)
    (th : ThreadWithDQ.t) : Prop :=
  ths !! k = Some (Some th) ∧
  (∀ j th', ths !! j = Some (Some th') →
     (ThreadWithDQ.getPublicTaskCount th ≤ ThreadWithDQ.getPublicTaskCount th')%N) ∧
  (∀ j th', (j < k)%nat → ths !! j = Some (Some th') →
     (ThreadWithDQ.getPublicTaskCount th < ThreadWithDQ.getPublicTaskCount th')%N).

(** The pool as [start] leaves it while no worker has exited: at least one
    worker, every slot occupied, [curThreadCount_] equal to the number of
    slots, and every public load within the range of an [int]. *)
Record workers_running (p : t) : Prop := {
  some_worker : threads_ p ≠ [];
  all_alive : Forall is_Some (threads_ p);
  count_matches : curThreadCount_ p = N.of_nat (length (threads_ p));
  few_workers : (Z.of_nat (length (threads_ p)) ≤ Util.INT_MAX)%Z;
  loads_fit :
    Forall (λ o, ∀ th, o = Some th →
              (Z.of_N (ThreadWithDQ.getPublicTaskCount th) ≤ Util.INT_MAX)%Z)
           (threads_ p)
}.

(** Among the first [i] slots, worker [k] has the least public load, the
    lowest index winning ties. *)
Definition least_of_prefix (ths : list (option ThreadWithDQ.t)) (i k : nat)
    (th : ThreadWithDQ.t) : Prop :=
  ths !! k = Some (Some th) ∧ (k < i)%nat ∧
  (∀ j th', (j < i)%nat → ths !! j = Some (Some th') →
     (ThreadWithDQ.getPublicTaskCount th ≤ ThreadWithDQ.getPublicTaskCount th')%N) ∧
  (∀ j th', (j < k)%nat → ths !! j = Some (Some th') →
     (ThreadWithDQ.getPublicTaskCount th < ThreadWithDQ.getPublicTaskCount th')%N).

(** A running pool of two workers that have been given nothing yet. *)
Definition two_idle_workers : t :=
  {| state_ := STATE_RUNNING;
     initThreadCount_ := 2;
     curThreadCount_ := 2;
     threads_ := [Some (ThreadWithDQ.make 0); Some (ThreadWithDQ.make 1)] |}.

(** Two running workers whose public counters both stand at the cap. *)
Definition two_full_workers : t :=
  {| state_ := STATE_RUNNING;
     initThreadCount_ := 2;
     curThreadCount_ := 2;
     threads_ :=
       [Some (ThreadWithDQ.set_counts (ThreadWithDQ.make 0)
                ThreadWithDQ.DEFAULT_TASK_MAX_COUNT 0);
        Some (ThreadWithDQ.set_counts (ThreadWithDQ.make 1)
                ThreadWithDQ.DEFAULT_TASK_MAX_COUNT 0)] |}.

(** Worker [k] runs [trySwapQ] (what its loop function does first). *)
Definition worker_swaps (k : nat) (p : t) : t :=
  match threads_ p !! k with
  | Some (Some th) =>
      set_threads p (<[k := Some (ThreadWithDQ.trySwapQ th).1.2]> (threads_ p))
  | _ => p
  end.

(** Every public load is within the cap. *)
Definition loads_within_cap (g : ThreadWithDQ.Statics) (p : t) : Prop :=
  Forall (λ o, ∀ th, o = Some th →
            (ThreadWithDQ.getPublicTaskCount th ≤ ThreadWithDQ.getTaskMaxCount g)%N)
         (threads_ p).

(** Pool [p'] is pool [p] after worker [k] has been given [task]: the task
    is at the back of the queue that the worker's public pointer
    designates, the worker's public counter is one higher, and nothing
    else differs, in this worker or in the pool. *)
Definition given_to (p : t) (k : nat) (task : Task) (p' : t) : Prop :=
  state_ p' = state_ p ∧
  initThreadCount_ p' = initThreadCount_ p ∧
  curThreadCount_ p' = curThreadCount_ p ∧
  length (threads_ p') = length (threads_ p) ∧
  (∀ j, j ≠ k → threads_ p' !! j = threads_ p !! j) ∧
  ∃ th th',
    threads_ p !! k = Some (Some th) ∧
    threads_ p' !! k = Some (Some th') ∧
    ThreadWithDQ.threadId_ th' = ThreadWithDQ.threadId_ th ∧
    ThreadWithDQ.publicQ_ th' = ThreadWithDQ.publicQ_ th ∧
    ThreadWithDQ.privateQ_ th' = ThreadWithDQ.privateQ_ th ∧
    ThreadWithDQ.deref th' (ThreadWithDQ.publicQ_ th)
      = ThreadWithDQ.deref th (ThreadWithDQ.publicQ_ th) ++ [task] ∧
    (∀ r, r ≠ ThreadWithDQ.publicQ_ th →
          ThreadWithDQ.deref th' r = ThreadWithDQ.deref th r) ∧
    ThreadWithDQ.publicTaskCount_ th' = (ThreadWithDQ.publicTaskCount_ th + 1)%N ∧
    ThreadWithDQ.privateTaskCount_ th' = ThreadWithDQ.privateTaskCount_ th.

(** As many tasks as the per-worker cap allows. *)
Definition full_queue : list Task :=
  replicate (N.to_nat ThreadWithDQ.DEFAULT_TASK_MAX_COUNT) 0%nat.

(** A worker that has been given [full_queue] and has not swapped yet. *)
Definition full_worker (id : Z) : ThreadWithDQ.t :=
  {| ThreadWithDQ.threadId_ := id;
     ThreadWithDQ.publicTaskCount_ := ThreadWithDQ.DEFAULT_TASK_MAX_COUNT;
     ThreadWithDQ.privateTaskCount_ := 0;
     ThreadWithDQ.publicQ_ := ThreadWithDQ.TaskQ1;
     ThreadWithDQ.privateQ_ := ThreadWithDQ.TaskQ2;
     ThreadWithDQ.TaskQ1_ := full_queue;
     ThreadWithDQ.TaskQ2_ := [] |}.

(** Three running workers, every public queue at the cap. *)
Definition three_full_workers : t :=
  {| state_ := STATE_RUNNING;
     initThreadCount_ := 3;
     curThreadCount_ := 3;
     threads_ := [Some (full_worker 0); Some (full_worker 1); Some (full_worker 2)] |}.

(** Workers 1 and 2 run [trySwapQ]: their full queues become private. *)
Definition two_workers_swap (p : t) : t := worker_swaps 2 (worker_swaps 1 p).

(** [full_worker id] after its [trySwapQ]. *)
Definition swapped_worker (id : Z) : ThreadWithDQ.t :=
  {| ThreadWithDQ.threadId_ := id;
     ThreadWithDQ.publicTaskCount_ := 0;
     ThreadWithDQ.privateTaskCount_ := ThreadWithDQ.DEFAULT_TASK_MAX_COUNT;
     ThreadWithDQ.publicQ_ := ThreadWithDQ.TaskQ2;
     ThreadWithDQ.privateQ_ := ThreadWithDQ.TaskQ1;
     ThreadWithDQ.TaskQ1_ := full_queue;
     ThreadWithDQ.TaskQ2_ := [] |}.

(** Three running workers with public loads 3, 1 and 1. *)
Definition three_busy_workers : t :=
  {| state_ := STATE_RUNNING;
     initThreadCount_ := 3;
     curThreadCount_ := 3;
     threads_ :=
       [Some (ThreadWithDQ.run (ThreadWithDQ.make 0)
                [ThreadWithDQ.OpGive 1%nat; ThreadWithDQ.OpGive 2%nat;
                 ThreadWithDQ.OpGive 3%nat]).1;
        Some (ThreadWithDQ.run (ThreadWithDQ.make 1) [ThreadWithDQ.OpGive 4%nat]).1;
        Some (ThreadWithDQ.run (ThreadWithDQ.make 2) [ThreadWithDQ.OpGive 5%nat]).1] |}.

End ActivePool.

(** ** Shared by fixedpool.h and cachedpoo.h *)

Module ThreadTable.

(** [unordered_map::emplace]: an existing key keeps its value. *)
Definition emplace (id : Z) (th : BasicThread.Thread)
    (m : gmap Z BasicThread.Thread) : gmap Z BasicThread.Thread :=
  match m !! id with
  | Some _ => m
  | None => <[id := th]> m
  end.

(** The creation loop of [start]: [n] times, build a [Thread] and emplace
    it under its id. *)
Fixpoint create_threads (n : nat) (g : BasicThread.Statics)
    (m : gmap Z BasicThread.Thread)
  : option (BasicThread.Statics * gmap Z BasicThread.Thread) :=
  match n with
  | O => Some (g, m)
  | S n' =>
      '(th, g') ← BasicThread.Thread_new g;
      create_threads n' g' (emplace (BasicThread.getId th) th m)
  end.

(** [for (auto& th : threads_) th.second->start();] in the table's
    iteration order. *)
Definition start_all (m : gmap Z BasicThread.Thread) : list Event :=
  concat ((λ kv : Z * BasicThread.Thread, BasicThread.start kv.2) <$> map_to_list m).

(** Every id in the table was handed out before. *)
Definition ids_below (g : BasicThread.Statics) (m : gmap Z BasicThread.Thread) : Prop :=
  ∀ id th, m !! id = Some th → (id < BasicThread.threadIdBase g)%Z.

End ThreadTable.

(** ** fixedpool.h *)

Module FixedPool.
Import BasePool.

Definition DEFAULT_TASK_MAX_COUNT : N := 1000001.

Record t := {
  state_ : PoolState;
  initThreadCount_ : N;
  idleThreadCount_ : N;
  curThreadCount_ : N;
  threads_ : gmap Z BasicThread.Thread;
  taskMaxCount_ : N;
  taskCount_ : N;
  taskQueue_ : list Task
}.

Definition make : t :=
  {| state_ := STATE_INIT;
     initThreadCount_ := 4; idleThreadCount_ := 0; curThreadCount_ := 0;
     threads_ := ∅;
     taskMaxCount_ := DEFAULT_TASK_MAX_COUNT; taskCount_ := 0;
     taskQueue_ := [] |}.

Definition setTaskMaxCount (p : t) (maxCount : N) : t * list Event :=
  if negb (checkSetPermission (state_ p)) then (p, [EvCerr set_refused])
  else
    ({| state_ := state_ p;
        initThreadCount_ := initThreadCount_ p;
        idleThreadCount_ := idleThreadCount_ p;
        curThreadCount_ := curThreadCount_ p;
        threads_ := threads_ p;
        taskMaxCount_ := maxCount; taskCount_ := taskCount_ p;
        taskQueue_ := taskQueue_ p |}, []).

Definition start (g : BasicThread.Statics) (p : t) (initThreadCount : Z)
  : option (BasicThread.Statics * t * list Event) :=
  let init := Util.size_of_int initThreadCount in
  n ← Util.iterations init;
  '(g', ths) ← ThreadTable.create_threads n g (threads_ p);
  Some (g',
        {| state_ := STATE_RUNNING;
           initThreadCount_ := init;
           idleThreadCount_ := Util.size_of_int initThreadCount;
           curThreadCount_ := Util.size_of_int initThreadCount;
           threads_ := ths;
           taskMaxCount_ := taskMaxCount_ p; taskCount_ := taskCount_ p;
           taskQueue_ := taskQueue_ p |},
        ThreadTable.start_all ths).

(** The predicate [submitTask] waits for:
    [taskQueue_.size() < taskMaxCount_]. *)
Definition has_room (p : t) : bool :=
  (N.of_nat (length (taskQueue_ p)) <? taskMaxCount_ p)%N.

(** [taskQueue_.emplace(task); taskCount_++;] *)
Definition enqueue (p : t) (task : Task) : t :=
  {| state_ := state_ p;
     initThreadCount_ := initThreadCount_ p;
     idleThreadCount_ := idleThreadCount_ p;
     curThreadCount_ := curThreadCount_ p;
     threads_ := threads_ p;
     taskMaxCount_ := taskMaxCount_ p;
     taskCount_ := Util.size_incr (taskCount_ p);
     taskQueue_ := taskQueue_ p ++ [task] |}.

(** [submitTask].  [wakes] is what happens while the submitter is blocked
    on [notFull_] (see [BasePool.wait_for]). *)
Definition submitTask (p : t) (wakes : list (WakeUp t)) (task : Task)
  : Outcome * t * list Event :=
  if negb (bool_decide (state_ p = STATE_RUNNING)) then
    (Threw "PoolNotRunning", p, [])
  else
    let '(waitSuccess, p1) := wait_for has_room wakes p in
    if negb waitSuccess then
      (Threw "TaskQueueOverflow", p1, [EvWaitFor notFull 1])
    else
      (Returned, enqueue p1 task, [EvWaitFor notFull 1; EvNotifyAll notEmpty]).

(** The pool after [start(2)] on a fresh engine. *)
Definition started : t :=
  match start BasicThread.initial_statics make 2 with
  | Some (_, p, _) => p
  | None => make
  end.

(** What a worker does to the pool when it takes a task in [threadFunc]:
    [idleThreadCount_--; taskQueue_.pop(); taskCount_--;] *)
Definition take_task (p : t) : t :=
  {| state_ := state_ p;
     initThreadCount_ := initThreadCount_ p;
     idleThreadCount_ := Util.size_decr (idleThreadCount_ p);
     curThreadCount_ := curThreadCount_ p;
     threads_ := threads_ p;
     taskMaxCount_ := taskMaxCount_ p;
     taskCount_ := Util.size_decr (taskCount_ p);
     taskQueue_ := tail (taskQueue_ p) |}.

(** Capacity 2, [start(1)], two tasks queued: the queue is full. *)
Definition full_pool : t :=
  match start BasicThread.initial_statics (setTaskMaxCount make 2).1 1 with
  | Some (_, p, _) => enqueue (enqueue p 1%nat) 2%nat
  | None => make
  end.

(** While the submitter waits on the full queue of [full_pool]: a wake-up
    at which nothing has changed, then one after a worker has taken the
    front task; both before the deadline. *)
Definition woken_twice : list (WakeUp t) :=
  [{| interfere := λ p, p; deadline := false |};
   {| interfere := take_task; deadline := false |}].

(** *** [FixedPool::threadFunc]

    Where a worker stands, observed where other threads can run in
    between: before its loop function is entered, blocked in
    [notEmpty_.wait] (mutex released), executing a task (mutex released),
    past the outer loop with the clean-up still to do, and returned. *)

Inductive Position :=
| NotStarted
| Blocked
| Executing (task : Task)
| Leaving
| Exited.

#[global] Instance Position_eq_dec : EqDecision Position.
Proof. solve_decision. Defined.

(** After the inner loop, mutex held: [if (state_ == EXITING ||
    isIdleTimeout) break;] ([isIdleTimeout] is never set in this class),
    otherwise take the front task, notify and unlock.  [front()] on an
    empty queue is undefined. *)
Definition after_inner (p : t) : option (t * Position * list Event) :=
  if bool_decide (state_ p = STATE_EXITING) then Some (p, Leaving, [])
  else
    match taskQueue_ p with
    | [] => None
    | pTask :: q =>
        Some (take_task p, Executing pTask,
              (if bool_decide (q = []) then [] else [EvNotifyAll notEmpty])
                ++ [EvNotifyAll notFull])
    end.

(** The test of the inner loop, mutex held:
    [while (state_ == RUNNING && taskQueue_.empty())] blocks in
    [notEmpty_.wait(lock, pred)]. *)
Definition inner_test (p : t) : option (t * Position * list Event) :=
  if bool_decide (state_ p = STATE_RUNNING) && bool_decide (taskQueue_ p = []) then
    Some (p, Blocked, [])
  else after_inner p.

(** The test of the outer loop: [while (state_ == RUNNING)], then lock. *)
Definition outer_test (p : t) : option (t * Position * list Event) :=
  if bool_decide (state_ p = STATE_RUNNING) then inner_test p
  else Some (p, Leaving, []).

(** A notification reaches a blocked worker.  [wait(lock, pred)] returns
    only when [!taskQueue_.empty() || state_ == STATE_EXITING] holds;
    otherwise the worker stays blocked. *)
Definition wake (p : t) : option (t * Position * list Event) :=
  if negb (bool_decide (taskQueue_ p = [])) || bool_decide (state_ p = STATE_EXITING)
  then inner_test p
  else Some (p, Blocked, []).

(** The task returns: [idleThreadCount_++;] and round the outer loop. *)
Definition finish (p : t) (task : Task) : option (t * Position * list Event) :=
  let p1 :=
    {| state_ := state_ p;
       initThreadCount_ := initThreadCount_ p;
       idleThreadCount_ := Util.size_incr (idleThreadCount_ p);
       curThreadCount_ := curThreadCount_ p;
       threads_ := threads_ p;
       taskMaxCount_ := taskMaxCount_ p;
       taskCount_ := taskCount_ p;
       taskQueue_ := taskQueue_ p |} in
  '(p2, at2, tr) ← outer_test p1; Some (p2, at2, EvRun task :: tr).

(** The clean-up after the outer loop:
    [idleThreadCount_--; curThreadCount_--; threads_.erase(threadId);
     allExit_.notify_all();] *)
Definition cleanup (p : t) (threadId : Z) : t * Position * list Event :=
  ({| state_ := state_ p;
      initThreadCount_ := initThreadCount_ p;
      idleThreadCount_ := Util.size_decr (idleThreadCount_ p);
      curThreadCount_ := Util.size_decr (curThreadCount_ p);
      threads_ := delete threadId (threads_ p);
      taskMaxCount_ := taskMaxCount_ p;
      taskCount_ := taskCount_ p;
      taskQueue_ := taskQueue_ p |},
   Exited, [EvNotifyAll allExit]).

(** The destructor up to its wait on [allExit_]:
    [state_ = EXITING; notEmpty_.notify_all();] *)
Definition begin_destroy (p : t) : t :=
  {| state_ := STATE_EXITING;
     initThreadCount_ := initThreadCount_ p;
     idleThreadCount_ := idleThreadCount_ p;
     curThreadCount_ := curThreadCount_ p;
     threads_ := threads_ p;
     taskMaxCount_ := taskMaxCount_ p;
     taskCount_ := taskCount_ p;
     taskQueue_ := taskQueue_ p |}.

(** The predicate the destructor waits for on [allExit_]. *)
Definition all_exited (p : t) : bool := bool_decide (threads_ p = ∅).

(** What the worker's code from the test of a loop on may do to the pool:
    it either takes the front task (and is then executing it) or changes
    nothing. *)
Definition took_front (p p' : t) (at' : Position) : Prop :=
  state_ p' = state_ p ∧ initThreadCount_ p' = initThreadCount_ p ∧
  curThreadCount_ p' = curThreadCount_ p ∧ threads_ p' = threads_ p ∧
  taskMaxCount_ p' = taskMaxCount_ p ∧
  match at' with
  | Executing task =>
      taskQueue_ p = task :: taskQueue_ p' ∧
      taskCount_ p' = Util.size_decr (taskCount_ p)
  | Blocked | Leaving =>
      taskQueue_ p' = taskQueue_ p ∧ taskCount_ p' = taskCount_ p
  | _ => False
  end.

(** *** The pool together with its worker threads *)

Record Sys := {
  statics : BasicThread.Statics;
  pool : t;
  workers : gmap Z Position
}.

Definition initial_sys : Sys :=
  {| statics := BasicThread.initial_statics; pool := make; workers := ∅ |}.

Inductive Action :=
| ActStart (initThreadCount : Z)
| ActSubmit (task : Task)
| ActBegin (id : Z)
| ActWake (id : Z)
| ActFinish (id : Z)
| ActCleanup (id : Z)
| ActDestroy.

(** What one action did, next to the new state: the events, the task a
    worker took from the queue, the task a submit put into it. *)
Record Step := {
  after : Sys;
  events : list Event;
  took : list Task;
  accepted : list Task
}.

Definition worker_step (s : Sys) (id : Z) (r : t * Position * list Event) : Step :=
  let '(p, at', tr) := r in
  {| after := {| statics := statics s; pool := p; workers := <[id := at']> (workers s) |};
     events := tr;
     took := match at' with Executing task => [task] | _ => [] end;
     accepted := [] |}.

(** One scheduled action; [None] when the action is not enabled (the
    worker is not at that point of its code) or the code's behaviour is
    undefined there.  A submit whose queue is full sees its deadline at
    once. *)
Definition exec (s : Sys) (a : Action) : option Step :=
  match a with
  | ActStart n =>
      '(g, p, tr) ← start (statics s) (pool s) n;
      Some {| after := {| statics := g; pool := p;
                          workers := workers s ∪ ((λ _, NotStarted) <$> threads_ p) |};
              events := tr; took := []; accepted := [] |}
  | ActSubmit task =>
      match submitTask (pool s) [] task with
      | (Undefined, _, _) => None
      | (o, p, tr) =>
          Some {| after := {| statics := statics s; pool := p; workers := workers s |};
                  events := tr; took := [];
                  accepted := if bool_decide (o = Returned) then [task] else [] |}
      end
  | ActBegin id =>
      at0 ← workers s !! id;
      match at0 with
      | NotStarted => worker_step s id <$> outer_test (pool s)
      | _ => None
      end
  | ActWake id =>
      at0 ← workers s !! id;
      match at0 with
      | Blocked => worker_step s id <$> wake (pool s)
      | _ => None
      end
  | ActFinish id =>
      at0 ← workers s !! id;
      match at0 with
      | Executing task => worker_step s id <$> finish (pool s) task
      | _ => None
      end
  | ActCleanup id =>
      at0 ← workers s !! id;
      match at0 with
      | Leaving => Some (worker_step s id (cleanup (pool s) id))
      | _ => None
      end
  | ActDestroy =>
      Some {| after := {| statics := statics s; pool := begin_destroy (pool s);
                          workers := workers s |};
              events := [EvNotifyAll notEmpty]; took := []; accepted := [] |}
  end.

(** A schedule: the state it leads to, with everything taken, accepted
    and recorded on the way. *)
Fixpoint exec_all (s : Sys) (acts : list Action) : option Step :=
  match acts with
  | [] => Some {| after := s; events := []; took := []; accepted := [] |}
  | a :: acts' =>
      st ← exec s a;
      st' ← exec_all (after st) acts';
      Some {| after := after st';
              events := events st ++ events st';
              took := took st ++ took st';
              accepted := accepted st ++ accepted st' |}
  end.

(** The engine is running and every worker is in its loop. *)
Definition all_in_loop (s : Sys) : Prop :=
  state_ (pool s) = STATE_RUNNING ∧
  ∀ id at0, workers s !! id = Some at0 → at0 ≠ Leaving ∧ at0 ≠ Exited.

(** Actions other than a further [start] and the destructor. *)
Definition ordinary (a : Action) : Prop :=
  match a with
  | ActStart _ | ActDestroy => False
  | _ => True
  end.

(** [taskCount_] is the length of the queue, which is within the capacity. *)
Definition counted (p : t) : Prop :=
  taskCount_ p = N.of_nat (length (taskQueue_ p)) ∧
  (N.of_nat (length (taskQueue_ p)) ≤ taskMaxCount_ p)%N ∧
  (taskMaxCount_ p < Util.SIZE_MOD)%N.

(** A schedule on two workers: submit three tasks, both workers take one,
    worker 0 finishes and takes the third. *)
Definition busy_schedule : list Action :=
  [ActStart 2; ActBegin 0; ActBegin 1;
   ActSubmit 1%nat; ActSubmit 2%nat; ActSubmit 3%nat;
   ActWake 0; ActWake 1; ActFinish 0].

(** The system [start(2)] leaves. *)
Definition started_sys : Sys :=
  match exec initial_sys (ActStart 2) with
  | Some st => after st
  | None => initial_sys
  end.

(** The busy schedule, a fourth task submitted while both workers are
    executing, and then the destructor. *)
Definition exiting_sys : Sys :=
  match exec_all initial_sys (busy_schedule ++ [ActSubmit 4%nat; ActDestroy]) with
  | Some st => after st
  | None => initial_sys
  end.

End FixedPool.

(** ** cachedpoo.h *)

Module CachedPool.
Import BasePool.

Definition DEFAULT_TASK_MAX_COUNT : N := 1000001.
Definition DEFAULT_THREAD_MAX_COUNT : N := 16.
Definition DEFAULT_MAX_IDLE_SEC : N := 30.

Record t := {
  state_ : PoolState;
  initThreadCount_ : N;
  maxThreadCount_ : N;
  threadMaxIdleSec_ : N;
  idleThreadCount_ : N;
  curThreadCount_ : N;
  threads_ : gmap Z BasicThread.Thread;
  taskMaxCount_ : N;
  taskCount_ : N;
  taskQueue_ : list Task
}.

Definition make : t :=
  {| state_ := STATE_INIT;
     initThreadCount_ := 4;
     maxThreadCount_ := DEFAULT_THREAD_MAX_COUNT;
     threadMaxIdleSec_ := DEFAULT_MAX_IDLE_SEC;
     idleThreadCount_ := 0; curThreadCount_ := 0;
     threads_ := ∅;
     taskMaxCount_ := DEFAULT_TASK_MAX_COUNT; taskCount_ := 0;
     taskQueue_ := [] |}.

Definition set_limits (p : t) (taskMax threadMax idleSec : N) : t :=
  {| state_ := state_ p;
     initThreadCount_ := initThreadCount_ p;
     maxThreadCount_ := threadMax;
     threadMaxIdleSec_ := idleSec;
     idleThreadCount_ := idleThreadCount_ p;
     curThreadCount_ := curThreadCount_ p;
     threads_ := threads_ p;
     taskMaxCount_ := taskMax; taskCount_ := taskCount_ p;
     taskQueue_ := taskQueue_ p |}.

Definition setTaskMaxCount (p : t) (maxCount : N) : t * list Event :=
  if negb (checkSetPermission (state_ p)) then (p, [EvCerr set_refused])
  else (set_limits p maxCount (maxThreadCount_ p) (threadMaxIdleSec_ p), []).

Definition setThreadMaxCount (p : t) (maxCount : N) : t * list Event :=
  if negb (checkSetPermission (state_ p)) then (p, [EvCerr set_refused])
  else (set_limits p (taskMaxCount_ p) maxCount (threadMaxIdleSec_ p), []).

Definition setThreadIdleTimeout (p : t) (timeout : N) : t * list Event :=
  if negb (checkSetPermission (state_ p)) then (p, [EvCerr set_refused])
  else (set_limits p (taskMaxCount_ p) (maxThreadCount_ p) timeout, []).

(** [start].  [initThreadCount > maxThreadCount_] compares an [int] with a
    [size_t], so the [int] is converted first; the two counters receive the
    argument itself. *)
Definition start (g : BasicThread.Statics) (p : t) (initThreadCount : Z)
  : option (BasicThread.Statics * t * list Event) :=
  let init :=
    if (maxThreadCount_ p <? Util.size_of_int initThreadCount)%N
    then maxThreadCount_ p else Util.size_of_int initThreadCount in
  n ← Util.iterations init;
  '(g', ths) ← ThreadTable.create_threads n g (threads_ p);
  Some (g',
        {| state_ := STATE_RUNNING;
           initThreadCount_ := init;
           maxThreadCount_ := maxThreadCount_ p;
           threadMaxIdleSec_ := threadMaxIdleSec_ p;
           idleThreadCount_ := Util.size_of_int initThreadCount;
           curThreadCount_ := Util.size_of_int initThreadCount;
           threads_ := ths;
           taskMaxCount_ := taskMaxCount_ p; taskCount_ := taskCount_ p;
           taskQueue_ := taskQueue_ p |},
        ThreadTable.start_all ths).

Definition has_room (p : t) : bool :=
  (N.of_nat (length (taskQueue_ p)) <? taskMaxCount_ p)%N.

Definition set_work (p : t) (idle cur : N) (ths : gmap Z BasicThread.Thread)
    (count : N) (q : list Task) : t :=
  {| state_ := state_ p;
     initThreadCount_ := initThreadCount_ p;
     maxThreadCount_ := maxThreadCount_ p;
     threadMaxIdleSec_ := threadMaxIdleSec_ p;
     idleThreadCount_ := idle; curThreadCount_ := cur;
     threads_ := ths;
     taskMaxCount_ := taskMaxCount_ p; taskCount_ := count;
     taskQueue_ := q |}.

Definition enqueue (p : t) (task : Task) : t :=
  set_work p (idleThreadCount_ p) (curThreadCount_ p) (threads_ p)
           (Util.size_incr (taskCount_ p)) (taskQueue_ p ++ [task]).

(** [taskCount_ > idleThreadCount_ && curThreadCount_ < maxThreadCount_] *)
Definition needs_thread (p : t) : bool :=
  (idleThreadCount_ p <? taskCount_ p)%N && (curThreadCount_ p <? maxThreadCount_ p)%N.

(** The body of the [if]: build a [Thread], emplace it, start it, and
    increment both counters. *)
Definition spawn (g : BasicThread.Statics) (p : t)
  : option (BasicThread.Statics * t * list Event) :=
  '(th, g') ← BasicThread.Thread_new g;
  let newThreadId := BasicThread.getId th in
  Some (g',
        set_work p (Util.size_incr (idleThreadCount_ p))
                 (Util.size_incr (curThreadCount_ p))
                 (ThreadTable.emplace newThreadId th (threads_ p))
                 (taskCount_ p) (taskQueue_ p),
        [EvThreadStart newThreadId]).

Definition submitTask (g : BasicThread.Statics) (p : t) (wakes : list (WakeUp t))
    (task : Task) : Outcome * BasicThread.Statics * t * list Event :=
  if negb (bool_decide (state_ p = STATE_RUNNING)) then
    (Threw "PoolNotRunning", g, p, [])
  else
    let '(waitSuccess, p1) := wait_for has_room wakes p in
    if negb waitSuccess then
      (Threw "TaskQueueOverflow", g, p1, [EvWaitFor notFull 1])
    else
      let p2 := enqueue p1 task in
      let tr := [EvWaitFor notFull 1; EvNotifyAll notEmpty] in
      if needs_thread p2 then
        match spawn g p2 with
        | Some (g', p3, tr3) => (Returned, g', p3, tr ++ tr3)
        | None => (Undefined, g, p2, tr)
        end
      else (Returned, g, p2, tr).

(** The statics and the pool after [start(2)] on a fresh engine. *)
Definition started : BasicThread.Statics * t :=
  match start BasicThread.initial_statics make 2 with
  | Some (g, p, _) => (g, p)
  | None => (BasicThread.initial_statics, make)
  end.

(** A storm of submissions from one thread, none of them waiting; [None]
    once a submission runs into undefined behaviour. *)
Fixpoint submit_all (g : BasicThread.Statics) (p : t) (tasks : list Task)
  : option (BasicThread.Statics * t) :=
  match tasks with
  | [] => Some (g, p)
  | task :: tasks' =>
      match submitTask g p [] task with
      | (Undefined, _, _, _) => None
      | (_, g', p', _) => submit_all g' p' tasks'
      end
  end.

(** Capacity 2, [start(1)], two tasks submitted: the queue is full (the
    second submit has started a second worker). *)
Definition full_pool : BasicThread.Statics * t :=
  match start BasicThread.initial_statics (setTaskMaxCount make 2).1 1 with
  | Some (g, p, _) =>
      match submit_all g p [1%nat; 2%nat] with
      | Some r => r
      | None => (g, p)
      end
  | None => (BasicThread.initial_statics, make)
  end.

(** While the submitter waits: a wake-up at which nothing has changed, then
    the deadline, nothing having changed either. *)
Definition nobody_takes : list (WakeUp t) :=
  [{| interfere := λ p, p; deadline := false |};
   {| interfere := λ p, p; deadline := true |}].

(** After [start(2)] and two submissions: two tasks pending, two idle
    workers. *)
Definition two_pending : BasicThread.Statics * t :=
  match submit_all started.1 started.2 [1%nat; 2%nat] with
  | Some r => r
  | None => started
  end.

(** *** [CachedPool::threadFunc]

    The locals of the loop function, and where a worker stands.  A worker
    is observed only where other threads can run in between: before its
    loop function is entered, while it is blocked in
    [notEmpty_.wait_for] (mutex released), while it executes a task
    (mutex released), and after it has left the outer loop (the
    [unique_lock] is destroyed by the [break]) but before the clean-up
    that follows the loop. *)

Record Local := { isIdleTimeout : bool; lastTime : Z }.

Inductive Position :=
| NotStarted
| Blocked
| Executing (task : Task)
| Leaving
| Exited.

Record Worker := { position : Position; locals : Local }.

#[global] Instance Position_eq_dec : EqDecision Position.
Proof. solve_decision. Defined.

(** Clock readings are ticks of [high_resolution_clock], nanoseconds here. *)
Definition TICKS_PER_SEC : Z := 1000000000.

(** [duration_cast<seconds>(nowTime - lastTime).count()]: truncation
    toward zero. *)
Definition idle_seconds (nowTime last : Z) : Z := ((nowTime - last) `quot` TICKS_PER_SEC)%Z.

(** The lambda [checkThreadIdleTimeout].  [idleDuration.count()] is signed
    and [threadMaxIdleSec_] is a [size_t]: the comparison is unsigned. *)
Definition checkThreadIdleTimeout (p : t) (l : Local) (nowTime : Z) : Local :=
  if (curThreadCount_ p =? initThreadCount_ p)%N then l
  else if (threadMaxIdleSec_ p <? Util.size_of_long (idle_seconds nowTime (lastTime l)))%N
       then {| isIdleTimeout := true; lastTime := lastTime l |}
       else l.

(** After the inner loop, mutex held:
    [if (state_ == EXITING || isIdleTimeout) break;] otherwise take the
    front task, notify, unlock, and go and execute the task.  [front()] on
    an empty queue is undefined. *)
Definition after_inner (p : t) (l : Local) : option (t * Worker * list Event) :=
  if bool_decide (state_ p = STATE_EXITING) || isIdleTimeout l then
    Some (p, {| position := Leaving; locals := l |}, [])
  else
    match taskQueue_ p with
    | [] => None
    | pTask :: q =>
        Some (set_work p (Util.size_decr (idleThreadCount_ p)) (curThreadCount_ p)
                       (threads_ p) (Util.size_decr (taskCount_ p)) q,
              {| position := Executing pTask;
                 locals := {| isIdleTimeout := false; lastTime := lastTime l |} |},
              (if bool_decide (q = []) then [] else [EvNotifyAll notEmpty])
                ++ [EvNotifyAll notFull])
    end.

(** The test of the inner loop, mutex held:
    [while (state_ == RUNNING && taskQueue_.empty())] blocks in
    [wait_for(lock, 1s)]. *)
Definition inner_test (p : t) (l : Local) : option (t * Worker * list Event) :=
  if bool_decide (state_ p = STATE_RUNNING) && bool_decide (taskQueue_ p = []) then
    Some (p, {| position := Blocked; locals := l |}, [EvWaitFor notEmpty 1])
  else after_inner p l.

(** The test of the outer loop: [while (state_ == RUNNING)], then lock. *)
Definition outer_test (p : t) (l : Local) : option (t * Worker * list Event) :=
  if bool_decide (state_ p = STATE_RUNNING) then inner_test p l
  else Some (p, {| position := Leaving; locals := l |}, []).

(** Entering the loop function at clock reading [nowTime]. *)
Definition begin (p : t) (nowTime : Z) : option (t * Worker * list Event) :=
  outer_test p {| isIdleTimeout := false; lastTime := nowTime |}.

(** [wait_for] returns, the mutex is held again.  On [cv_status::timeout]
    the idle check runs and may break out of the inner loop. *)
Definition wake (p : t) (l : Local) (timeout : bool) (nowTime : Z)
  : option (t * Worker * list Event) :=
  if timeout then
    let l' := checkThreadIdleTimeout p l nowTime in
    if isIdleTimeout l' then after_inner p l' else inner_test p l'
  else inner_test p l.

(** The task returns at clock reading [nowTime]:
    [idleThreadCount_++; lastTime = now;] and round the outer loop. *)
Definition finish (p : t) (l : Local) (task : Task) (nowTime : Z)
  : option (t * Worker * list Event) :=
  let p1 := set_work p (Util.size_incr (idleThreadCount_ p)) (curThreadCount_ p)
                     (threads_ p) (taskCount_ p) (taskQueue_ p) in
  '(p2, w, tr) ← outer_test p1 {| isIdleTimeout := isIdleTimeout l; lastTime := nowTime |};
  Some (p2, w, EvRun task :: tr).

(** The clean-up after the outer loop:
    [idleThreadCount_--; curThreadCount_--; threads_.erase(threadId);
     allExit_.notify_all();] *)
Definition cleanup (p : t) (l : Local) (threadId : Z) : t * Worker * list Event :=
  (set_work p (Util.size_decr (idleThreadCount_ p)) (Util.size_decr (curThreadCount_ p))
            (delete threadId (threads_ p)) (taskCount_ p) (taskQueue_ p),
   {| position := Exited; locals := l |},
   [EvNotifyAll allExit]).

(** The destructor up to its wait on [allExit_]:
    [state_ = EXITING; notEmpty_.notify_all();] *)
Definition begin_destroy (p : t) : t :=
  {| state_ := STATE_EXITING;
     initThreadCount_ := initThreadCount_ p;
     maxThreadCount_ := maxThreadCount_ p;
     threadMaxIdleSec_ := threadMaxIdleSec_ p;
     idleThreadCount_ := idleThreadCount_ p;
     curThreadCount_ := curThreadCount_ p;
     threads_ := threads_ p;
     taskMaxCount_ := taskMaxCount_ p; taskCount_ := taskCount_ p;
     taskQueue_ := taskQueue_ p |}.

(** *** The pool together with its worker threads *)

Record Sys := {
  statics : BasicThread.Statics;
  pool : t;
  workers : gmap Z Worker
}.

Definition fresh_worker : Worker :=
  {| position := NotStarted; locals := {| isIdleTimeout := false; lastTime := 0 |} |}.

(** Threads present in the table and not yet known get a worker that has
    not entered its loop function. *)
Definition adopt (ths : gmap Z BasicThread.Thread) (ws : gmap Z Worker) : gmap Z Worker :=
  ws ∪ ((λ _, fresh_worker) <$> ths).

Inductive Action :=
| ActStart (initThreadCount : Z)
| ActSubmit (task : Task)
| ActBegin (id : Z) (nowTime : Z)
| ActWake (id : Z) (timeout : bool) (nowTime : Z)
| ActFinish (id : Z) (nowTime : Z)
| ActCleanup (id : Z)
| ActDestroy.

Definition initial_sys : Sys :=
  {| statics := BasicThread.initial_statics; pool := make; workers := ∅ |}.

Definition with_worker (s : Sys) (id : Z) (r : t * Worker * list Event)
  : Sys * list Event :=
  let '(p, w, tr) := r in
  ({| statics := statics s; pool := p; workers := <[id := w]> (workers s) |}, tr).

(** One scheduled action; [None] when the action is not enabled (the
    worker is not at that point of its code) or the code's behaviour is
    undefined there.  A submit whose queue is full sees its deadline at
    once. *)
Definition exec (s : Sys) (a : Action) : option (Sys * list Event) :=
  match a with
  | ActStart n =>
      '(g, p, tr) ← start (statics s) (pool s) n;
      Some ({| statics := g; pool := p; workers := adopt (threads_ p) (workers s) |}, tr)
  | ActSubmit task =>
      match submitTask (statics s) (pool s) [] task with
      | (Undefined, _, _, _) => None
      | (_, g, p, tr) =>
          Some ({| statics := g; pool := p; workers := adopt (threads_ p) (workers s) |}, tr)
      end
  | ActBegin id nowTime =>
      w ← workers s !! id;
      match position w with
      | NotStarted => with_worker s id <$> begin (pool s) nowTime
      | _ => None
      end
  | ActWake id timeout nowTime =>
      w ← workers s !! id;
      match position w with
      | Blocked => with_worker s id <$> wake (pool s) (locals w) timeout nowTime
      | _ => None
      end
  | ActFinish id nowTime =>
      w ← workers s !! id;
      match position w with
      | Executing task => with_worker s id <$> finish (pool s) (locals w) task nowTime
      | _ => None
      end
  | ActCleanup id =>
      w ← workers s !! id;
      match position w with
      | Leaving => Some (with_worker s id (cleanup (pool s) (locals w) id))
      | _ => None
      end
  | ActDestroy =>
      Some ({| statics := statics s; pool := begin_destroy (pool s);
               workers := workers s |},
            [EvNotifyAll notEmpty])
  end.

Fixpoint exec_all (s : Sys) (acts : list Action) : option Sys :=
  match acts with
  | [] => Some s
  | a :: acts' => '(s', _) ← exec s a; exec_all s' acts'
  end.

(** A worker self-terminates when it leaves its loop while the engine is
    still running. *)
Definition self_terminating (s : Sys) (id : Z) : Prop :=
  state_ (pool s) = STATE_RUNNING ∧
  ∃ w, workers s !! id = Some w ∧ position w = Leaving.

(** A schedule.  [start(4)]; the four workers enter their loop at time 0
    and block on the empty queue.  Five short tasks are submitted in a
    burst; the fifth submit finds five tasks pending for four idle workers
    and starts a fifth worker (id 4).  Worker 2 is the first to get the
    mutex back and runs the five tasks back to back, a microsecond each.
    Workers 0, 1 and 3, notified as well, find the queue empty and block
    again; worker 4 enters its loop and blocks.  The polls of worker 0 time
    out every second; the one at second 30 is shown (30 whole seconds idle
    is not more than 30). *)
Definition busy_then_idle : list Action :=
  [ActStart 4;
   ActBegin 0 0; ActBegin 1 0; ActBegin 2 0; ActBegin 3 0;
   ActSubmit 1%nat; ActSubmit 2%nat; ActSubmit 3%nat; ActSubmit 4%nat; ActSubmit 5%nat;
   ActWake 2 false 1000;
   ActFinish 2 2000; ActFinish 2 3000; ActFinish 2 4000; ActFinish 2 5000;
   ActFinish 2 6000;
   ActWake 0 false 7000; ActWake 1 false 7000; ActWake 3 false 7000;
   ActBegin 4 7000;
   ActWake 0 true (30 * TICKS_PER_SEC)].

(** The pool that schedule leaves. *)
Definition idle_pool : t :=
  match exec_all initial_sys busy_then_idle with
  | Some s => pool s
  | None => make
  end.



(** Or the polls of workers 0 and 1, both idle since time 0, time out at
    second 31 and each worker runs the check before the other has run its
    clean-up. *)
Definition two_workers_time_out : list Action :=
  busy_then_idle ++
  [ActWake 0 true (31 * TICKS_PER_SEC); ActWake 1 true (31 * TICKS_PER_SEC);
   ActCleanup 0; ActCleanup 1].

(** *** What the counters count *)

Definition is_alive (w : Worker) : bool :=
  match position w with Exited => false | _ => true end.

Definition is_executing (w : Worker) : bool :=
  match position w with Executing _ => true | _ => false end.

(** [idleThreadCount_] counts a worker from its creation until it takes a
    task, and again from the task's return until its clean-up. *)
Definition is_idle (w : Worker) : bool :=
  match position w with Executing _ | Exited => false | _ => true end.

Definition number (f : Worker → bool) (ws : gmap Z Worker) : nat :=
  size (filter (λ kv : Z * Worker, f kv.2 = true) ws).

(** The counters tell the truth: the table holds the workers that have
    not run their clean-up, [curThreadCount_] is their number and within
    the limit, [idleThreadCount_] is the number of those that are not
    executing a task, and [taskCount_] is the length of the queue, within
    the capacity. *)
Definition coherent (s : Sys) : Prop :=
  (∀ id w, workers s !! id = Some w → (id < BasicThread.threadIdBase (statics s))%Z) ∧
  (∀ id, is_Some (threads_ (pool s) !! id) ↔
         ∃ w, workers s !! id = Some w ∧ is_alive w = true) ∧
  curThreadCount_ (pool s) = N.of_nat (size (threads_ (pool s))) ∧
  curThreadCount_ (pool s) = N.of_nat (number is_alive (workers s)) ∧
  idleThreadCount_ (pool s) = N.of_nat (number is_idle (workers s)) ∧
  taskCount_ (pool s) = N.of_nat (length (taskQueue_ (pool s))) ∧
  (curThreadCount_ (pool s) ≤ maxThreadCount_ (pool s))%N ∧
  (maxThreadCount_ (pool s) < Util.SIZE_MOD)%N ∧
  (taskCount_ (pool s) ≤ taskMaxCount_ (pool s))%N ∧
  (taskMaxCount_ (pool s) < Util.SIZE_MOD)%N.

(** Actions other than a further [start]. *)
Definition no_restart (a : Action) : Prop :=
  match a with ActStart _ => False | _ => True end.

(** What one step of a worker does to the pool: nothing, unless it goes on
    to execute a task, which it has taken from the front of the queue. *)
Definition moved (p : t) (r : t * Worker * list Event) : Prop :=
  state_ r.1.1 = state_ p ∧
  maxThreadCount_ r.1.1 = maxThreadCount_ p ∧
  taskMaxCount_ r.1.1 = taskMaxCount_ p ∧
  threads_ r.1.1 = threads_ p ∧
  curThreadCount_ r.1.1 = curThreadCount_ p ∧
  match position r.1.2 with
  | Executing task =>
      taskQueue_ p = task :: taskQueue_ r.1.1 ∧
      taskCount_ r.1.1 = Util.size_decr (taskCount_ p) ∧
      idleThreadCount_ r.1.1 = Util.size_decr (idleThreadCount_ p)
  | Blocked | Leaving =>
      taskQueue_ r.1.1 = taskQueue_ p ∧
      taskCount_ r.1.1 = taskCount_ p ∧
      idleThreadCount_ r.1.1 = idleThreadCount_ p
  | NotStarted | Exited => False
  end.


End CachedPool.

(** ** The older single-class [ThreadPool] kept in the repository

    Only its constants and its constructor are needed here. *)

Module LegacyThreadPool.
Import BasePool.

Definition DEFAULT_TASK_MAX_COUNT : N := 1024.
Definition DEFAULT_THREAD_MAX_COUNT : N := 20.
Definition DEFAULT_MAX_IDLE_SEC : N := 60.

Inductive PoolMode := MODE_FIXED | MODE_CACHED.

Record t := {
  poolMode_ : PoolMode;
  initThreadCount_ : N;
  maxThreadCount_ : N;
  threadMaxIdleSec_ : N;
  idleThreadCount_ : N;
  curThreadCount_ : N;
  taskCount_ : N;
  taskMaxCount_ : N;
  state_ : PoolState
}.

Definition make : t :=
  {| poolMode_ := MODE_FIXED;
     initThreadCount_ := 4;
     maxThreadCount_ := DEFAULT_THREAD_MAX_COUNT;
     threadMaxIdleSec_ := DEFAULT_MAX_IDLE_SEC;
     idleThreadCount_ := 0; curThreadCount_ := 0; taskCount_ := 0;
     taskMaxCount_ := DEFAULT_TASK_MAX_COUNT;
     state_ := STATE_INIT |}.

End LegacyThreadPool.

(** ** threadpool.h: the facade *)

Module ThreadPool.
Import BasePool.

Inductive PoolMode := MODE_FIXED | MODE_CACHED | MODE_ACTIVE.

(** [std::unique_ptr<BasePool> pool_] after the constructor's [switch]. *)
Inductive Engine :=
| Fixed (p : FixedPool.t)
| Cached (p : CachedPool.t)
| Active (p : ActivePool.t).

(** The static data members the engines share. *)
Record Statics := {
  thread_statics : BasicThread.Statics;
  dq_statics : ThreadWithDQ.Statics
}.

Definition initial_statics : Statics :=
  {| thread_statics := BasicThread.initial_statics;
     dq_statics := ThreadWithDQ.initial_statics |}.

Definition make (mode : PoolMode) : Engine :=
  match mode with
  | MODE_FIXED => Fixed FixedPool.make
  | MODE_CACHED => Cached CachedPool.make
  | MODE_ACTIVE => Active ActivePool.make
  end.

Definition mode_of (e : Engine) : PoolMode :=
  match e with
  | Fixed _ => MODE_FIXED
  | Cached _ => MODE_CACHED
  | Active _ => MODE_ACTIVE
  end.

Definition init_workers (e : Engine) : N :=
  match e with
  | Fixed p => FixedPool.initThreadCount_ p
  | Cached p => CachedPool.initThreadCount_ p
  | Active p => ActivePool.initThreadCount_ p
  end.

Definition state_of (e : Engine) : PoolState :=
  match e with
  | Fixed p => FixedPool.state_ p
  | Cached p => CachedPool.state_ p
  | Active p => ActivePool.state_ p
  end.

(** Virtual dispatch of the three setters; a class that does not override
    one inherits [BasePool]'s, which only prints. *)
Definition setTaskMaxCount (g : Statics) (e : Engine) (maxCount : N)
  : Statics * Engine * list Event :=
  match e with
  | Fixed p => let '(p', tr) := FixedPool.setTaskMaxCount p maxCount in (g, Fixed p', tr)
  | Cached p => let '(p', tr) := CachedPool.setTaskMaxCount p maxCount in (g, Cached p', tr)
  | Active p =>
      let '(d, p', tr) := ActivePool.setTaskMaxCount (dq_statics g) p maxCount in
      ({| thread_statics := thread_statics g; dq_statics := d |}, Active p', tr)
  end.

Definition setThreadMaxCount (e : Engine) (maxCount : N) : Engine * list Event :=
  match e with
  | Cached p => let '(p', tr) := CachedPool.setThreadMaxCount p maxCount in (Cached p', tr)
  | _ => (e, [EvCerr (unsupported "setThreadMaxCount")])
  end.

Definition setThreadIdleTimeout (e : Engine) (timeout : N) : Engine * list Event :=
  match e with
  | Cached p => let '(p', tr) := CachedPool.setThreadIdleTimeout p timeout in (Cached p', tr)
  | _ => (e, [EvCerr (unsupported "setThreadIdleTimeout")])
  end.

Definition with_threads (g : Statics) (b : BasicThread.Statics) : Statics :=
  {| thread_statics := b; dq_statics := dq_statics g |}.

Definition start (g : Statics) (e : Engine) (initThreadCount : Z)
  : option (Statics * Engine * list Event) :=
  match e with
  | Fixed p =>
      '(b, p', tr) ← FixedPool.start (thread_statics g) p initThreadCount;
      Some (with_threads g b, Fixed p', tr)
  | Cached p =>
      '(b, p', tr) ← CachedPool.start (thread_statics g) p initThreadCount;
      Some (with_threads g b, Cached p', tr)
  | Active p =>
      '(b, p', tr) ← ActivePool.start (thread_statics g) p initThreadCount;
      Some (with_threads g b, Active p', tr)
  end.

(** What the other threads do while a submitter is blocked or asleep. *)
Record Interference := {
  fixed_wakes : list (WakeUp FixedPool.t);
  cached_wakes : list (WakeUp CachedPool.t);
  active_sleep : ActivePool.t → ActivePool.t
}.

Definition quiet : Interference :=
  {| fixed_wakes := []; cached_wakes := []; active_sleep := λ p, p |}.

(** [pool_->submitTask(std::move(taskWrapper))] *)
Definition engine_submit (g : Statics) (e : Engine) (env : Interference) (task : Task)
  : Outcome * Statics * Engine * list Event :=
  match e with
  | Fixed p =>
      let '(o, p', tr) := FixedPool.submitTask p (fixed_wakes env) task in
      (o, g, Fixed p', tr)
  | Cached p =>
      let '(o, b, p', tr) :=
        CachedPool.submitTask (thread_statics g) p (cached_wakes env) task in
      (o, with_threads g b, Cached p', tr)
  | Active p =>
      let '(o, p', tr) :=
        ActivePool.submitTask (dq_statics g) p (active_sleep env) task in
      (o, g, Active p', tr)
  end.

(** The two error kinds a submitter can meet, by the C string thrown. *)
Inductive ErrorKind := NotRunning | QueueFull.

Definition error_kind (msg : string) : option ErrorKind :=
  if bool_decide (msg = "PoolNotRunning"%string) then Some NotRunning
  else if bool_decide (msg = "TaskQueueOverflow"%string) then Some QueueFull
  else None.

(** The [std::future<RType>] handed back: the future of the packaged task
    that was queued, or that of an [emptyTask] already run, which holds
    [RType()]. *)
Inductive Future (RType : Type) :=
| FutureOf (task : Task)
| Fulfilled (value : RType).
Arguments FutureOf {RType}.
Arguments Fulfilled {RType}.

Class DefaultConstructible (RType : Type) := default_value : RType.

#[global] Instance int_default : DefaultConstructible Z := 0%Z.
#[global] Instance string_default : DefaultConstructible string := EmptyString.

(** The facade's [submitTask]: the [catch (char const* s)] prints the two
    known messages and answers every thrown string with the fulfilled
    default future.  [None] is undefined behaviour inside the engine. *)
Definition submitTask {RType : Type} `{DefaultConstructible RType}
    (g : Statics) (e : Engine) (env : Interference) (task : Task)
  : option (Future RType * Statics * Engine * list Event) :=
  match engine_submit g e env task with
  | (Returned, g', e', tr) => Some (FutureOf task, g', e', tr)
  | (Threw s, g', e', tr) =>
      let diag :=
        match error_kind s with
        | Some _ => [EvCerr (String.append "submitTask: " s)]
        | None => []
        end in
      Some (Fulfilled default_value, g', e', tr ++ diag)
  | (Undefined, _, _, _) => None
  end.

(** The bound a submit compares the queue length (FIXED, CACHED) or the
    least public load (ACTIVE) against. *)
Definition capacity (g : Statics) (e : Engine) : N :=
  match e with
  | Fixed p => FixedPool.taskMaxCount_ p
  | Cached p => CachedPool.taskMaxCount_ p
  | Active _ => ThreadWithDQ.getTaskMaxCount (dq_statics g)
  end.

End ThreadPool.

(** ** util.h: [spinlock] and [spinlock_guard] *)

Module SpinLock.

(** [std::atomic_flag::test_and_set]: the previous value, and the flag
    set, in one atomic step. *)
Definition test_and_set (flag : bool) : bool * bool := (flag, true).

Definition clear (flag : bool) : bool := false.

(** [try_lock]: [return !flag.test_and_set();] *)
Definition try_lock (flag : bool) : bool * bool :=
  let '(old, flag') := test_and_set flag in (negb old, flag').

(** [unlock]: [flag.clear();] *)
Definition unlock (flag : bool) : bool := clear flag.

(** [lock]: [while (flag.test_and_set()) ;].  Between two attempts the
    other threads act on the flag ([others], one entry per failed
    attempt).  [None]: still spinning when the entries are used up. *)
Fixpoint lock (flag : bool) (others : list (bool → bool)) : option bool :=
  let '(old, flag') := test_and_set flag in
  if old then
    match others with
    | [] => None
    | f :: others' => lock (f flag') others'
    end
  else Some flag'.

(** Threads that run, again and again, a critical section under a
    [spinlock_guard] on one lock: outside the section, inside the
    constructor's [lock()] after a failed attempt, or inside the section. *)
Inductive Where := Outside | Spinning | Inside.

#[global] Instance Where_eq_dec : EqDecision Where.
Proof. solve_decision. Defined.

Record World := { flag : bool; places : list Where }.

(** One atomic step of thread [i]: an attempt of the constructor's
    [lock()], or, inside the section, the destructor's [unlock()]. *)
Definition step (w : World) (i : nat) : World :=
  match places w !! i with
  | Some Inside =>
      {| flag := unlock (flag w); places := <[i := Outside]> (places w) |}
  | Some _ =>
      let '(old, flag') := test_and_set (flag w) in
      {| flag := flag';
         places := <[i := if old then Spinning else Inside]> (places w) |}
  | None => w
  end.

Definition run (w : World) (schedule : list nat) : World := foldl step w schedule.

(** A fresh [spinlock] ([ATOMIC_FLAG_INIT]) and [n] threads outside. *)
Definition initial (n : nat) : World :=
  {| flag := false; places := replicate n Outside |}.

(** The flag is set exactly while one thread is inside, and no two threads
    are inside. *)
Definition exclusive (w : World) : Prop :=
  (flag w = false → ∀ i, places w !! i ≠ Some Inside) ∧
  (flag w = true →
     ∃ i, places w !! i = Some Inside ∧
          ∀ j, places w !! j = Some Inside → j = i).

End SpinLock.

(** * Theorems *)

(** ** Machine integers *)

Lemma wrap64_small (n : N) : (n < Util.SIZE_MOD)%N → Util.wrap64 n = n.
Proof. intros H. unfold Util.wrap64. apply N.mod_small, H. Qed.

Lemma size_incr_small (n : N) : (n + 1 < Util.SIZE_MOD)%N → Util.size_incr n = (n + 1)%N.
Proof. intros H. unfold Util.size_incr. apply wrap64_small, H. Qed.

Lemma size_decr_pos (n : N) :
  (0 < n)%N → (n < Util.SIZE_MOD)%N → Util.size_decr n = (n - 1)%N.
Proof.
  intros Hpos Hlt. unfold Util.size_decr, Util.wrap64.
  replace (n + (Util.SIZE_MOD - 1))%N with ((n - 1) + 1 * Util.SIZE_MOD)%N.
  - rewrite N.Div0.mod_add. apply N.mod_small. lia.
  - unfold Util.SIZE_MOD in *. lia.
Qed.

Lemma size_of_int_nonneg (i : Z) :
  (0 ≤ i)%Z → (i ≤ Util.INT_MAX)%Z → Util.size_of_int i = Z.to_N i.
Proof.
  intros H0 H1. unfold Util.size_of_int. f_equal.
  apply Z.mod_small. unfold Util.INT_MAX in H1. lia.
Qed.

Lemma int_of_size_fits (n : N) :
  (Z.of_N n ≤ Util.INT_MAX)%Z → Util.int_of_size n = Z.of_N n.
Proof.
  intros H. unfold Util.int_of_size, Util.INT_MAX in *.
  rewrite Z.mod_small by lia.
  destruct (Z.ltb_spec (Z.of_N n) (2 ^ 31)); lia.
Qed.

(** ** The double-buffered queue of a worker *)

Section DoubleBuffer.
Import ThreadWithDQ.

Lemma drain_all (q : list Task) :
  drain q = ([], EvRun <$> q).
Proof.
  induction q as [|task q IH]; [done|].
  cbn [drain]. rewrite IH. by rewrite fmap_cons.
Qed.

Lemma executed_app (tr1 tr2 : list Event) :
  executed (tr1 ++ tr2) = (executed tr1 + executed tr2)%N.
Proof.
  induction tr1 as [|e tr1 IH]; simpl; [done|].
  destruct e; rewrite ?IH; lia.
Qed.

Lemma executed_runs (q : list Task) : executed (EvRun <$> q) = N.of_nat (length q).
Proof.
  induction q as [|task q IH]; [done|].
  rewrite fmap_cons. cbn [executed length]. rewrite IH. lia.
Qed.

Lemma deref_store_same (w : t) (r : QueueRef) (q : list Task) :
  deref (store w r q) r = q.
Proof. by destruct r. Qed.

Lemma deref_store_other (w : t) (r r' : QueueRef) (q : list Task) :
  r ≠ r' → deref (store w r q) r' = deref w r'.
Proof. by destruct r, r'. Qed.

Lemma store_fields (w : t) (r : QueueRef) (q : list Task) :
  publicTaskCount_ (store w r q) = publicTaskCount_ w ∧
  privateTaskCount_ (store w r q) = privateTaskCount_ w ∧
  publicQ_ (store w r q) = publicQ_ w ∧
  privateQ_ (store w r q) = privateQ_ w ∧
  threadId_ (store w r q) = threadId_ w.
Proof. by destruct r. Qed.

Lemma deref_set_counts (w : t) (a b : N) (r : QueueRef) :
  deref (set_counts w a b) r = deref w r.
Proof. by destruct r. Qed.

(** What [giveTask] does to a consistent worker whose public counter is
    not at [SIZE_MAX]. *)
Lemma giveTask_consistent (w : t) (task : Task) :
  consistent w → (publicTaskCount_ w + 1 < Util.SIZE_MOD)%N →
  consistent (giveTask w task).1 ∧
  load (giveTask w task).1 = (load w + 1)%N ∧
  executed (giveTask w task).2 = 0%N.
Proof.
  intros [Hne Hpub Hpri] Hroom. unfold giveTask, load. cbn [fst snd].
  destruct (store_fields w (publicQ_ w) (deref w (publicQ_ w) ++ [task]))
    as (Ea & Eb & Ec & Ed & _).
  rewrite Ea, Eb, size_incr_small by done.
  split; [|split]; [|simpl; lia|done].
  split; cbn [set_counts publicQ_ privateQ_ publicTaskCount_ privateTaskCount_];
    rewrite ?Ec, ?Ed, ?deref_set_counts.
  - done.
  - rewrite deref_store_same, length_app, Hpub. simpl. lia.
  - by rewrite deref_store_other.
Qed.

Lemma swapQ_consistent (w : t) :
  consistent w →
  consistent (swapQ w).1 ∧ load (swapQ w).1 = load w ∧ executed (swapQ w).2 = 0%N.
Proof.
  intros [Hne Hpub Hpri]. unfold swapQ, load. simpl. split; [|split].
  - split; simpl; [congruence | done | done].
  - lia.
  - done.
Qed.

Lemma trySwapQ_consistent (w : t) :
  consistent w →
  consistent (trySwapQ w).1.2 ∧ load (trySwapQ w).1.2 = load w ∧
  executed (trySwapQ w).2 = 0%N.
Proof.
  intros Hc. unfold trySwapQ.
  destruct (privateTaskCount_ w =? 0)%N; [|done].
  destruct (publicTaskCount_ w =? 0)%N; cbn [negb]; [done|].
  exact (swapQ_consistent w Hc).
Qed.

Lemma consumeTasks_consistent (w : t) :
  consistent w →
  consistent (consumeTasks w).1 ∧
  (load (consumeTasks w).1 + executed (consumeTasks w).2 = load w)%N ∧
  executed (consumeTasks w).2 = privateTaskCount_ w.
Proof.
  intros [Hne Hpub Hpri]. unfold consumeTasks. rewrite drain_all.
  cbn [fst snd]. rewrite !executed_app, executed_runs.
  destruct (store_fields w (privateQ_ w) []) as (Ea & Eb & Ec & Ed & _).
  unfold load. cbn [executed set_counts publicTaskCount_ privateTaskCount_].
  rewrite Ea. split; [|split]; [|lia|lia].
  split; cbn [set_counts publicQ_ privateQ_ publicTaskCount_ privateTaskCount_];
    rewrite ?Ea, ?Ec, ?Ed, ?deref_set_counts.
  - done.
  - by rewrite deref_store_other.
  - by rewrite deref_store_same.
Qed.

End DoubleBuffer.

Section DoubleBufferRuns.
Import ThreadWithDQ.

Lemma make_consistent (id : Z) : consistent (make id) ∧ load (make id) = 0%N.
Proof. split; [by split|done]. Qed.

Lemma step_consistent (w : t) (o : Op) :
  consistent w → (load w + given [o] < Util.SIZE_MOD)%N →
  consistent (step w o).1 ∧
  (load (step w o).1 + executed (step w o).2 = load w + given [o])%N.
Proof.
  intros Hc Hroom. destruct o as [task| |]; cbn [step given] in *.
  - destruct (giveTask_consistent w task Hc) as (H1 & H2 & H3).
    { unfold load in Hroom. lia. }
    split; [done|]. rewrite H2, H3. lia.
  - destruct (trySwapQ_consistent w Hc) as (H1 & H2 & H3).
    destruct (trySwapQ w) as [[ret w'] tr]. cbn [fst snd] in *.
    split; [done|]. rewrite H2, H3. lia.
  - destruct (consumeTasks_consistent w Hc) as (H1 & H2 & H3).
    split; [done|]. lia.
Qed.

Lemma given_cons (o : Op) (ops : list Op) : given (o :: ops) = (given [o] + given ops)%N.
Proof. destruct o; cbn [given]; lia. Qed.

Lemma run_consistent (ops : list Op) (w : t) :
  consistent w → (load w + given ops < Util.SIZE_MOD)%N →
  consistent (run w ops).1 ∧
  (load (run w ops).1 + executed (run w ops).2 = load w + given ops)%N.
Proof.
  revert w. induction ops as [|o ops IH]; intros w Hc Hroom.
  - cbn [run given fst snd executed]. split; [done|lia].
  - rewrite given_cons in Hroom. cbn [run].
    destruct (step_consistent w o Hc) as [Hc1 Hsum1]; [lia|].
    destruct (step w o) as [w1 tr1]. cbn [fst snd] in *.
    destruct (IH w1 Hc1) as [Hc2 Hsum2]; [lia|].
    destruct (run w1 ops) as [w2 tr2]. cbn [fst snd] in *.
    split; [done|]. rewrite executed_app, given_cons. lia.
Qed.

End DoubleBufferRuns.

(** C3.  Start from a freshly constructed worker and apply any sequence of
    [giveTask], [trySwapQ] and [consumeTasks] that hands over fewer than
    [2^64] work items.  Then [publicTaskCount_ + privateTaskCount_] plus the
    number of executions recorded so far equals the number of items given,
    i.e. the sum counts the items given and not yet executed.  In the state
    reached, one more [giveTask] raises the sum by exactly one, [trySwapQ]
    (whether or not it swaps) leaves it unchanged and executes nothing, and
    [consumeTasks] lowers it by the number of items it executes, which is
    the whole private count. *)
Theorem dq_counts_given_not_executed (id : Z) (ops : list ThreadWithDQ.Op) :
  (ThreadWithDQ.given ops < Util.SIZE_MOD)%N →
  let w := (ThreadWithDQ.run (ThreadWithDQ.make id) ops).1 in
  let tr := (ThreadWithDQ.run (ThreadWithDQ.make id) ops).2 in
  (ThreadWithDQ.load w + executed tr = ThreadWithDQ.given ops)%N ∧
  (∀ task, (ThreadWithDQ.given ops + 1 < Util.SIZE_MOD)%N →
     ThreadWithDQ.load (ThreadWithDQ.giveTask w task).1 = (ThreadWithDQ.load w + 1)%N ∧
     executed (ThreadWithDQ.giveTask w task).2 = 0%N) ∧
  (ThreadWithDQ.load (ThreadWithDQ.trySwapQ w).1.2 = ThreadWithDQ.load w ∧
   executed (ThreadWithDQ.trySwapQ w).2 = 0%N) ∧
  (ThreadWithDQ.load (ThreadWithDQ.consumeTasks w).1
     = (ThreadWithDQ.load w - executed (ThreadWithDQ.consumeTasks w).2)%N ∧
   executed (ThreadWithDQ.consumeTasks w).2 = ThreadWithDQ.privateTaskCount_ w ∧
   (executed (ThreadWithDQ.consumeTasks w).2 ≤ ThreadWithDQ.load w)%N).
Proof.
  intros Hbound w tr.
  destruct (make_consistent id) as [Hc0 Hl0].
  destruct (run_consistent ops (ThreadWithDQ.make id) Hc0) as [Hc Hsum].
  { rewrite Hl0. lia. }
  fold w tr in Hc, Hsum. rewrite Hl0 in Hsum.
  split; [lia|]. split; [|split].
  - intros task Hroom.
    destruct (giveTask_consistent w task Hc) as (_ & H2 & H3); [|done].
    unfold ThreadWithDQ.load in Hsum. lia.
  - destruct (trySwapQ_consistent w Hc) as (_ & H2 & H3). done.
  - destruct (consumeTasks_consistent w Hc) as (_ & H2 & H3).
    unfold ThreadWithDQ.load in *. lia.
Qed.

(** The run give, give, swap, give, consume, give on a fresh worker. *)
Lemma dq_counts_given_not_executed_witness :
  let ops := [ThreadWithDQ.OpGive 1%nat; ThreadWithDQ.OpGive 2%nat;
              ThreadWithDQ.OpTrySwap; ThreadWithDQ.OpGive 3%nat;
              ThreadWithDQ.OpConsume; ThreadWithDQ.OpGive 4%nat] in
  (ThreadWithDQ.given ops < Util.SIZE_MOD)%N ∧
  (ThreadWithDQ.load (ThreadWithDQ.run (ThreadWithDQ.make 0) ops).1
   + executed (ThreadWithDQ.run (ThreadWithDQ.make 0) ops).2
   = ThreadWithDQ.given ops)%N.
Proof.
  split; [reflexivity|].
  apply (dq_counts_given_not_executed 0
           [ThreadWithDQ.OpGive 1%nat; ThreadWithDQ.OpGive 2%nat;
            ThreadWithDQ.OpTrySwap; ThreadWithDQ.OpGive 3%nat;
            ThreadWithDQ.OpConsume; ThreadWithDQ.OpGive 4%nat]).
  reflexivity.
Defined.

(** C5.  In every state of a worker's double buffer, [trySwapQ]
    - returns 0 (HAS_WORK), changes nothing and takes no lock when
      [privateTaskCount_ > 0];
    - returns -1 (EMPTY), changes nothing and takes no lock when both
      counters are zero;
    - otherwise returns 1 (SWAPPED) after locking [pubLock] and then
      [priLock]: the role pointers are exchanged, hence so are the queues
      they designate, the two counters are exchanged, and the queue objects
      themselves are untouched. *)
Theorem trySwapQ_outcomes (w : ThreadWithDQ.t) :
  let ret := (ThreadWithDQ.trySwapQ w).1.1 in
  let w' := (ThreadWithDQ.trySwapQ w).1.2 in
  let tr := (ThreadWithDQ.trySwapQ w).2 in
  ((0 < ThreadWithDQ.privateTaskCount_ w)%N →
     ret = 0%Z ∧ ThreadWithDQ.swap_result ret = Some ThreadWithDQ.HAS_WORK ∧
     w' = w ∧ tr = []) ∧
  (ThreadWithDQ.privateTaskCount_ w = 0%N ∧ ThreadWithDQ.publicTaskCount_ w = 0%N →
     ret = (-1)%Z ∧ ThreadWithDQ.swap_result ret = Some ThreadWithDQ.EMPTY ∧
     w' = w ∧ tr = []) ∧
  (ThreadWithDQ.privateTaskCount_ w = 0%N ∧ ThreadWithDQ.publicTaskCount_ w ≠ 0%N →
     ret = 1%Z ∧ ThreadWithDQ.swap_result ret = Some ThreadWithDQ.SWAPPED ∧
     tr = [EvLock pubLock; EvLock priLock; EvUnlock priLock; EvUnlock pubLock] ∧
     ThreadWithDQ.publicQ_ w' = ThreadWithDQ.privateQ_ w ∧
     ThreadWithDQ.privateQ_ w' = ThreadWithDQ.publicQ_ w ∧
     ThreadWithDQ.deref w' (ThreadWithDQ.publicQ_ w')
       = ThreadWithDQ.deref w (ThreadWithDQ.privateQ_ w) ∧
     ThreadWithDQ.deref w' (ThreadWithDQ.privateQ_ w')
       = ThreadWithDQ.deref w (ThreadWithDQ.publicQ_ w) ∧
     ThreadWithDQ.publicTaskCount_ w' = ThreadWithDQ.privateTaskCount_ w ∧
     ThreadWithDQ.privateTaskCount_ w' = ThreadWithDQ.publicTaskCount_ w ∧
     ThreadWithDQ.TaskQ1_ w' = ThreadWithDQ.TaskQ1_ w ∧
     ThreadWithDQ.TaskQ2_ w' = ThreadWithDQ.TaskQ2_ w ∧
     ThreadWithDQ.threadId_ w' = ThreadWithDQ.threadId_ w).
Proof.
  unfold ThreadWithDQ.trySwapQ.
  destruct (N.eqb_spec (ThreadWithDQ.privateTaskCount_ w) 0) as [Hpri|Hpri];
    destruct (N.eqb_spec (ThreadWithDQ.publicTaskCount_ w) 0) as [Hpub|Hpub];
    cbn [negb fst snd ThreadWithDQ.swapQ].
  - split; [lia|]. split; [done|]. intros [_ ?]. done.
  - split; [lia|]. split; [intros [_ ?]; done|]. intros _.
    destruct w as [i a b [] [] q1 q2]; done.
  - split; [done|]. split; intros [? _]; done.
  - split; [done|]. split; intros [? _]; done.
Qed.

(** ** ACTIVE: choosing the least loaded worker *)

Section ActiveSubmit.
Import ActivePool.

Lemma least_of_prefix_all (ths : list (option ThreadWithDQ.t)) (k : nat)
    (th : ThreadWithDQ.t) :
  least_of_prefix ths (length ths) k th → least_loaded ths k th.
Proof.
  intros (Hk & _ & Hmin & Hfirst). split; [done|]. split; [|done].
  intros j th' Hj. apply (Hmin j th'); [|done].
  by apply lookup_lt_Some in Hj.
Qed.

Lemma scan_least (ths : list (option ThreadWithDQ.t)) (cur : N) :
  Forall is_Some ths →
  Forall (λ o, ∀ th, o = Some th →
            (Z.of_N (ThreadWithDQ.getPublicTaskCount th) ≤ Util.INT_MAX)%Z) ths →
  (Z.of_nat (length ths) ≤ Util.INT_MAX)%Z →
  cur = N.of_nat (length ths) →
  ∀ (rest : list (option ThreadWithDQ.t)) (i k : nat) (th : ThreadWithDQ.t),
    drop i ths = rest → (i ≤ length ths)%nat →
    least_of_prefix ths i k th →
    ∃ k' th',
      scan rest (Z.of_nat i) cur (Z.of_nat k)
           (Z.of_N (ThreadWithDQ.getPublicTaskCount th))
        = Some (Z.of_nat k', Z.of_N (ThreadWithDQ.getPublicTaskCount th')) ∧
      least_loaded ths k' th'.
Proof.
  intros Halive Hfit Hfew ->.
  induction rest as [|o rest IH]; intros i k th Hdrop Hle Hleast.
  - assert (i = length ths) as ->.
    { apply (f_equal length) in Hdrop. rewrite length_drop in Hdrop.
      simpl in Hdrop. lia. }
    exists k, th. split; [|by apply least_of_prefix_all].
    cbn [scan]. rewrite size_of_int_nonneg by lia.
    destruct (N.ltb_spec (Z.to_N (Z.of_nat (length ths))) (N.of_nat (length ths)));
      [lia|done].
  - assert (Hi : ths !! i = Some o).
    { rewrite <- (Nat.add_0_r i), <- lookup_drop, Hdrop. done. }
    pose proof (lookup_lt_Some _ _ _ Hi) as Hlt.
    assert (Hdrop' : drop (S i) ths = rest).
    { rewrite (drop_S _ _ _ Hi) in Hdrop. congruence. }
    destruct (proj1 (Forall_lookup _ _) Halive i o Hi) as [thi ->].
    pose proof (proj1 (Forall_lookup _ _) Hfit i _ Hi thi eq_refl) as Hfiti.
    destruct Hleast as (Hk & Hki & Hmin & Hfirst).
    pose proof (proj1 (Forall_lookup _ _) Hfit k _ Hk th eq_refl) as Hfitk.
    cbn [scan]. rewrite size_of_int_nonneg by lia.
    destruct (N.ltb_spec (Z.to_N (Z.of_nat i)) (N.of_nat (length ths))); [|lia].
    destruct (Z.eqb_spec (Z.of_nat i) Util.INT_MAX); [lia|].
    rewrite size_of_int_nonneg by lia. rewrite N2Z.id.
    replace (Z.of_nat i + 1)%Z with (Z.of_nat (S i)) by lia.
    destruct (N.ltb_spec (ThreadWithDQ.getPublicTaskCount thi)
                         (ThreadWithDQ.getPublicTaskCount th)) as [Hless|Hge].
    + rewrite int_of_size_fits by done.
      apply (IH (S i) i thi); [done|lia|].
      split; [done|]. split; [lia|]. split.
      * intros j th' Hj Hj'. destruct (decide (j = i)) as [->|Hne].
        -- rewrite Hi in Hj'. injection Hj' as <-. lia.
        -- assert (j < i)%nat as Hji by lia.
           pose proof (Hmin j th' Hji Hj'). lia.
      * intros j th' Hj Hj'. assert (j < i)%nat as Hji by lia.
        pose proof (Hmin j th' Hji Hj'). lia.
    + apply (IH (S i) k th); [done|lia|].
      split; [done|]. split; [lia|]. split; [|done].
      intros j th' Hj Hj'. destruct (decide (j = i)) as [->|Hne].
      * rewrite Hi in Hj'. injection Hj' as <-. lia.
      * apply (Hmin j th'); [lia|done].
Qed.

(** [trySubmitTask] on a pool whose workers are all running. *)
Lemma trySubmitTask_least (g : ThreadWithDQ.Statics) (p : t) (task : Task) :
  workers_running p →
  ∃ k th, least_loaded (threads_ p) k th ∧
    trySubmitTask g p task =
      if (ThreadWithDQ.getPublicTaskCount th =? ThreadWithDQ.getTaskMaxCount g)%N
      then Some (false, p, [])
      else Some (true,
                 set_threads p (<[k := Some (ThreadWithDQ.giveTask th task).1]> (threads_ p)),
                 [EvLock pubLock; EvUnlock pubLock]).
Proof.
  intros [Hsome Halive Hcount Hfew Hfit].
  unfold trySubmitTask.
  destruct (threads_ p) as [|o rest] eqn:Eths; [done|].
  destruct (proj1 (Forall_lookup _ _) Halive 0%nat o eq_refl) as [th0 ->].
  pose proof (proj1 (Forall_lookup _ _) Hfit 0%nat _ eq_refl th0 eq_refl) as Hfit0.
  destruct (scan_least (Some th0 :: rest) (curThreadCount_ p) Halive Hfit Hfew Hcount
              rest 1%nat 0%nat th0) as (k & th & Hscan & Hleast).
  - done.
  - simpl. lia.
  - split; [done|]. split; [lia|]. split; [|intros; lia].
    intros j th' Hj Hj'. destruct j; [|lia]. injection Hj' as <-. lia.
  - exists k, th. split; [done|].
    rewrite int_of_size_fits by done.
    change (Z.of_nat 1) with 1%Z in Hscan. change (Z.of_nat 0) with 0%Z in Hscan.
    rewrite Hscan. cbn [mbind option_bind].
    destruct Hleast as (Hk & _).
    pose proof (proj1 (Forall_lookup _ _) Hfit k _ Hk th eq_refl) as Hfitk.
    rewrite size_of_int_nonneg by lia. rewrite N2Z.id, Nat2Z.id.
    destruct (_ =? _)%N; [done|]. by rewrite Hk.
Qed.

(** What the give does to the pool, by its fields. *)
Lemma giveTask_given (p : t) (k : nat) (th : ThreadWithDQ.t) (task : Task) :
  threads_ p !! k = Some (Some th) →
  (Z.of_N (ThreadWithDQ.getPublicTaskCount th) ≤ Util.INT_MAX)%Z →
  given_to p k task
    (set_threads p (<[k := Some (ThreadWithDQ.giveTask th task).1]> (threads_ p))).
Proof.
  intros Hk Hfit. pose proof (lookup_lt_Some _ _ _ Hk) as Hlt.
  unfold given_to. cbn [set_threads state_ initThreadCount_ curThreadCount_ threads_].
  split; [done|]. split; [done|]. split; [done|].
  split; [by rewrite length_insert|].
  split; [intros j Hj; by rewrite list_lookup_insert_ne|].
  exists th, (ThreadWithDQ.giveTask th task).1.
  split; [done|]. split; [by rewrite list_lookup_insert_eq|].
  unfold ThreadWithDQ.giveTask. cbn [fst].
  set (q := ThreadWithDQ.deref th (ThreadWithDQ.publicQ_ th) ++ [task]).
  destruct (store_fields th (ThreadWithDQ.publicQ_ th) q) as (Ea & Eb & Ec & Ed & Ee).
  cbn [ThreadWithDQ.set_counts ThreadWithDQ.threadId_ ThreadWithDQ.publicQ_
       ThreadWithDQ.privateQ_ ThreadWithDQ.publicTaskCount_
       ThreadWithDQ.privateTaskCount_].
  split; [done|]. split; [done|]. split; [done|].
  split; [by rewrite deref_set_counts, deref_store_same|].
  split; [intros r Hr; by rewrite deref_set_counts, deref_store_other|].
  split; [|done].
  rewrite Ea. apply size_incr_small.
  unfold ThreadWithDQ.getPublicTaskCount, Util.INT_MAX in Hfit.
  unfold Util.SIZE_MOD. lia.
Qed.

End ActiveSubmit.

(** C4.  ACTIVE [submitTask] on a pool whose workers are all running
    (before the sleep and after it).  The task goes to the worker with the
    least [getPublicTaskCount], the lowest index winning ties: in the pool
    returned, that worker's public queue has the task at its back and its
    public counter is one higher, and nothing else has changed; and
    [notEmpty_] is then notified.  When that least load equals the
    per-worker cap nothing is given: the submitter sleeps one second, once,
    and scans the pool as the workers left it; either the least load now
    differs from the cap and the task is given, in the same way, to the
    worker that is now the least loaded, with the notification, or it
    still equals the cap and the call throws "TaskQueueOverflow", which
    the facade reports as QueueFull, the pool being as the workers left
    it. *)
Theorem active_submit_least_loaded (g : ThreadWithDQ.Statics) (p : ActivePool.t)
    (during_sleep : ActivePool.t → ActivePool.t) (task : Task) :
  ActivePool.workers_running p →
  ActivePool.workers_running (during_sleep p) →
  ∃ k th, ActivePool.least_loaded (ActivePool.threads_ p) k th ∧
    (ThreadWithDQ.getPublicTaskCount th ≠ ThreadWithDQ.getTaskMaxCount g →
       ∃ p',
         ActivePool.submitTask g p during_sleep task =
           (Returned, p', [EvLock pubLock; EvUnlock pubLock; EvNotifyAll notEmpty]) ∧
         ActivePool.given_to p k task p') ∧
    (ThreadWithDQ.getPublicTaskCount th = ThreadWithDQ.getTaskMaxCount g →
       ∃ k2 th2,
         ActivePool.least_loaded (ActivePool.threads_ (during_sleep p)) k2 th2 ∧
         (ThreadWithDQ.getPublicTaskCount th2 ≠ ThreadWithDQ.getTaskMaxCount g →
            ∃ p',
              ActivePool.submitTask g p during_sleep task =
                (Returned, p',
                 [EvSleep 1; EvCerr ActivePool.busy_message;
                  EvLock pubLock; EvUnlock pubLock; EvNotifyAll notEmpty]) ∧
              ActivePool.given_to (during_sleep p) k2 task p') ∧
         (ThreadWithDQ.getPublicTaskCount th2 = ThreadWithDQ.getTaskMaxCount g →
            ActivePool.submitTask g p during_sleep task =
              (Threw "TaskQueueOverflow", during_sleep p,
               [EvSleep 1; EvCerr ActivePool.busy_message]) ∧
            ThreadPool.error_kind "TaskQueueOverflow" = Some ThreadPool.QueueFull)).
Proof.
  intros Hrun Hrun2.
  destruct (trySubmitTask_least g p task Hrun) as (k & th & Hleast & Htry).
  exists k, th. split; [done|].
  unfold ActivePool.submitTask. rewrite Htry. split.
  - intros Hne. apply N.eqb_neq in Hne. rewrite Hne. eexists. split; [done|].
    destruct Hleast as (Hk & _). apply giveTask_given; [done|].
    exact (proj1 (Forall_lookup _ _) (ActivePool.loads_fit p Hrun) k _ Hk th eq_refl).
  - intros Heq. apply N.eqb_eq in Heq. rewrite Heq.
    destruct (trySubmitTask_least g (during_sleep p) task Hrun2)
      as (k2 & th2 & Hleast2 & Htry2).
    exists k2, th2. split; [done|]. rewrite Htry2. split.
    + intros Hne. apply N.eqb_neq in Hne. rewrite Hne. eexists. split; [done|].
      destruct Hleast2 as (Hk2 & _). apply giveTask_given; [done|].
      exact (proj1 (Forall_lookup _ _) (ActivePool.loads_fit _ Hrun2) k2 _ Hk2 th2 eq_refl).
    + intros Heq2. apply N.eqb_eq in Heq2. by rewrite Heq2.
Qed.

(** Two workers, nothing given yet: both are running. *)
Lemma two_idle_workers_running : ActivePool.workers_running ActivePool.two_idle_workers.
Proof.
  split.
  - discriminate.
  - repeat constructor; eexists; reflexivity.
  - reflexivity.
  - vm_compute. discriminate.
  - repeat constructor; intros th [= <-]; vm_compute; discriminate.
Defined.

(** Three workers at the cap are running. *)
Lemma three_full_workers_running :
  ActivePool.workers_running ActivePool.three_full_workers.
Proof.
  split.
  - discriminate.
  - repeat constructor; eexists; reflexivity.
  - reflexivity.
  - vm_compute. discriminate.
  - repeat constructor; intros th [= <-]; unfold Util.INT_MAX; cbn; lia.
Defined.

(** The pool after workers 1 and 2 have swapped their queues. *)
Lemma two_workers_swap_threads :
  ActivePool.threads_ (ActivePool.two_workers_swap ActivePool.three_full_workers)
  = [Some (ActivePool.full_worker 0); Some (ActivePool.swapped_worker 1);
     Some (ActivePool.swapped_worker 2)].
Proof. reflexivity. Defined.

Lemma three_workers_swapped_running :
  ActivePool.workers_running
    (ActivePool.two_workers_swap ActivePool.three_full_workers).
Proof.
  split; rewrite ?two_workers_swap_threads.
  - discriminate.
  - repeat constructor; eexists; reflexivity.
  - reflexivity.
  - vm_compute. discriminate.
  - repeat constructor; intros th [= <-]; unfold Util.INT_MAX; cbn; lia.
Defined.

(** Three workers, every public queue at the cap of 500001.  During the
    sleep workers 1 and 2 swap their queues; the retry finds the public
    loads 500001, 0 and 0 and gives the task to worker 1, the lower of the
    two least loaded. *)
Lemma active_submit_least_loaded_witness :
  ActivePool.workers_running ActivePool.three_full_workers ∧
  ActivePool.workers_running
    (ActivePool.two_workers_swap ActivePool.three_full_workers) ∧
  ∃ p',
    ActivePool.submitTask ThreadWithDQ.initial_statics ActivePool.three_full_workers
      ActivePool.two_workers_swap 7%nat
    = (Returned, p',
       [EvSleep 1; EvCerr ActivePool.busy_message;
        EvLock pubLock; EvUnlock pubLock; EvNotifyAll notEmpty]) ∧
    ActivePool.given_to
      (ActivePool.two_workers_swap ActivePool.three_full_workers) 1 7%nat p'.
Proof.
  split; [exact three_full_workers_running|].
  split; [exact three_workers_swapped_running|].
  destruct (active_submit_least_loaded ThreadWithDQ.initial_statics
              ActivePool.three_full_workers ActivePool.two_workers_swap 7%nat
              three_full_workers_running three_workers_swapped_running)
    as (k & th & (Hk & _) & _ & Hretry).
  assert (Hfull : ThreadWithDQ.getPublicTaskCount th
                  = ThreadWithDQ.getTaskMaxCount ThreadWithDQ.initial_statics).
  { destruct k as [|[|[|k]]]; try discriminate Hk;
      injection Hk as <-; reflexivity. }
  destruct (Hretry Hfull) as (k2 & th2 & (Hk2 & Hmin & Hfirst) & Hgive & _).
  rewrite two_workers_swap_threads in Hk2, Hmin, Hfirst.
  assert (Hone : k2 = 1%nat ∧ th2 = ActivePool.swapped_worker 1).
  { destruct k2 as [|[|[|k2]]]; try discriminate Hk2; injection Hk2 as <-.
    - pose proof (Hmin 1%nat (ActivePool.swapped_worker 1) eq_refl) as H.
      vm_compute in H. exfalso. apply H. reflexivity.
    - split; reflexivity.
    - pose proof (Hfirst 1%nat (ActivePool.swapped_worker 1)
                    ltac:(repeat constructor) eq_refl) as H.
      vm_compute in H. discriminate H. }
  destruct Hone as [-> ->].
  apply Hgive. vm_compute. discriminate.
Defined.

(** Public loads 3, 1 and 1: the task goes to worker 1, the lower of the
    two least loaded, at once. *)
Example active_submit_picks_lower_of_equals :
  (λ r : Outcome * ActivePool.t * list Event,
     (r.1.1,
      fmap (M := list) (fmap (M := option) ThreadWithDQ.getPublicTaskCount)
           (ActivePool.threads_ r.1.2),
      fmap (M := list) (fmap (M := option) ThreadWithDQ.pending)
           (ActivePool.threads_ r.1.2),
      r.2))
    (ActivePool.submitTask ThreadWithDQ.initial_statics ActivePool.three_busy_workers
       (λ p, p) 7%nat)
  = (Returned, [Some 3%N; Some 2%N; Some 1%N],
     [Some [1%nat; 2%nat; 3%nat]; Some [4%nat; 7%nat]; Some [5%nat]],
     [EvLock pubLock; EvUnlock pubLock; EvNotifyAll notEmpty]).
Proof. vm_compute. reflexivity. Qed.

Example active_submit_picks_first_of_equals :
  ActivePool.submitTask ThreadWithDQ.initial_statics ActivePool.two_idle_workers (λ p, p) 7%nat =
    (Returned,
     ActivePool.set_threads ActivePool.two_idle_workers
       [Some (ThreadWithDQ.giveTask (ThreadWithDQ.make 0) 7%nat).1;
        Some (ThreadWithDQ.make 1)],
     [EvLock pubLock; EvUnlock pubLock; EvNotifyAll notEmpty]).
Proof. reflexivity. Qed.

(** ** FIXED and CACHED: the bounded wait and the enqueue *)

Section BoundedWait.
Import BasePool.
Context {S : Type} (pred : S → bool).

(** [wait_for] returns the state as left by some prefix of the wake-ups,
    and its result is the predicate evaluated there: the waiter itself
    changes nothing. *)
Lemma wait_for_disturbed (wakes : list (WakeUp S)) (s : S) :
  ∃ n, (n ≤ length wakes)%nat ∧
       wait_for pred wakes s = (pred (disturbed wakes n s), disturbed wakes n s).
Proof.
  revert s. induction wakes as [|w wakes IH]; intros s.
  - exists 0%nat. split; [done|]. cbn [wait_for].
    unfold disturbed. cbn [take foldl]. by destruct (pred s) eqn:E.
  - cbn [wait_for]. destruct (pred s) eqn:E.
    + exists 0%nat. split; [simpl; lia|]. unfold disturbed. cbn [take foldl].
      by rewrite E.
    + destruct (deadline w).
      * exists 1%nat. split; [simpl; lia|]. unfold disturbed.
        cbn [take foldl]. by rewrite take_0.
      * destruct (IH (interfere w s)) as (n & Hn & Hw).
        exists (Datatypes.S n). split; [simpl; lia|]. rewrite Hw. done.
Qed.

Lemma wait_for_quiet (s : S) : wait_for pred [] s = (pred s, s).
Proof. cbn [wait_for]. by destruct (pred s). Qed.

(** [wait_for] goes through the wake-ups until the predicate holds or the
    deadline comes, whichever is first, and answers with the predicate
    there; the waiter itself changes nothing. *)
Lemma wait_for_ends (wakes : list (WakeUp S)) (s : S) :
  ∃ n, ends_after pred wakes s n ∧
       wait_for pred wakes s = (pred (disturbed wakes n s), disturbed wakes n s).
Proof.
  revert s. induction wakes as [|w wakes IH]; intros s.
  - exists 0%nat. split.
    + split; [done|]. split; [intros m Hm; lia|]. split; [intros m w Hm; lia|].
      right. left. done.
    + cbn [wait_for]. unfold disturbed. cbn [take foldl]. by destruct (pred s).
  - cbn [wait_for]. destruct (pred s) eqn:E.
    + exists 0%nat. split.
      * split; [cbn [length]; lia|]. split; [intros m Hm; lia|].
        split; [intros m w' Hm; lia|]. left. done.
      * unfold disturbed. cbn [take foldl]. by rewrite E.
    + destruct (deadline w) eqn:Ed.
      * exists 1%nat. split.
        -- split; [cbn [length]; lia|]. split.
           { intros m Hm. assert (m = 0%nat) as -> by lia. done. }
           split; [intros m w' Hm; lia|].
           right. right. exists 0%nat, w. done.
        -- unfold disturbed. cbn [take foldl]. by rewrite take_0.
      * destruct (IH (interfere w s)) as (n & (Hn & Hno & Hdl & Hwhy) & Hw).
        exists (Datatypes.S n). split; [|by rewrite Hw].
        split; [cbn [length]; lia|]. split.
        { intros [|m] Hm; [done|]. apply (Hno m). lia. }
        split.
        { intros [|m] w' Hm Hw'.
          - injection Hw' as <-. done.
          - apply (Hdl m w'); [lia|done]. }
        destruct Hwhy as [Hp|[->|(m & w' & -> & Hw' & Hd)]].
        -- left. done.
        -- right. left. done.
        -- right. right. exists (Datatypes.S m), w'. done.
Qed.

End BoundedWait.

(** C6.  FIXED and CACHED [submitTask] in [STATE_RUNNING].  The call waits
    on [notFull_] with a one-second timeout for
    [taskQueue_.size() < taskMaxCount_]: it goes through the wake-ups
    until there is room or the deadline has come, whichever is first, so
    that the pool it then sees is the submitted-to pool as the other
    threads left it at that moment.  If there is still no room the call
    throws "TaskQueueOverflow" (QueueFull) and the pool is exactly what the
    others left: nothing was enqueued.  If there is room, the task is
    appended at the back of the queue, [taskCount_] is incremented and
    [notEmpty_] is notified. *)
Theorem bounded_submit (pf : FixedPool.t) (wf : list (BasePool.WakeUp FixedPool.t))
    (g : BasicThread.Statics) (pc : CachedPool.t)
    (wc : list (BasePool.WakeUp CachedPool.t)) (task : Task) :
  FixedPool.state_ pf = BasePool.STATE_RUNNING →
  CachedPool.state_ pc = BasePool.STATE_RUNNING →
  (BasicThread.threadIdBase g < Util.INT_MAX)%Z →
  (∃ n, BasePool.ends_after FixedPool.has_room wf pf n ∧
     let p1 := BasePool.disturbed wf n pf in
     (FixedPool.has_room p1 = false →
        FixedPool.submitTask pf wf task
          = (Threw "TaskQueueOverflow", p1, [EvWaitFor notFull 1]) ∧
        ThreadPool.error_kind "TaskQueueOverflow" = Some ThreadPool.QueueFull) ∧
     (FixedPool.has_room p1 = true →
        ∃ p', FixedPool.submitTask pf wf task
                = (Returned, p', [EvWaitFor notFull 1; EvNotifyAll notEmpty]) ∧
              FixedPool.taskQueue_ p' = FixedPool.taskQueue_ p1 ++ [task] ∧
              FixedPool.taskCount_ p' = Util.size_incr (FixedPool.taskCount_ p1) ∧
              (N.of_nat (length (FixedPool.taskQueue_ p')) ≤ FixedPool.taskMaxCount_ p')%N)) ∧
  (∃ n, BasePool.ends_after CachedPool.has_room wc pc n ∧
     let p1 := BasePool.disturbed wc n pc in
     (CachedPool.has_room p1 = false →
        CachedPool.submitTask g pc wc task
          = (Threw "TaskQueueOverflow", g, p1, [EvWaitFor notFull 1])) ∧
     (CachedPool.has_room p1 = true →
        ∃ g' p' tr', CachedPool.submitTask g pc wc task
                = (Returned, g', p', [EvWaitFor notFull 1; EvNotifyAll notEmpty] ++ tr') ∧
              CachedPool.taskQueue_ p' = CachedPool.taskQueue_ p1 ++ [task] ∧
              CachedPool.taskCount_ p' = Util.size_incr (CachedPool.taskCount_ p1) ∧
              (N.of_nat (length (CachedPool.taskQueue_ p')) ≤ CachedPool.taskMaxCount_ p')%N)).
Proof.
  intros Hf Hc Hid. split.
  - destruct (wait_for_ends FixedPool.has_room wf pf) as (n & Hn & Hw).
    exists n. split; [done|]. cbn zeta.
    unfold FixedPool.submitTask. rewrite Hf, Hw.
    rewrite bool_decide_eq_true_2 by done. cbn [negb].
    split; intros Hroom; rewrite Hroom; cbn [negb]; [done|].
    eexists. split; [done|]. cbn [FixedPool.enqueue FixedPool.taskQueue_
      FixedPool.taskCount_ FixedPool.taskMaxCount_].
    split; [done|]. split; [done|].
    unfold FixedPool.has_room in Hroom. apply N.ltb_lt in Hroom.
    rewrite length_app. simpl. lia.
  - destruct (wait_for_ends CachedPool.has_room wc pc) as (n & Hn & Hw).
    exists n. split; [done|]. cbn zeta.
    unfold CachedPool.submitTask. rewrite Hc, Hw.
    rewrite bool_decide_eq_true_2 by done. cbn [negb].
    split; intros Hroom; rewrite Hroom; cbn [negb]; [done|].
    assert (Hlen : (N.of_nat (length (CachedPool.taskQueue_ (BasePool.disturbed wc n pc) ++ [task]))
                    ≤ CachedPool.taskMaxCount_ (BasePool.disturbed wc n pc))%N).
    { unfold CachedPool.has_room in Hroom. apply N.ltb_lt in Hroom.
      rewrite length_app. simpl. lia. }
    destruct (CachedPool.needs_thread _).
    + unfold CachedPool.spawn, BasicThread.Thread_new, BasicThread.new_id.
      destruct (Z.eqb_spec (BasicThread.threadIdBase g) Util.INT_MAX); [lia|].
      cbn [mbind option_bind]. eexists _, _, _. split; [done|]. done.
    + eexists _, _, []. split; [done|]. done.
Qed.

(** FIXED, capacity 2, queue [1; 2]: the submitter is woken once with the
    queue still full, then again after a worker has taken the front task,
    and its task goes to the back of the queue.  CACHED, capacity 2, queue
    [1; 2]: nobody takes a task before the deadline; the submit throws and
    the pool is as it was. *)
Lemma bounded_submit_witness :
  FixedPool.state_ FixedPool.full_pool = BasePool.STATE_RUNNING ∧
  CachedPool.state_ CachedPool.full_pool.2 = BasePool.STATE_RUNNING ∧
  (BasicThread.threadIdBase CachedPool.full_pool.1 < Util.INT_MAX)%Z ∧
  (∃ p', FixedPool.submitTask FixedPool.full_pool FixedPool.woken_twice 3%nat
           = (Returned, p', [EvWaitFor notFull 1; EvNotifyAll notEmpty]) ∧
         FixedPool.taskQueue_ p' = [2%nat; 3%nat] ∧
         FixedPool.taskCount_ p' = 2%N) ∧
  CachedPool.submitTask CachedPool.full_pool.1 CachedPool.full_pool.2
      CachedPool.nobody_takes 3%nat
    = (Threw "TaskQueueOverflow", CachedPool.full_pool.1, CachedPool.full_pool.2,
       [EvWaitFor notFull 1]) ∧
  CachedPool.taskQueue_ CachedPool.full_pool.2 = [1%nat; 2%nat].
Proof.
  split; [reflexivity|]. split; [reflexivity|]. split; [vm_compute; reflexivity|].
  destruct (bounded_submit FixedPool.full_pool FixedPool.woken_twice
              CachedPool.full_pool.1 CachedPool.full_pool.2
              CachedPool.nobody_takes 3%nat)
    as [(n & (Hn & Hno & _ & Hwhy) & Hfull & Hroom)
        (n' & (Hn' & Hno' & Hdl' & Hwhy') & Hfull' & _)].
  - reflexivity.
  - reflexivity.
  - vm_compute. reflexivity.
  - split; [|split; [|reflexivity]].
    + assert (n = 2%nat) as ->.
      { destruct n as [|[|[|n]]].
        * destruct Hwhy as [H|[H|(m & w & H & _)]]; discriminate H.
        * destruct Hwhy as [H|[H|(m & w & H & Hw & Hd)]]; [discriminate H..|].
          injection H as <-. injection Hw as <-. discriminate Hd.
        * reflexivity.
        * cbn in Hn. lia. }
      destruct (Hroom eq_refl) as (p' & Hsub & Hq & Hcount & _).
      exists p'. split; [exact Hsub|]. split; [exact Hq|].
      rewrite Hcount. reflexivity.
    + assert (n' = 2%nat) as ->.
      { destruct n' as [|[|[|n']]].
        * destruct Hwhy' as [H|[H|(m & w & H & _)]]; discriminate H.
        * destruct Hwhy' as [H|[H|(m & w & H & Hw & Hd)]]; [discriminate H..|].
          injection H as <-. injection Hw as <-. discriminate Hd.
        * reflexivity.
        * cbn in Hn'. lia. }
      exact (Hfull' eq_refl).
Defined.

(** ** CACHED: growing on submit *)

Section CachedGrowth.
Import BasePool CachedPool.

(** The [if] that follows the enqueue, on any pool [p2]. *)
Lemma spawn_when_needed (g : BasicThread.Statics) (p2 : t) :
  (BasicThread.threadIdBase g < Util.INT_MAX)%Z →
  (maxThreadCount_ p2 < Util.SIZE_MOD)%N →
  needs_thread p2 = true →
  ∃ p3,
    spawn g p2 = Some ({| BasicThread.threadIdBase := BasicThread.threadIdBase g + 1 |},
                       p3, [EvThreadStart (BasicThread.threadIdBase g)]) ∧
    threads_ p3 = ThreadTable.emplace (BasicThread.threadIdBase g)
                    {| BasicThread.threadId_ := BasicThread.threadIdBase g |} (threads_ p2) ∧
    curThreadCount_ p3 = (curThreadCount_ p2 + 1)%N ∧
    idleThreadCount_ p3 = Util.size_incr (idleThreadCount_ p2) ∧
    (curThreadCount_ p3 ≤ maxThreadCount_ p3)%N ∧
    maxThreadCount_ p3 = maxThreadCount_ p2 ∧
    taskQueue_ p3 = taskQueue_ p2 ∧ taskCount_ p3 = taskCount_ p2.
Proof.
  intros Hid Hmax Hneed. unfold needs_thread in Hneed.
  apply andb_true_iff in Hneed as [_ Hcur]. apply N.ltb_lt in Hcur.
  unfold spawn, BasicThread.Thread_new, BasicThread.new_id.
  destruct (Z.eqb_spec (BasicThread.threadIdBase g) Util.INT_MAX); [lia|].
  cbn [mbind option_bind BasicThread.getId BasicThread.threadId_].
  eexists. split; [done|].
  cbn [set_work threads_ curThreadCount_ idleThreadCount_ maxThreadCount_
       taskQueue_ taskCount_].
  rewrite size_incr_small by lia. repeat split; try done. lia.
Qed.

End CachedGrowth.

(** C7.  The failing input: [start(20)] on a freshly constructed CACHED
    engine, whose [maxThreadCount_] is 16, and then a submit.  [start] has
    created 16 workers and left [curThreadCount_ = 20] (the assignment of
    the unclamped argument reported for [start]).  The submit is accepted;
    its test [curThreadCount_ < maxThreadCount_] fails, so no worker is
    created; and [curThreadCount_] is 20 after the call as before it,
    above [maxThreadCount_ = 16]. *)
Theorem cached_submit_after_start_20_exceeds_max :
  ∃ g1 p1 tr1 g2 p2,
    CachedPool.start BasicThread.initial_statics CachedPool.make 20 = Some (g1, p1, tr1) ∧
    CachedPool.maxThreadCount_ p1 = 16%N ∧
    CachedPool.curThreadCount_ p1 = 20%N ∧
    size (CachedPool.threads_ p1) = 16%nat ∧
    CachedPool.submitTask g1 p1 [] 7%nat
      = (Returned, g2, p2, [EvWaitFor notFull 1; EvNotifyAll notEmpty]) ∧
    CachedPool.taskQueue_ p2 = [7%nat] ∧
    size (CachedPool.threads_ p2) = 16%nat ∧
    CachedPool.maxThreadCount_ p2 = 16%N ∧
    CachedPool.curThreadCount_ p2 = 20%N ∧
    (CachedPool.maxThreadCount_ p2 < CachedPool.curThreadCount_ p2)%N.
Proof.
  eexists _, _, _, _, _. split; [vm_compute; reflexivity|].
  split; [reflexivity|]. split; [reflexivity|]. split; [vm_compute; reflexivity|].
  split; [vm_compute; reflexivity|].
  split; [reflexivity|]. split; [vm_compute; reflexivity|].
  split; [reflexivity|]. split; [reflexivity|]. vm_compute. reflexivity.
Qed.

Section CachedStorm.
Import BasePool CachedPool.

(** After [start(2)], the first two submissions find idle workers; the
    third one, with three tasks pending and two idle workers, starts a
    worker. *)
Example storm_of_three :
  (λ r, (BasicThread.threadIdBase r.1, curThreadCount_ r.2, idleThreadCount_ r.2,
         taskCount_ r.2, size (threads_ r.2)))
    <$> submit_all started.1 started.2 [1%nat; 2%nat; 3%nat]
  = Some (3%Z, 3%N, 3%N, 3%N, 3%nat).
Proof. vm_compute. reflexivity. Qed.

(** One submission that does not wait keeps the engine running, keeps
    [maxThreadCount_], and keeps [curThreadCount_] within it. *)
Lemma quiet_submit_within_max (g : BasicThread.Statics) (p : t) (task : Task) :
  state_ p = STATE_RUNNING →
  (BasicThread.threadIdBase g < Util.INT_MAX)%Z →
  (maxThreadCount_ p < Util.SIZE_MOD)%N →
  (curThreadCount_ p ≤ maxThreadCount_ p)%N →
  ∃ o g' p' tr,
    submitTask g p [] task = (o, g', p', tr) ∧ o ≠ Undefined ∧
    state_ p' = STATE_RUNNING ∧
    maxThreadCount_ p' = maxThreadCount_ p ∧
    (curThreadCount_ p' ≤ maxThreadCount_ p')%N ∧
    (BasicThread.threadIdBase g' ≤ BasicThread.threadIdBase g + 1)%Z.
Proof.
  intros Hrun Hid Hmax Hle. unfold submitTask. rewrite Hrun.
  rewrite bool_decide_eq_true_2 by done. cbn [negb]. rewrite wait_for_quiet.
  destruct (has_room p); cbn [negb].
  - destruct (needs_thread (enqueue p task)) eqn:Hneed.
    + destruct (spawn_when_needed g (enqueue p task) Hid Hmax Hneed)
        as (p3 & Hspawn & _ & _ & _ & Hle3 & Hmx & _).
      rewrite Hspawn. eexists _, _, _, _. split; [done|].
      split; [done|]. split.
      { unfold spawn in Hspawn. destruct (BasicThread.Thread_new g) as [[th g1]|];
          [|done]. cbn [mbind option_bind] in Hspawn. injection Hspawn as _ <- _.
        done. }
      split; [done|]. split; [done|]. simpl. lia.
    + eexists _, _, _, _. split; [done|]. split; [done|].
      split; [done|]. split; [done|]. split; [done|]. lia.
  - eexists _, _, _, _. split; [done|]. split; [done|].
    split; [done|]. split; [done|]. split; [done|]. lia.
Qed.

(** A submission storm from a pool within its limit: every submission is
    answered and [curThreadCount_] stays within [maxThreadCount_]. *)
Lemma storm_within_max (tasks : list Task) (g : BasicThread.Statics) (p : t) :
  state_ p = STATE_RUNNING →
  (BasicThread.threadIdBase g + Z.of_nat (length tasks) ≤ Util.INT_MAX)%Z →
  (maxThreadCount_ p < Util.SIZE_MOD)%N →
  (curThreadCount_ p ≤ maxThreadCount_ p)%N →
  ∃ g' p', submit_all g p tasks = Some (g', p') ∧
           maxThreadCount_ p' = maxThreadCount_ p ∧
           (curThreadCount_ p' ≤ maxThreadCount_ p')%N.
Proof.
  revert g p. induction tasks as [|task tasks IH]; intros g p Hrun Hid Hmax Hle.
  - exists g, p. done.
  - cbn [length] in Hid. cbn [submit_all].
    destruct (quiet_submit_within_max g p task Hrun) as
      (o & g1 & p1 & tr & Hsub & Ho & Hrun1 & Hmx1 & Hle1 & Hid1); [lia|done|done|].
    rewrite Hsub.
    destruct (IH g1 p1 Hrun1) as (g2 & p2 & Hall & Hmx2 & Hle2);
      [lia|by rewrite Hmx1|done|].
    exists g2, p2. split; [by destruct o|]. split; [congruence|done].
Qed.

End CachedStorm.

(** ** Thread creation in [start] *)

Section ThreadCreation.

(** The creation loop adds exactly [n] workers when the ids are not used up. *)
Lemma create_threads_size (n : nat) (g : BasicThread.Statics)
    (m : gmap Z BasicThread.Thread) :
  ThreadTable.ids_below g m →
  (BasicThread.threadIdBase g + Z.of_nat n ≤ Util.INT_MAX)%Z →
  ∃ g' m',
    ThreadTable.create_threads n g m = Some (g', m') ∧
    size m' = (size m + n)%nat ∧
    BasicThread.threadIdBase g' = (BasicThread.threadIdBase g + Z.of_nat n)%Z ∧
    ThreadTable.ids_below g' m'.
Proof.
  revert g m. induction n as [|n IH]; intros g m Hbelow Hroom.
  - exists g, m. cbn [ThreadTable.create_threads]. repeat split; [lia|lia|done].
  - cbn [ThreadTable.create_threads].
    unfold BasicThread.Thread_new, BasicThread.new_id.
    destruct (Z.eqb_spec (BasicThread.threadIdBase g) Util.INT_MAX); [lia|].
    cbn [mbind option_bind BasicThread.getId BasicThread.threadId_].
    assert (Hfresh : m !! BasicThread.threadIdBase g = None).
    { destruct (m !! BasicThread.threadIdBase g) as [th|] eqn:E; [|done].
      apply Hbelow in E. lia. }
    unfold ThreadTable.emplace. rewrite Hfresh.
    destruct (IH {| BasicThread.threadIdBase := BasicThread.threadIdBase g + 1 |}
                 (<[BasicThread.threadIdBase g :=
                      {| BasicThread.threadId_ := BasicThread.threadIdBase g |}]> m))
      as (g' & m' & Hc & Hsize & Hbase & Hbelow').
    + intros id th. cbn [BasicThread.threadIdBase].
      rewrite lookup_insert. case_decide.
      * intros _. lia.
      * intros Hid. apply Hbelow in Hid. lia.
    + cbn [BasicThread.threadIdBase]. lia.
    + exists g', m'. split; [done|].
      rewrite Hsize, Hbase, map_size_insert_None by done.
      cbn [BasicThread.threadIdBase]. repeat split; [lia|lia|done].
Qed.

End ThreadCreation.

(** What CACHED [start(n)] leaves when [n], read as a [size_t], is above
    [maxThreadCount_]: [maxThreadCount_] new workers in the table and
    [initThreadCount_ = maxThreadCount_], but both counters equal to [n]. *)
Lemma cached_start_above_max (g : BasicThread.Statics) (p : CachedPool.t) (n : Z) :
  ThreadTable.ids_below g (CachedPool.threads_ p) →
  (0 ≤ BasicThread.threadIdBase g)%Z →
  (CachedPool.maxThreadCount_ p < Util.size_of_int n)%N →
  (BasicThread.threadIdBase g + Z.of_N (CachedPool.maxThreadCount_ p) ≤ Util.INT_MAX)%Z →
  ∃ g' p' tr,
    CachedPool.start g p n = Some (g', p', tr) ∧
    size (CachedPool.threads_ p')
      = (size (CachedPool.threads_ p) + N.to_nat (CachedPool.maxThreadCount_ p))%nat ∧
    CachedPool.initThreadCount_ p' = CachedPool.maxThreadCount_ p ∧
    CachedPool.curThreadCount_ p' = Util.size_of_int n ∧
    CachedPool.idleThreadCount_ p' = Util.size_of_int n ∧
    (CachedPool.maxThreadCount_ p' < CachedPool.curThreadCount_ p')%N.
Proof.
  intros Hbelow Hbase0 Habove Hroom. unfold CachedPool.start.
  apply N.ltb_lt in Habove. rewrite Habove. apply N.ltb_lt in Habove.
  unfold Util.iterations.
  destruct (Z.leb_spec (Z.of_N (CachedPool.maxThreadCount_ p)) Util.INT_MAX); [|lia].
  cbn [mbind option_bind].
  destruct (create_threads_size (N.to_nat (CachedPool.maxThreadCount_ p)) g
              (CachedPool.threads_ p) Hbelow) as (g' & m' & Hc & Hsize & _ & _).
  { lia. }
  rewrite Hc. cbn [mbind option_bind]. eexists _, _, _. split; [done|].
  cbn [CachedPool.threads_ CachedPool.initThreadCount_ CachedPool.curThreadCount_
       CachedPool.idleThreadCount_ CachedPool.maxThreadCount_].
  repeat split; done.
Qed.

(** C10.  The failing input: [start(20)] on a freshly constructed CACHED
    engine, whose [maxThreadCount_] is 16.  The clamp works for the loop:
    [initThreadCount_] is 16 and 16 workers are created.  But both
    counters are assigned the argument: [curThreadCount_] and
    [idleThreadCount_] are 20, not [min(20, 16) = 16]. *)
Theorem cached_start_20_counts_20 :
  ∃ g' p' tr,
    CachedPool.start BasicThread.initial_statics CachedPool.make 20 = Some (g', p', tr) ∧
    size (CachedPool.threads_ p') = 16%nat ∧
    length tr = 16%nat ∧
    CachedPool.initThreadCount_ p' = 16%N ∧
    CachedPool.maxThreadCount_ p' = 16%N ∧
    CachedPool.curThreadCount_ p' = 20%N ∧
    CachedPool.idleThreadCount_ p' = 20%N ∧
    N.min 20 (CachedPool.maxThreadCount_ CachedPool.make) = 16%N.
Proof.
  eexists _, _, _. split; [vm_compute; reflexivity|].
  repeat split; vm_compute; reflexivity.
Qed.

(** ** The facade: submitting to an engine that is not running *)

Section NotRunning.
Import BasePool ThreadPool.
Context {RType : Type} `{DefaultConstructible RType}.

(** FIXED and CACHED refuse a submit outside [STATE_RUNNING]: the facade
    reports "PoolNotRunning" and hands back the fulfilled default future;
    the engine is unchanged. *)
Lemma fixed_cached_not_running (g : Statics) (e : Engine) (env : Interference)
    (task : Task) :
  mode_of e ≠ MODE_ACTIVE →
  state_of e ≠ STATE_RUNNING →
  error_kind "PoolNotRunning" = Some NotRunning ∧
  submitTask (RType := RType) g e env task =
    Some (Fulfilled default_value, g, e, [EvCerr "submitTask: PoolNotRunning"]).
Proof.
  intros Hmode Hstate. split; [done|].
  destruct e as [p|p|p]; [| |done]; cbn [state_of] in Hstate;
    unfold submitTask, engine_submit.
  - unfold FixedPool.submitTask. rewrite bool_decide_eq_false_2 by done. done.
  - unfold CachedPool.submitTask. rewrite bool_decide_eq_false_2 by done.
    cbn [negb]. destruct g as [[b] d]. done.
Qed.

End NotRunning.

(** C1.  The failing input: a freshly constructed ACTIVE engine (state
    INIT, no thread yet) receives a submit.  [ActivePool::submitTask] does
    not look at [state_]; [trySubmitTask] reads [threads_[0]] of an empty
    vector.  No "PoolNotRunning" is thrown and no fulfilled default future
    is produced: the behaviour is undefined.  In state EXITING with the
    workers still in the table, the task is accepted like any other. *)
Theorem active_submit_ignores_state :
  ThreadPool.state_of (ThreadPool.make ThreadPool.MODE_ACTIVE) = BasePool.STATE_INIT ∧
  ThreadPool.engine_submit ThreadPool.initial_statics
    (ThreadPool.make ThreadPool.MODE_ACTIVE) ThreadPool.quiet 7%nat
  = (Undefined, ThreadPool.initial_statics,
     ThreadPool.make ThreadPool.MODE_ACTIVE, []) ∧
  ThreadPool.submitTask (RType := Z) ThreadPool.initial_statics
    (ThreadPool.make ThreadPool.MODE_ACTIVE) ThreadPool.quiet 7%nat = None ∧
  let exiting :=
    {| ActivePool.state_ := BasePool.STATE_EXITING;
       ActivePool.initThreadCount_ := 2; ActivePool.curThreadCount_ := 2;
       ActivePool.threads_ := ActivePool.threads_ ActivePool.two_idle_workers |} in
  ∃ e' tr,
    ThreadPool.submitTask (RType := Z) ThreadPool.initial_statics
      (ThreadPool.Active exiting) ThreadPool.quiet 7%nat
    = Some (ThreadPool.FutureOf 7%nat, ThreadPool.initial_statics, e', tr).
Proof.
  split; [reflexivity|]. split; [reflexivity|]. split; [reflexivity|].
  cbn zeta. eexists _, _. vm_compute. reflexivity.
Qed.

(** ** The facade: [setTaskMaxCount] *)

Section TaskCapacity.
Import BasePool ThreadPool.

(** FIXED and CACHED: in INIT the capacity becomes [n] silently; in any
    other state the engine is unchanged and the refusal is printed. *)
Lemma fixed_cached_set_capacity (g : Statics) (e : Engine) (n : N) :
  mode_of e ≠ MODE_ACTIVE →
  (state_of e = STATE_INIT →
     capacity (setTaskMaxCount g e n).1.1 (setTaskMaxCount g e n).1.2 = n ∧
     (setTaskMaxCount g e n).2 = [] ∧
     state_of (setTaskMaxCount g e n).1.2 = STATE_INIT) ∧
  (state_of e ≠ STATE_INIT →
     setTaskMaxCount g e n = (g, e, [EvCerr set_refused])).
Proof.
  intros Hmode. destruct e as [p|p|p]; [| |done]; cbn [state_of];
    unfold setTaskMaxCount, FixedPool.setTaskMaxCount, CachedPool.setTaskMaxCount,
      checkSetPermission.
  - split; intros Hst.
    + rewrite bool_decide_eq_true_2 by done. done.
    + rewrite bool_decide_eq_false_2 by done. done.
  - split; intros Hst.
    + rewrite bool_decide_eq_true_2 by done. done.
    + rewrite bool_decide_eq_false_2 by done. done.
Qed.

End TaskCapacity.

(** C9.  The failing input: [setTaskMaxCount(10)] on a freshly constructed
    ACTIVE engine (state INIT).  The override has an empty body: the
    per-worker cap that [trySubmitTask] compares against stays 500001, the
    engine is unchanged and nothing is printed.  The same call in a later
    state is ignored as well, but without any warning. *)
Theorem active_set_capacity_is_noop :
  let g := ThreadPool.initial_statics in
  let e := ThreadPool.make ThreadPool.MODE_ACTIVE in
  ThreadPool.state_of e = BasePool.STATE_INIT ∧
  ThreadPool.setTaskMaxCount g e 10 = (g, e, []) ∧
  ThreadPool.capacity (ThreadPool.setTaskMaxCount g e 10).1.1
                      (ThreadPool.setTaskMaxCount g e 10).1.2 = 500001%N ∧
  ∀ (g' : ThreadPool.Statics) (p : ActivePool.t) (n : N),
    ThreadPool.setTaskMaxCount g' (ThreadPool.Active p) n = (g', ThreadPool.Active p, []).
Proof.
  cbn zeta. split; [reflexivity|]. split; [reflexivity|]. split; [reflexivity|].
  intros [b d] p n. reflexivity.
Qed.

(** ** CACHED: leaving on an idle timeout *)

Section IdleExit.
Import BasePool CachedPool.


Lemma check_flag (p : t) (l : Local) (nowTime : Z) :
  isIdleTimeout l = false →
  isIdleTimeout (checkThreadIdleTimeout p l nowTime) = true ↔
  curThreadCount_ p ≠ initThreadCount_ p ∧
  (threadMaxIdleSec_ p < Util.size_of_long (idle_seconds nowTime (lastTime l)))%N.
Proof.
  intros Hflag. unfold checkThreadIdleTimeout.
  destruct (N.eqb_spec (curThreadCount_ p) (initThreadCount_ p)) as [Heq|Hne].
  - rewrite Hflag. split; [done|]. intros [? _]. done.
  - destruct (N.ltb_spec (threadMaxIdleSec_ p)
                (Util.size_of_long (idle_seconds nowTime (lastTime l)))) as [Hlt|Hge].
    + cbn [isIdleTimeout]. split; done.
    + rewrite Hflag. split; [done|]. intros [_ ?]. lia.
Qed.


End IdleExit.




(** The gate does not hold the population at [initThreadCount_] when two
    workers check before either has decremented: the clean-up runs after
    the mutex is released.  From five workers with [initThreadCount_ = 4],
    workers 0 and 1 both pass the check, and after both clean-ups the
    running engine counts three workers; worker 3 then passes the check
    with the counter below [initThreadCount_]. *)
Lemma concurrent_idle_exits_go_below_init :
  ∃ s s',
    CachedPool.exec_all CachedPool.initial_sys CachedPool.two_workers_time_out = Some s ∧
    CachedPool.state_ (CachedPool.pool s) = BasePool.STATE_RUNNING ∧
    CachedPool.initThreadCount_ (CachedPool.pool s) = 4%N ∧
    CachedPool.curThreadCount_ (CachedPool.pool s) = 3%N ∧
    size (CachedPool.threads_ (CachedPool.pool s)) = 3%nat ∧
    CachedPool.exec_all CachedPool.initial_sys
      (CachedPool.two_workers_time_out
         ++ [CachedPool.ActWake 3 true (32 * CachedPool.TICKS_PER_SEC)]) = Some s' ∧
    CachedPool.self_terminating s' 3.
Proof.
  eexists _, _. split; [vm_compute; reflexivity|].
  split; [reflexivity|]. split; [reflexivity|]. split; [reflexivity|].
  split; [reflexivity|]. split; [vm_compute; reflexivity|].
  split; [reflexivity|]. eexists. split; [vm_compute; reflexivity|reflexivity].
Qed.

(** ** Defaults of a freshly constructed engine *)

(** C2 as stated fails: a fresh CACHED engine has [maxThreadCount_ = 16],
    [threadMaxIdleSec_ = 30] and [taskMaxCount_ = 1000001], and a fresh
    FIXED engine has [taskMaxCount_ = 1000001]; none of 20, 60, 1024. *)
Lemma fresh_defaults_are_not_20_1024_60 :
  CachedPool.maxThreadCount_ CachedPool.make = 16%N ∧
  CachedPool.maxThreadCount_ CachedPool.make ≠ 20%N ∧
  CachedPool.threadMaxIdleSec_ CachedPool.make = 30%N ∧
  CachedPool.threadMaxIdleSec_ CachedPool.make ≠ 60%N ∧
  CachedPool.taskMaxCount_ CachedPool.make ≠ 1024%N ∧
  FixedPool.taskMaxCount_ FixedPool.make = 1000001%N ∧
  FixedPool.taskMaxCount_ FixedPool.make ≠ 1024%N.
Proof. repeat split; done. Qed.

(** C2, as the code has it.  Every freshly constructed engine is in INIT
    with [initThreadCount_ = 4].  FIXED has [taskMaxCount_ = 1000001] (and
    neither a thread limit nor an idle timeout).  CACHED has
    [maxThreadCount_ = 16] and [threadMaxIdleSec_ = 30].  ACTIVE has a
    per-worker cap of 500001. *)
Theorem fresh_engine_defaults :
  (∀ mode, ThreadPool.state_of (ThreadPool.make mode) = BasePool.STATE_INIT ∧
           ThreadPool.init_workers (ThreadPool.make mode) = 4%N) ∧
  ThreadPool.capacity ThreadPool.initial_statics
    (ThreadPool.make ThreadPool.MODE_FIXED) = 1000001%N ∧
  CachedPool.maxThreadCount_ CachedPool.make = 16%N ∧
  CachedPool.threadMaxIdleSec_ CachedPool.make = 30%N ∧
  ThreadPool.capacity ThreadPool.initial_statics
    (ThreadPool.make ThreadPool.MODE_ACTIVE) = 500001%N.
Proof.
  split; [by intros []|]. repeat split.
Qed.

(** ** Further checks on concrete pools *)

(** The older single-class pool is where 4 / 20 / 1024 / 60 are the
    defaults. *)
Lemma legacy_defaults :
  LegacyThreadPool.initThreadCount_ LegacyThreadPool.make = 4%N ∧
  LegacyThreadPool.maxThreadCount_ LegacyThreadPool.make = 20%N ∧
  LegacyThreadPool.taskMaxCount_ LegacyThreadPool.make = 1024%N ∧
  LegacyThreadPool.threadMaxIdleSec_ LegacyThreadPool.make = 60%N.
Proof. repeat split. Qed.

(** FIXED, capacity 2, queue full, nobody takes a task during the wait:
    the submit throws and the pool is untouched. *)
Example full_queue_times_out :
  FixedPool.submitTask FixedPool.full_pool [] 3%nat
  = (Threw "TaskQueueOverflow", FixedPool.full_pool, [EvWaitFor notFull 1]).
Proof. reflexivity. Qed.

(** Same pool, but a worker takes the front task before the deadline: the
    submit succeeds and the new task is at the back. *)
Example full_queue_then_room :
  let wakes := [{| BasePool.interfere := FixedPool.take_task;
                   BasePool.deadline := false |}] in
  (λ r, (r.1.1, FixedPool.taskQueue_ r.1.2, FixedPool.taskCount_ r.1.2, r.2))
    (FixedPool.submitTask FixedPool.full_pool wakes 3%nat)
  = (Returned, [2%nat; 3%nat], 2%N, [EvWaitFor notFull 1; EvNotifyAll notEmpty]).
Proof. reflexivity. Qed.

(** ACTIVE, both workers at the cap.  If nothing changes during the sleep
    the submit throws after one sleep. *)
Example saturated_pool_overflows :
  ActivePool.submitTask ThreadWithDQ.initial_statics ActivePool.two_full_workers
    (λ p, p) 7%nat
  = (Threw "TaskQueueOverflow", ActivePool.two_full_workers,
     [EvSleep 1; EvCerr ActivePool.busy_message]).
Proof. vm_compute. reflexivity. Qed.

(** If worker 1 swaps its queues during the sleep, its public load is 0 on
    the retry and it receives the task. *)
Example saturated_pool_retry_succeeds :
  (λ r : Outcome * ActivePool.t * list Event,
     (r.1.1,
      fmap (M := list) (fmap (M := option) ThreadWithDQ.getPublicTaskCount)
           (ActivePool.threads_ r.1.2),
      r.2))
    (ActivePool.submitTask ThreadWithDQ.initial_statics ActivePool.two_full_workers
       (ActivePool.worker_swaps 1) 7%nat)
  = (Returned, [Some 500001%N; Some 1%N],
     [EvSleep 1; EvCerr ActivePool.busy_message;
      EvLock pubLock; EvUnlock pubLock; EvNotifyAll notEmpty]).
Proof. vm_compute. reflexivity. Qed.

Section ActiveLoads.
Import ActivePool.

(** A submit never pushes a public load past the cap: the loads the scan
    reads stay far inside the range of the [int] that holds the minimum. *)
Lemma submit_keeps_loads_within_cap (g : ThreadWithDQ.Statics) (p : t) (task : Task)
    (given : bool) (p' : t) (tr : list Event) :
  workers_running p →
  loads_within_cap g p →
  (ThreadWithDQ.getTaskMaxCount g < Util.SIZE_MOD)%N →
  trySubmitTask g p task = Some (given, p', tr) →
  loads_within_cap g p'.
Proof.
  intros Hrun Hcap Hsize Htry.
  destruct (trySubmitTask_least g p task Hrun) as (k & th & Hleast & Heq).
  rewrite Heq in Htry.
  destruct (N.eqb_spec (ThreadWithDQ.getPublicTaskCount th)
                       (ThreadWithDQ.getTaskMaxCount g)) as [Hfull|Hroom].
  - injection Htry as _ <- _. done.
  - injection Htry as _ <- _. unfold loads_within_cap in *.
    cbn [set_threads threads_]. destruct Hleast as (Hk & _).
    pose proof (proj1 (Forall_lookup _ _) Hcap k _ Hk th eq_refl) as Hth.
    apply Forall_insert; [done|].
    intros th' [= <-]. unfold ThreadWithDQ.giveTask. cbn [fst].
    unfold ThreadWithDQ.getPublicTaskCount in *.
    cbn [ThreadWithDQ.set_counts ThreadWithDQ.publicTaskCount_].
    destruct (store_fields th (ThreadWithDQ.publicQ_ th)
                (ThreadWithDQ.deref th (ThreadWithDQ.publicQ_ th) ++ [task]))
      as (Ea & _).
    rewrite Ea, size_incr_small by lia. lia.
Qed.

End ActiveLoads.

(** ** ACTIVE: the pool that [start] leaves *)

Section ActiveStart.
Import ActivePool.

Lemma active_create_threads (n : nat) (g : BasicThread.Statics)
    (ths : list (option ThreadWithDQ.t)) :
  (BasicThread.threadIdBase g + Z.of_nat n ≤ Util.INT_MAX)%Z →
  create_threads n g ths =
    Some ({| BasicThread.threadIdBase := BasicThread.threadIdBase g + Z.of_nat n |},
          ths ++ ((λ i : nat, Some (ThreadWithDQ.make (BasicThread.threadIdBase g + Z.of_nat i)))
                    <$> seq 0 n)).
Proof.
  revert g ths. induction n as [|n IH]; intros g ths Hroom.
  - cbn [create_threads seq fmap list_fmap]. rewrite app_nil_r, Z.add_0_r.
    by destruct g.
  - cbn [create_threads]. unfold BasicThread.new_id.
    destruct (Z.eqb_spec (BasicThread.threadIdBase g) Util.INT_MAX); [lia|].
    cbn [mbind option_bind]. rewrite IH by (cbn [BasicThread.threadIdBase]; lia).
    cbn [BasicThread.threadIdBase]. f_equal. f_equal; [f_equal; lia|].
    rewrite <- app_assoc. f_equal. cbn [seq]. rewrite fmap_cons, Z.add_0_r.
    cbn [app]. f_equal. rewrite <- fmap_S_seq, <- list_fmap_compose.
    apply list_fmap_ext. intros _ i _. cbn. do 2 f_equal. lia.
Qed.

Lemma start_all_alive (ths : list (option ThreadWithDQ.t)) :
  Forall is_Some ths → is_Some (start_all ths).
Proof.
  induction 1 as [|o ths [th ->] _ [tr IH]]; [by eexists|].
  cbn [start_all]. rewrite IH. by eexists.
Qed.

(** [start(n)] on a fresh ACTIVE engine, [n ≥ 1]: the workers are all
    running, worker [k] of the vector has id [threadIdBase + k] (a lower
    index is a lower id), and every load is zero. *)
Lemma active_start_running (g : BasicThread.Statics) (n : Z) :
  (1 ≤ n)%Z → (0 ≤ BasicThread.threadIdBase g)%Z →
  (BasicThread.threadIdBase g + n ≤ Util.INT_MAX)%Z →
  ∃ g' p' tr,
    start g make n = Some (g', p', tr) ∧
    state_ p' = BasePool.STATE_RUNNING ∧
    workers_running p' ∧
    length (threads_ p') = Z.to_nat n ∧
    ∀ k th, threads_ p' !! k = Some (Some th) →
            ThreadWithDQ.threadId_ th = (BasicThread.threadIdBase g + Z.of_nat k)%Z ∧
            ThreadWithDQ.getPublicTaskCount th = 0%N.
Proof.
  intros Hn Hbase Hroom. unfold start.
  rewrite size_of_int_nonneg by lia. unfold Util.iterations.
  destruct (Z.leb_spec (Z.of_N (Z.to_N n)) Util.INT_MAX); [|lia].
  cbn [mbind option_bind]. rewrite active_create_threads by lia.
  cbn [mbind option_bind make threads_ app].
  set (ths := (λ i : nat, Some (ThreadWithDQ.make (BasicThread.threadIdBase g + Z.of_nat i)))
                <$> seq 0 (N.to_nat (Z.to_N n))).
  assert (Hlen : length ths = Z.to_nat n).
  { unfold ths. rewrite length_fmap, length_seq. lia. }
  assert (Hlook : ∀ k o, ths !! k = Some o →
            o = Some (ThreadWithDQ.make (BasicThread.threadIdBase g + Z.of_nat k))).
  { intros k o. unfold ths. rewrite list_lookup_fmap.
    destruct (seq 0 (N.to_nat (Z.to_N n)) !! k) as [i|] eqn:E; [|done].
    apply lookup_seq in E as [-> _]. by intros [= <-]. }
  assert (Halive : Forall is_Some ths).
  { apply Forall_lookup. intros k o Hk. apply Hlook in Hk as ->. by eexists. }
  destruct (start_all_alive ths Halive) as [tr Htr]. rewrite Htr.
  cbn [mbind option_bind]. eexists _, _, _. split; [done|]. split; [done|].
  split; [|split; [done|]].
  - split; cbn [threads_ curThreadCount_].
    + intros E. rewrite E in Hlen. simpl in Hlen. lia.
    + done.
    + rewrite Hlen. lia.
    + rewrite Hlen. lia.
    + apply Forall_lookup. intros k o Hk th ->. apply Hlook in Hk.
      injection Hk as ->. vm_compute. discriminate.
  - intros k th Hk. apply Hlook in Hk. injection Hk as ->. done.
Qed.

End ActiveStart.

(** * Further properties of the code *)

(** ** util.h: the spin lock *)

Section SpinLockFacts.
Import SpinLock.

Lemma step_exclusive (w : World) (i : nat) : exclusive w → exclusive (step w i).
Proof.
  intros [Hfree Hheld]. unfold step.
  destruct (places w !! i) as [[| |]|] eqn:Hi; [| | |done].
  - (* an attempt from outside *)
    destruct (flag w) eqn:Hflag; unfold exclusive; cbn [test_and_set flag places].
    + split; [done|]. intros _. destruct (Hheld eq_refl) as (k & Hk & Huniq).
      assert (k ≠ i) by (intros ->; congruence).
      exists k. split; [by rewrite list_lookup_insert_ne|].
      intros j Hj. destruct (decide (j = i)) as [->|Hne].
      * rewrite list_lookup_insert_eq in Hj by (by eapply lookup_lt_Some). done.
      * rewrite list_lookup_insert_ne in Hj by done. by apply Huniq.
    + split; [done|]. intros _. exists i.
      split; [by rewrite list_lookup_insert_eq by (by eapply lookup_lt_Some)|].
      intros j Hj. destruct (decide (j = i)) as [->|Hne]; [done|].
      rewrite list_lookup_insert_ne in Hj by done. by apply Hfree in Hj.
  - (* another attempt while spinning *)
    destruct (flag w) eqn:Hflag; unfold exclusive; cbn [test_and_set flag places].
    + split; [done|]. intros _. destruct (Hheld eq_refl) as (k & Hk & Huniq).
      assert (k ≠ i) by (intros ->; congruence).
      exists k. split; [by rewrite list_lookup_insert_ne|].
      intros j Hj. destruct (decide (j = i)) as [->|Hne].
      * rewrite list_lookup_insert_eq in Hj by (by eapply lookup_lt_Some). done.
      * rewrite list_lookup_insert_ne in Hj by done. by apply Huniq.
    + split; [done|]. intros _. exists i.
      split; [by rewrite list_lookup_insert_eq by (by eapply lookup_lt_Some)|].
      intros j Hj. destruct (decide (j = i)) as [->|Hne]; [done|].
      rewrite list_lookup_insert_ne in Hj by done. by apply Hfree in Hj.
  - (* leaving the section *)
    unfold exclusive. cbn [unlock clear flag places]. split; [|done]. intros _ j Hj.
    destruct (flag w) eqn:Hflag.
    + destruct (Hheld eq_refl) as (k & Hk & Huniq).
      assert (k = i) as -> by (symmetry; by apply Huniq).
      destruct (decide (j = i)) as [->|Hne].
      * rewrite list_lookup_insert_eq in Hj by (by eapply lookup_lt_Some). done.
      * rewrite list_lookup_insert_ne in Hj by done. apply Huniq in Hj. done.
    + by apply Hfree in Hi.
Qed.

Lemma run_exclusive (schedule : list nat) (w : World) :
  exclusive w → exclusive (run w schedule).
Proof.
  revert w. induction schedule as [|i schedule IH]; intros w Hw; [done|].
  unfold run. cbn [foldl]. apply IH. by apply step_exclusive.
Qed.

Lemma step_length (w : World) (i : nat) : length (places (step w i)) = length (places w).
Proof.
  unfold step. destruct (places w !! i) as [[| |]|]; [| | |done];
    try destruct (test_and_set _); cbn [places]; by rewrite length_insert.
Qed.

Lemma run_length (schedule : list nat) (w : World) :
  length (places (run w schedule)) = length (places w).
Proof.
  revert w. induction schedule as [|i schedule IH]; intros w; [done|].
  unfold run. cbn [foldl]. fold (run (step w i) schedule).
  by rewrite IH, step_length.
Qed.

End SpinLockFacts.

(** X1.  [spinlock] with [spinlock_guard]: start from a fresh lock and any
    number of threads, and let them attempt, enter and leave their guarded
    sections in any order of atomic steps.  Then no two threads are ever
    inside a guarded section together, the flag is set exactly while some
    thread is inside, and whenever the flag is clear the next attempt of
    any thread enters at once.  [lock()] on a clear flag returns at once
    with the flag set; on a set flag that the other threads leave set it
    keeps spinning. *)
Theorem spinlock_mutual_exclusion (n : nat) (schedule : list nat) :
  let w := SpinLock.run (SpinLock.initial n) schedule in
  (∀ i j, SpinLock.places w !! i = Some SpinLock.Inside →
          SpinLock.places w !! j = Some SpinLock.Inside → i = j) ∧
  (SpinLock.flag w = true ↔ ∃ i, SpinLock.places w !! i = Some SpinLock.Inside) ∧
  (SpinLock.flag w = false →
     ∀ i, (i < n)%nat →
          SpinLock.places (SpinLock.step w i) !! i = Some SpinLock.Inside) ∧
  (∀ others, SpinLock.lock false others = Some true) ∧
  (∀ others, Forall (λ f : bool → bool, f true = true) others →
             SpinLock.lock true others = None).
Proof.
  intros w.
  assert (Hspin : ∀ others, Forall (λ f : bool → bool, f true = true) others →
                            SpinLock.lock true others = None).
  { induction 1 as [|f others Hf _ IH]; [done|].
    cbn [SpinLock.lock SpinLock.test_and_set]. by rewrite Hf. }
  assert (Hex : SpinLock.exclusive w).
  { apply run_exclusive. split; [|done]. intros _ i. cbn [SpinLock.initial SpinLock.places].
    intros Hi. apply lookup_replicate in Hi as [? _]. done. }
  assert (Hlen : length (SpinLock.places w) = n).
  { unfold w. rewrite run_length. cbn [SpinLock.initial SpinLock.places].
    apply length_replicate. }
  destruct Hex as [Hfree Hheld]. split; [|split; [|split; [|split]]];
    [| | |by intros []|done].
  - intros i j Hi Hj. destruct (SpinLock.flag w) eqn:Hflag.
    + destruct (Hheld eq_refl) as (k & _ & Huniq).
      rewrite (Huniq i Hi), (Huniq j Hj). done.
    + by apply Hfree in Hi.
  - split.
    + intros Hflag. destruct (Hheld Hflag) as (k & Hk & _). by exists k.
    + intros [i Hi]. destruct (SpinLock.flag w) eqn:Hflag; [done|].
      by apply Hfree in Hi.
  - intros Hflag i Hi. unfold SpinLock.step.
    destruct (SpinLock.places w !! i) as [[| |]|] eqn:E.
    + rewrite Hflag. cbn [SpinLock.test_and_set SpinLock.places].
      apply list_lookup_insert_eq. lia.
    + rewrite Hflag. cbn [SpinLock.test_and_set SpinLock.places].
      apply list_lookup_insert_eq. lia.
    + by apply (Hfree Hflag) in E.
    + apply lookup_ge_None in E. lia.
Qed.

(** ** activepool.h: the double buffer is a FIFO *)

Section DoubleBufferOrder.
Import ThreadWithDQ.

Lemma ran_app (tr1 tr2 : list Event) : ran (tr1 ++ tr2) = ran tr1 ++ ran tr2.
Proof.
  induction tr1 as [|e tr1 IH]; [done|].
  destruct e; cbn [app ran]; rewrite ?IH; done.
Qed.

Lemma ran_runs (q : list Task) : ran (EvRun <$> q) = q.
Proof. induction q as [|task q IH]; [done|]. rewrite fmap_cons. cbn [ran]. by rewrite IH. Qed.

Lemma counted_empty (q : list Task) : 0%N = N.of_nat (length q) → q = [].
Proof. destruct q; [done|]. simpl. lia. Qed.

Lemma giveTask_pending (w : t) (task : Task) :
  consistent w →
  pending (giveTask w task).1 = pending w ++ [task] ∧ ran (giveTask w task).2 = [].
Proof.
  intros [Hne _ _]. split; [|done]. unfold giveTask, pending. cbn [fst].
  destruct (store_fields w (publicQ_ w) (deref w (publicQ_ w) ++ [task]))
    as (_ & _ & Ec & Ed & _).
  cbn [set_counts publicQ_ privateQ_]. rewrite Ec, Ed, !deref_set_counts.
  rewrite deref_store_same, deref_store_other by done. by rewrite app_assoc.
Qed.

Lemma trySwapQ_pending (w : t) :
  consistent w →
  pending (trySwapQ w).1.2 = pending w ∧ ran (trySwapQ w).2 = [].
Proof.
  intros [Hne Hpub Hpri]. unfold trySwapQ.
  destruct (N.eqb_spec (privateTaskCount_ w) 0) as [Hzero|]; [|done].
  destruct (publicTaskCount_ w =? 0)%N; cbn [negb]; [done|].
  split; [|done]. rewrite Hzero in Hpri. apply counted_empty in Hpri.
  unfold pending, swapQ. cbn [fst snd]. rewrite Hpri. cbn [app].
  destruct w as [i a b [] [] q1 q2]; cbn in *; try done;
    subst; by rewrite app_nil_r.
Qed.

Lemma consumeTasks_pending (w : t) :
  consistent w →
  ran (consumeTasks w).2 ++ pending (consumeTasks w).1 = pending w ∧
  ran (consumeTasks w).2 = deref w (privateQ_ w).
Proof.
  intros [Hne _ _]. unfold consumeTasks. rewrite drain_all. cbn [fst snd].
  rewrite !ran_app, ran_runs. cbn [ran]. rewrite app_nil_r.
  split; [|done]. unfold pending.
  destruct (store_fields w (privateQ_ w) []) as (_ & _ & Ec & Ed & _).
  cbn [set_counts publicQ_ privateQ_]. rewrite Ec, Ed, !deref_set_counts.
  rewrite deref_store_same, deref_store_other by done. done.
Qed.

Lemma step_pending (w : t) (o : Op) :
  consistent w →
  ran (step w o).2 ++ pending (step w o).1 = pending w ++ given_tasks [o].
Proof.
  intros Hc. destruct o as [task| |]; cbn [step given_tasks].
  - destruct (giveTask_pending w task Hc) as [-> ->]. done.
  - destruct (trySwapQ_pending w Hc) as [H1 H2].
    destruct (trySwapQ w) as [[ret w'] tr]. cbn [fst snd] in *.
    rewrite H1, H2. by rewrite app_nil_r.
  - destruct (consumeTasks_pending w Hc) as [-> _]. by rewrite app_nil_r.
Qed.

Lemma given_tasks_cons (o : Op) (ops : list Op) :
  given_tasks (o :: ops) = given_tasks [o] ++ given_tasks ops.
Proof. destruct o; done. Qed.

Lemma run_pending (ops : list Op) (w : t) :
  consistent w → (load w + given ops < Util.SIZE_MOD)%N →
  ran (run w ops).2 ++ pending (run w ops).1 = pending w ++ given_tasks ops.
Proof.
  revert w. induction ops as [|o ops IH]; intros w Hc Hroom.
  - cbn [run given_tasks fst snd ran]. by rewrite app_nil_r.
  - rewrite given_cons in Hroom. cbn [run].
    destruct (step_consistent w o Hc) as [Hc1 Hsum1]; [lia|].
    pose proof (step_pending w o Hc) as Hstep.
    destruct (step w o) as [w1 tr1]. cbn [fst snd] in *.
    specialize (IH w1 Hc1). destruct (run w1 ops) as [w2 tr2]. cbn [fst snd] in *.
    rewrite ran_app, given_tasks_cons, <- app_assoc, IH by lia.
    by rewrite !app_assoc, Hstep.
Qed.

End DoubleBufferOrder.

(** X2.  A worker's double buffer is a first-in first-out queue that loses
    and repeats nothing: after any sequence of [giveTask], [trySwapQ] and
    [consumeTasks] on a fresh worker (fewer than [2^64] items given), the
    tasks executed so far, followed by the private queue and then the
    public queue, are exactly the tasks given, in the order given. *)
Theorem dq_fifo_exactly_once (id : Z) (ops : list ThreadWithDQ.Op) :
  (ThreadWithDQ.given ops < Util.SIZE_MOD)%N →
  ran (ThreadWithDQ.run (ThreadWithDQ.make id) ops).2
    ++ ThreadWithDQ.pending (ThreadWithDQ.run (ThreadWithDQ.make id) ops).1
  = ThreadWithDQ.given_tasks ops.
Proof.
  intros Hbound. destruct (make_consistent id) as [Hc Hl].
  rewrite run_pending by (rewrite ?Hl; done || lia). done.
Qed.

(** The run give 1, give 2, swap, give 3, consume, give 4. *)
Lemma dq_fifo_exactly_once_witness :
  let ops := [ThreadWithDQ.OpGive 1%nat; ThreadWithDQ.OpGive 2%nat;
              ThreadWithDQ.OpTrySwap; ThreadWithDQ.OpGive 3%nat;
              ThreadWithDQ.OpConsume; ThreadWithDQ.OpGive 4%nat] in
  (ThreadWithDQ.given ops < Util.SIZE_MOD)%N ∧
  ran (ThreadWithDQ.run (ThreadWithDQ.make 0) ops).2
    ++ ThreadWithDQ.pending (ThreadWithDQ.run (ThreadWithDQ.make 0) ops).1
  = [1%nat; 2%nat; 3%nat; 4%nat].
Proof.
  split; [reflexivity|].
  apply (dq_fifo_exactly_once 0
           [ThreadWithDQ.OpGive 1%nat; ThreadWithDQ.OpGive 2%nat;
            ThreadWithDQ.OpTrySwap; ThreadWithDQ.OpGive 3%nat;
            ThreadWithDQ.OpConsume; ThreadWithDQ.OpGive 4%nat]).
  reflexivity.
Defined.

(** ** activepool.h: what a round of the worker loop executes *)

Section WorkerRound.
Import ThreadWithDQ.

Lemma consumeTasks_private_empty (w : t) :
  deref (consumeTasks w).1 (privateQ_ (consumeTasks w).1) = [].
Proof.
  unfold consumeTasks. rewrite drain_all. cbn [fst].
  destruct (store_fields w (privateQ_ w) []) as (_ & _ & _ & Ed & _).
  cbn [set_counts privateQ_]. rewrite Ed, deref_set_counts. apply deref_store_same.
Qed.

Lemma round_oldest_first (w : t) :
  consistent w →
  consistent (round w).1 ∧
  ran (round w).2 ++ pending (round w).1 = pending w ∧
  deref (round w).1 (privateQ_ (round w).1) = [] ∧
  (deref w (privateQ_ w) = [] → pending (round w).1 = []) ∧
  (deref w (privateQ_ w) ≠ [] → ran (round w).2 = deref w (privateQ_ w)).
Proof.
  intros Hc. pose proof Hc as [Hne Hpub Hpri]. unfold round.
  destruct (trySwapQ_consistent w Hc) as (Hc1 & _ & _).
  destruct (trySwapQ_pending w Hc) as (Hp1 & Hr1).
  unfold trySwapQ in *.
  destruct (N.eqb_spec (privateTaskCount_ w) 0) as [Hzero|Hsome].
  - rewrite Hzero in Hpri. apply counted_empty in Hpri.
    destruct (N.eqb_spec (publicTaskCount_ w) 0) as [Hzero'|Hsome']; cbn [negb] in *.
    + rewrite Hzero' in Hpub. apply counted_empty in Hpub.
      cbn [Z.eqb Pos.eqb fst snd]. unfold pending. rewrite Hpri, Hpub. done.
    + destruct (swapQ w) as [w1 tr1] eqn:Esw. cbn [fst snd Z.eqb] in *.
      destruct (consumeTasks_consistent w1 Hc1) as (Hc2 & _ & _).
      destruct (consumeTasks_pending w1 Hc1) as (Hp2 & Hr2).
      pose proof (consumeTasks_private_empty w1) as He2.
      destruct (consumeTasks w1) as [w2 tr2]. cbn [fst snd] in *.
      rewrite ran_app, Hr1. cbn [app]. rewrite Hp2, Hp1.
      split; [done|]. split; [done|]. split; [done|]. split; [|done].
      intros _. unfold pending in *. rewrite He2 in *. cbn [app] in *.
      assert (Hw1 : deref w1 (publicQ_ w1) = []).
      { unfold swapQ in Esw. injection Esw as <- _.
        cbn [set_counts set_roles publicQ_]. rewrite !deref_set_counts.
        destruct w as [i a b [] [] q1 q2]; cbn in *; done. }
      rewrite Hr2 in Hp2. rewrite Hw1, app_nil_r in Hp2.
      apply (f_equal length) in Hp2. rewrite length_app in Hp2.
      destruct (deref w2 (publicQ_ w2)); [done|]. simpl in Hp2. lia.
  - cbn [fst snd Z.eqb] in *.
    destruct (consumeTasks_consistent w Hc) as (Hc2 & _ & _).
    destruct (consumeTasks_pending w Hc) as (Hp2 & Hr2).
    pose proof (consumeTasks_private_empty w) as He2.
    destruct (consumeTasks w) as [w2 tr2]. cbn [fst snd app] in *.
    split; [done|]. split; [done|]. split; [done|]. split; [|done].
    intros Hempty. rewrite Hempty in Hpri. simpl in Hpri. done.
Qed.

End WorkerRound.

(** X3.  The loop of an ACTIVE worker, as far as its double buffer goes
    ([trySwapQ], then [consumeTasks] unless the result was -1).  In any
    state reached from a fresh worker, one round executes the oldest batch
    in order (the private queue if it holds anything, else the public
    one); two rounds with no [giveTask] in between execute everything that
    was pending, oldest first, and leave both queues empty and both
    counters zero; a third round then executes nothing. *)
Theorem worker_rounds_drain (id : Z) (ops : list ThreadWithDQ.Op) :
  (ThreadWithDQ.given ops < Util.SIZE_MOD)%N →
  let w := (ThreadWithDQ.run (ThreadWithDQ.make id) ops).1 in
  let r1 := ThreadWithDQ.round w in
  let r2 := ThreadWithDQ.round r1.1 in
  let r3 := ThreadWithDQ.round r2.1 in
  (ThreadWithDQ.deref w (ThreadWithDQ.privateQ_ w) ≠ [] →
     ran r1.2 = ThreadWithDQ.deref w (ThreadWithDQ.privateQ_ w)) ∧
  (ThreadWithDQ.deref w (ThreadWithDQ.privateQ_ w) = [] →
     ran r1.2 = ThreadWithDQ.deref w (ThreadWithDQ.publicQ_ w)) ∧
  ran r1.2 ++ ran r2.2 = ThreadWithDQ.pending w ∧
  ThreadWithDQ.pending r2.1 = [] ∧
  ThreadWithDQ.publicTaskCount_ r2.1 = 0%N ∧
  ThreadWithDQ.privateTaskCount_ r2.1 = 0%N ∧
  ran r3.2 = [].
Proof.
  intros Hbound w r1 r2 r3.
  destruct (make_consistent id) as [Hc0 Hl0].
  destruct (run_consistent ops (ThreadWithDQ.make id) Hc0) as [Hc _].
  { rewrite Hl0. lia. }
  fold w in Hc.
  destruct (round_oldest_first w Hc) as (Hc1 & Hp1 & He1 & Hd1 & Ho1).
  fold r1 in Hc1, Hp1, He1, Hd1, Ho1.
  destruct (round_oldest_first r1.1 Hc1) as (Hc2 & Hp2 & He2 & Hd2 & _).
  fold r2 in Hc2, Hp2, He2, Hd2.
  destruct (round_oldest_first r2.1 Hc2) as (_ & Hp3 & _ & _ & _).
  fold r3 in Hp3.
  specialize (Hd2 He1). rewrite Hd2, app_nil_r in Hp2.
  split; [done|]. split.
  { intros Hempty. specialize (Hd1 Hempty). rewrite Hd1, app_nil_r in Hp1.
    rewrite Hp1. unfold ThreadWithDQ.pending. by rewrite Hempty. }
  split. { rewrite Hp2. done. }
  split; [done|].
  destruct Hc2 as [_ Hpub2 Hpri2].
  unfold ThreadWithDQ.pending in Hd2. apply app_eq_nil in Hd2 as [Hq1 Hq2].
  rewrite Hq2 in Hpub2. rewrite Hq1 in Hpri2.
  split; [done|]. split; [done|].
  assert (Hpend : ThreadWithDQ.pending r2.1 = []).
  { unfold ThreadWithDQ.pending. by rewrite Hq1, Hq2. }
  rewrite Hpend in Hp3. by apply app_eq_nil in Hp3 as [? _].
Qed.

(** Two tasks given to a fresh worker. *)
Lemma worker_rounds_drain_witness :
  let ops := [ThreadWithDQ.OpGive 1%nat; ThreadWithDQ.OpGive 2%nat] in
  (ThreadWithDQ.given ops < Util.SIZE_MOD)%N ∧
  ran (ThreadWithDQ.round (ThreadWithDQ.run (ThreadWithDQ.make 0) ops).1).2
    ++ ran (ThreadWithDQ.round
              (ThreadWithDQ.round (ThreadWithDQ.run (ThreadWithDQ.make 0) ops).1).1).2
  = ThreadWithDQ.pending (ThreadWithDQ.run (ThreadWithDQ.make 0) ops).1.
Proof.
  split; [reflexivity|].
  apply (worker_rounds_drain 0 [ThreadWithDQ.OpGive 1%nat; ThreadWithDQ.OpGive 2%nat]).
  reflexivity.
Defined.

(** ** activepool.h: a worker that runs before [start] has finished *)

Section ActiveEarlyWorker.
Import ActivePool.

Lemma start_in_two_parts (g : BasicThread.Statics) (p : t) (n : Z) :
  start g p n =
  (λ r : BasicThread.Statics * t * list Event, (r.1.1, start_commit r.1.2 n, r.2))
    <$> start_threads g p n.
Proof.
  unfold start, start_threads.
  destruct (Util.iterations _) as [k|]; [|done]. cbn [mbind option_bind].
  destruct (create_threads k g (threads_ p)) as [[g' ths]|]; [|done].
  cbn [mbind option_bind]. by destruct (start_all ths).
Qed.

(** The scan of [trySubmitTask] reads every slot below [curThreadCount_]:
    a null slot among them is dereferenced. *)
Lemma scan_null_slot (j : nat) (rest : list (option ThreadWithDQ.t)) (i : Z) (cur : N)
    (leastBusyTid minTaskCount : Z) :
  rest !! j = Some None →
  (∀ j', (j' < j)%nat → ∃ th, rest !! j' = Some (Some th)) →
  (0 ≤ i)%Z → (i + Z.of_nat j ≤ Util.INT_MAX)%Z →
  (Z.to_N (i + Z.of_nat j) < cur)%N →
  scan rest i cur leastBusyTid minTaskCount = None.
Proof.
  revert rest i leastBusyTid minTaskCount.
  induction j as [|j IH]; intros rest i least minc Hnull Halive Hi Hmax Hcur.
  - destruct rest as [|o rest]; [done|]. injection Hnull as ->.
    cbn [scan]. rewrite size_of_int_nonneg by lia.
    destruct (N.ltb_spec (Z.to_N i) cur); [done|lia].
  - destruct (Halive 0%nat) as [th Hth]; [lia|].
    destruct rest as [|o rest]; [done|]. injection Hth as ->.
    cbn [scan]. rewrite size_of_int_nonneg by lia.
    destruct (N.ltb_spec (Z.to_N i) cur); [|lia].
    destruct (Z.eqb_spec i Util.INT_MAX); [lia|].
    assert (Hnext : ∀ l m, scan rest (i + 1) cur l m = None).
    { intros l m. apply IH; [done| |lia|lia|].
      - intros j' Hj'. apply (Halive (S j')). lia.
      - replace (i + 1 + Z.of_nat j)%Z with (i + Z.of_nat (S j))%Z by lia. done. }
    destruct (_ <? _)%N; apply Hnext.
Qed.

Lemma trySubmitTask_null_slot (g : ThreadWithDQ.Statics) (p : t) (task : Task) (k : nat) :
  threads_ p !! k = Some None →
  (∀ j, (j < k)%nat → ∃ th, threads_ p !! j = Some (Some th)) →
  (Z.of_nat k ≤ Util.INT_MAX)%Z →
  (N.of_nat k < curThreadCount_ p)%N ∨ k = 0%nat →
  trySubmitTask g p task = None.
Proof.
  intros Hnull Halive Hmax Hcur. unfold trySubmitTask.
  destruct (threads_ p) as [|o rest] eqn:E; [done|].
  destruct k as [|k]; [by injection Hnull as ->|].
  destruct Hcur as [Hcur|]; [|done].
  destruct (Halive 0%nat) as [th0 Hth0]; [lia|]. injection Hth0 as ->.
  rewrite (scan_null_slot k rest 1 (curThreadCount_ p)); [done|done| |lia|lia|lia].
  intros j Hj. apply (Halive (S j)). lia.
Qed.

Lemma slot_of_index (p : t) (th0 : ThreadWithDQ.t) (k : nat) (threadId : Z) :
  threads_ p !! 0%nat = Some (Some th0) →
  threadId = (ThreadWithDQ.threadId_ th0 + Z.of_nat k)%Z →
  (k < length (threads_ p))%nat →
  slot_of p threadId = Some k.
Proof.
  intros H0 -> Hk. unfold slot_of.
  destruct (threads_ p) as [|o rest] eqn:E; [done|]. injection H0 as ->.
  replace (ThreadWithDQ.threadId_ th0 + Z.of_nat k - ThreadWithDQ.threadId_ th0)%Z
    with (Z.of_nat k) by lia.
  destruct (Z.ltb_spec (Z.of_nat k) 0); [lia|]. rewrite Nat2Z.id.
  by destruct (Nat.ltb_spec k (length (Some th0 :: rest))); [|lia].
Qed.

End ActiveEarlyWorker.

(** X4.  ACTIVE [start(n)] starts its threads before it stores
    [curThreadCount_] and [STATE_RUNNING].  A worker [k] whose loop
    function runs in between finds [state_ != STATE_RUNNING]: it executes
    nothing, clears its slot [threads_[k]], decrements [curThreadCount_]
    and returns.  Once [start] has stored [curThreadCount_ = n] and
    [STATE_RUNNING], the engine is running with that slot still null and
    counted, and the scan of every submit dereferences it. *)
Theorem active_worker_before_running (g : BasicThread.Statics)
    (gq : ThreadWithDQ.Statics) (n : Z) (k fuel : nat)
    (during_sleep : ActivePool.t → ActivePool.t) (task : Task) :
  (1 ≤ n)%Z → (0 ≤ BasicThread.threadIdBase g)%Z →
  (BasicThread.threadIdBase g + n ≤ Util.INT_MAX)%Z →
  (Z.of_nat k < n)%Z →
  ∃ g' p1 tr p2 tr2,
    ActivePool.start_threads g ActivePool.make n = Some (g', p1, tr) ∧
    ActivePool.state_ p1 = BasePool.STATE_INIT ∧
    ActivePool.threadFunc (S fuel) p1 (BasicThread.threadIdBase g + Z.of_nat k)
      = Some (p2, ActivePool.Returned, tr2) ∧
    ran tr2 = [] ∧
    ActivePool.threads_ p2 = <[k := None]> (ActivePool.threads_ p1) ∧
    ActivePool.start g ActivePool.make n = Some (g', ActivePool.start_commit p1 n, tr) ∧
    let p3 := ActivePool.start_commit p2 n in
    ActivePool.state_ p3 = BasePool.STATE_RUNNING ∧
    ActivePool.curThreadCount_ p3 = Z.to_N n ∧
    ActivePool.threads_ p3 !! k = Some None ∧
    ActivePool.submitTask gq p3 during_sleep task = (Undefined, p3, []).
Proof.
  intros Hn Hbase Hroom Hk.
  assert (Hthreads : ∃ tr,
    ActivePool.start_threads g ActivePool.make n =
      Some ({| BasicThread.threadIdBase := BasicThread.threadIdBase g + Z.of_nat (Z.to_nat n) |},
            {| ActivePool.state_ := BasePool.STATE_INIT;
               ActivePool.initThreadCount_ := Z.to_N n;
               ActivePool.curThreadCount_ := 0;
               ActivePool.threads_ :=
                 (λ i : nat, Some (ThreadWithDQ.make (BasicThread.threadIdBase g + Z.of_nat i)))
                   <$> seq 0 (Z.to_nat n) |}, tr)).
  { unfold ActivePool.start_threads. rewrite size_of_int_nonneg by lia.
    unfold Util.iterations.
    destruct (Z.leb_spec (Z.of_N (Z.to_N n)) Util.INT_MAX); [|lia].
    cbn [mbind option_bind]. rewrite active_create_threads by lia.
    cbn [mbind option_bind ActivePool.make ActivePool.threads_ ActivePool.state_
         ActivePool.curThreadCount_ app].
    replace (N.to_nat (Z.to_N n)) with (Z.to_nat n) by lia.
    set (ths := _ <$> seq 0 (Z.to_nat n)).
    destruct (start_all_alive ths) as [tr ->].
    { apply Forall_lookup. intros j o. unfold ths. rewrite list_lookup_fmap.
      destruct (seq 0 (Z.to_nat n) !! j); [|done]. intros [= <-]. by eexists. }
    by eexists. }
  destruct Hthreads as [tr Hst].
  set (ths := (λ i : nat, Some (ThreadWithDQ.make (BasicThread.threadIdBase g + Z.of_nat i)))
                <$> seq 0 (Z.to_nat n)) in *.
  assert (Hlen : length ths = Z.to_nat n) by (unfold ths; by rewrite length_fmap, length_seq).
  assert (Hlook : ∀ j, (j < Z.to_nat n)%nat →
            ths !! j = Some (Some (ThreadWithDQ.make (BasicThread.threadIdBase g + Z.of_nat j)))).
  { intros j Hj. unfold ths. rewrite list_lookup_fmap, lookup_seq_lt by done. done. }
  eexists _, _, tr, _, _. split; [exact Hst|]. split; [done|].
  split.
  { unfold ActivePool.threadFunc. cbn [ActivePool.threads_].
    rewrite (slot_of_index _ (ThreadWithDQ.make (BasicThread.threadIdBase g + Z.of_nat 0)) k);
      [| apply Hlook; lia | cbn; lia | cbn [ActivePool.threads_]; lia].
    reflexivity. }
  split; [done|]. split; [done|].
  split. { rewrite start_in_two_parts, Hst. done. }
  cbn zeta. split; [done|]. split; [cbn; by rewrite size_of_int_nonneg by lia|].
  assert (Hnull : <[k:=None]> ths !! k = Some None).
  { apply list_lookup_insert_eq. lia. }
  split; [exact Hnull|].
  unfold ActivePool.submitTask.
  rewrite trySubmitTask_null_slot with (k := k); [done|exact Hnull| |lia|].
  - intros j Hj. cbn [ActivePool.start_commit ActivePool.threads_].
    rewrite list_lookup_insert_ne by lia. rewrite Hlook by lia. by eexists.
  - left. cbn [ActivePool.start_commit ActivePool.curThreadCount_].
    rewrite size_of_int_nonneg by lia. lia.
Qed.

(** [start(2)] on a fresh engine; worker 1 runs early. *)
Lemma active_worker_before_running_witness :
  (1 ≤ 2)%Z ∧ (0 ≤ BasicThread.threadIdBase BasicThread.initial_statics)%Z ∧
  (BasicThread.threadIdBase BasicThread.initial_statics + 2 ≤ Util.INT_MAX)%Z ∧
  (Z.of_nat 1 < 2)%Z ∧
  ∃ g' p1 tr p2 tr2,
    ActivePool.start_threads BasicThread.initial_statics ActivePool.make 2
      = Some (g', p1, tr) ∧
    ActivePool.threadFunc 1 p1 (BasicThread.threadIdBase BasicThread.initial_statics + Z.of_nat 1)
      = Some (p2, ActivePool.Returned, tr2) ∧
    ActivePool.submitTask ThreadWithDQ.initial_statics (ActivePool.start_commit p2 2)
      (λ p, p) 7%nat
    = (Undefined, ActivePool.start_commit p2 2, []).
Proof.
  split; [lia|]. split; [reflexivity|]. split; [vm_compute; discriminate|].
  split; [reflexivity|].
  destruct (active_worker_before_running BasicThread.initial_statics
              ThreadWithDQ.initial_statics 2 1 0 (λ p, p) 7%nat)
    as (g' & p1 & tr & p2 & tr2 & H1 & _ & H3 & _ & _ & _ & _ & _ & _ & H9).
  - lia.
  - reflexivity.
  - vm_compute. discriminate.
  - reflexivity.
  - exists g', p1, tr, p2, tr2. split; [exact H1|]. split; [exact H3|exact H9].
Defined.

(** ** fixedpool.h: [start] and the worker loop *)

Section FixedStart.
Import BasePool FixedPool.

Lemma start_all_length (m : gmap Z BasicThread.Thread) :
  length (ThreadTable.start_all m) = size m.
Proof.
  unfold ThreadTable.start_all. rewrite <- length_map_to_list.
  induction (map_to_list m) as [|kv l IH]; [done|].
  rewrite fmap_cons. cbn [concat BasicThread.start app length]. by rewrite IH.
Qed.

End FixedStart.

(** X5.  FIXED [start(n)] for [0 <= n] with enough thread ids left, on any
    pool whose table holds only ids handed out before.  The call does not
    look at the state: it sets [STATE_RUNNING], adds exactly [n] new
    workers to whatever the table holds, advances the id generator by [n],
    starts every thread of the table (one start per entry, the earlier
    entries included), and sets [initThreadCount_], [curThreadCount_] and
    [idleThreadCount_] to [n], the argument of this call.  The queue, its
    counter and the capacity are untouched. *)
Theorem fixed_start_adds_workers (g : BasicThread.Statics) (p : FixedPool.t) (n : Z) :
  ThreadTable.ids_below g (FixedPool.threads_ p) →
  (0 ≤ n)%Z → (0 ≤ BasicThread.threadIdBase g)%Z →
  (BasicThread.threadIdBase g + n ≤ Util.INT_MAX)%Z →
  ∃ g' p' tr,
    FixedPool.start g p n = Some (g', p', tr) ∧
    FixedPool.state_ p' = BasePool.STATE_RUNNING ∧
    size (FixedPool.threads_ p') = (size (FixedPool.threads_ p) + Z.to_nat n)%nat ∧
    BasicThread.threadIdBase g' = (BasicThread.threadIdBase g + n)%Z ∧
    ThreadTable.ids_below g' (FixedPool.threads_ p') ∧
    length tr = size (FixedPool.threads_ p') ∧
    FixedPool.initThreadCount_ p' = Z.to_N n ∧
    FixedPool.curThreadCount_ p' = Z.to_N n ∧
    FixedPool.idleThreadCount_ p' = Z.to_N n ∧
    FixedPool.taskQueue_ p' = FixedPool.taskQueue_ p ∧
    FixedPool.taskCount_ p' = FixedPool.taskCount_ p ∧
    FixedPool.taskMaxCount_ p' = FixedPool.taskMaxCount_ p.
Proof.
  intros Hbelow Hn Hbase Hroom. unfold FixedPool.start.
  rewrite size_of_int_nonneg by lia. unfold Util.iterations.
  destruct (Z.leb_spec (Z.of_N (Z.to_N n)) Util.INT_MAX); [|lia].
  cbn [mbind option_bind].
  destruct (create_threads_size (N.to_nat (Z.to_N n)) g (FixedPool.threads_ p) Hbelow)
    as (g' & m' & Hc & Hsize & Hnext & Hbelow'); [lia|].
  rewrite Hc. cbn [mbind option_bind]. eexists _, _, _. split; [done|].
  cbn [FixedPool.state_ FixedPool.threads_ FixedPool.initThreadCount_
       FixedPool.curThreadCount_ FixedPool.idleThreadCount_ FixedPool.taskQueue_
       FixedPool.taskCount_ FixedPool.taskMaxCount_].
  rewrite start_all_length, Hsize, Hnext.
  repeat split; try done; lia.
Qed.

(** [start(3)] on a fresh engine. *)
Lemma fixed_start_adds_workers_witness :
  ThreadTable.ids_below BasicThread.initial_statics (FixedPool.threads_ FixedPool.make) ∧
  ∃ g' p' tr,
    FixedPool.start BasicThread.initial_statics FixedPool.make 3 = Some (g', p', tr) ∧
    size (FixedPool.threads_ p') = 3%nat ∧
    FixedPool.curThreadCount_ p' = 3%N.
Proof.
  assert (Hbelow : ThreadTable.ids_below BasicThread.initial_statics
                     (FixedPool.threads_ FixedPool.make)).
  { intros id th. cbn. by rewrite lookup_empty. }
  split; [exact Hbelow|].
  destruct (fixed_start_adds_workers BasicThread.initial_statics FixedPool.make 3 Hbelow)
    as (g' & p' & tr & Hs & _ & Hsize & _ & _ & _ & _ & Hcur & _).
  - lia.
  - reflexivity.
  - vm_compute. discriminate.
  - exists g', p', tr. split; [exact Hs|]. split; [exact Hsize | exact Hcur].
Defined.

Section FixedLoop.
Import BasePool FixedPool.

Lemma after_inner_took (p p' : t) (at' : Position) (tr : list Event) :
  after_inner p = Some (p', at', tr) →
  took_front p p' at' ∧ ran tr = [] ∧ (at' = Leaving ↔ state_ p = STATE_EXITING).
Proof.
  unfold after_inner. case_bool_decide as Hex.
  - intros [= <- <- <-]. repeat split; done.
  - destruct (taskQueue_ p) as [|task q] eqn:Eq; [done|].
    intros [= <- <- <-]. split; [|split; [|done]].
    + unfold took_front, take_task. cbn. rewrite Eq. done.
    + by case_bool_decide.
Qed.

Lemma inner_test_took (p p' : t) (at' : Position) (tr : list Event) :
  inner_test p = Some (p', at', tr) →
  took_front p p' at' ∧ ran tr = [] ∧ (at' = Leaving ↔ state_ p = STATE_EXITING).
Proof.
  unfold inner_test. case_bool_decide as Hrun; [case_bool_decide as Hemp|];
    cbn [andb]; try apply after_inner_took.
  intros [= <- <- <-]. rewrite Hrun. repeat split; done.
Qed.

Lemma outer_test_took (p p' : t) (at' : Position) (tr : list Event) :
  outer_test p = Some (p', at', tr) →
  took_front p p' at' ∧ ran tr = [] ∧ (at' = Leaving ↔ state_ p ≠ STATE_RUNNING).
Proof.
  unfold outer_test. case_bool_decide as Hrun.
  - intros H. apply inner_test_took in H as (? & ? & Hl).
    split; [done|]. split; [done|]. rewrite Hl, Hrun. split; done.
  - intros [= <- <- <-]. repeat split; done.
Qed.

Lemma wake_took (p p' : t) (at' : Position) (tr : list Event) :
  wake p = Some (p', at', tr) →
  took_front p p' at' ∧ ran tr = [] ∧ (at' = Leaving ↔ state_ p = STATE_EXITING).
Proof.
  unfold wake. destruct (_ || _) eqn:Hpred; [apply inner_test_took|].
  intros [= <- <- <-]. apply orb_false_iff in Hpred as [_ Hex].
  apply bool_decide_eq_false in Hex. repeat split; done.
Qed.

Lemma finish_took (p p' : t) (task : Task) (at' : Position) (tr : list Event) :
  finish p task = Some (p', at', tr) →
  took_front p p' at' ∧ ran tr = [task] ∧ (at' = Leaving ↔ state_ p ≠ STATE_RUNNING).
Proof.
  unfold finish. destruct (outer_test _) as [[[p2 at2] tr2]|] eqn:Hout; [|done].
  cbn [mbind option_bind]. intros [= <- <- <-].
  apply outer_test_took in Hout as (Ht & Hr & Hl). cbn in Ht, Hl.
  split; [done|]. split; [|done]. cbn [ran]. by rewrite Hr.
Qed.

(** One step of a schedule: the queue loses what was taken at the front
    and gains what was accepted at the back; [taskCount_] follows. *)
Lemma exec_queue (s : Sys) (a : Action) (st : Step) :
  exec s a = Some st →
  took st ++ taskQueue_ (pool (after st)) = taskQueue_ (pool s) ++ accepted st ∧
  taskMaxCount_ (pool (after st)) = taskMaxCount_ (pool s) ∧
  (counted (pool s) → counted (pool (after st))).
Proof.
  assert (Hworker : ∀ id p' at' tr,
            took_front (pool s) p' at' →
            let st := worker_step s id (p', at', tr) in
            took st ++ taskQueue_ (pool (after st)) = taskQueue_ (pool s) ++ accepted st ∧
            taskMaxCount_ (pool (after st)) = taskMaxCount_ (pool s) ∧
            (counted (pool s) → counted (pool (after st)))).
  { intros id p' at' tr (_ & _ & _ & _ & Hmax & Hq). cbn.
    rewrite app_nil_r. unfold counted. rewrite Hmax.
    destruct at' as [| |task| |]; try done.
    - destruct Hq as [-> ->]. done.
    - destruct Hq as [Hq Hc]. rewrite Hq, Hc. split; [done|]. split; [done|].
      intros (Hcount & Hle & Hmod). rewrite Hcount. cbn [length] in *.
      rewrite size_decr_pos by lia. repeat split; lia.
    - destruct Hq as [-> ->]. done. }
  destruct a as [n|task|id|id|id|id|]; cbn [exec].
  - destruct (start _ _ _) as [[[g p] tr]|] eqn:Hs; [|done].
    cbn [mbind option_bind]. intros [= <-]. cbn.
    unfold start in Hs. destruct (Util.iterations _); [|done].
    cbn [mbind option_bind] in Hs.
    destruct (ThreadTable.create_threads _ _ _) as [[g1 m1]|]; [|done].
    injection Hs as _ <- _. cbn. rewrite app_nil_r. done.
  - unfold submitTask. case_bool_decide as Hrun; cbn [negb].
    + rewrite wait_for_quiet. destruct (has_room (pool s)) eqn:Hroom; cbn [negb].
      * intros [= <-]. cbn. split; [done|]. split; [done|].
        unfold counted. cbn. intros (Hcount & Hle & Hmod).
        unfold has_room in Hroom. apply N.ltb_lt in Hroom.
        rewrite Hcount, length_app, size_incr_small; simpl; lia.
      * intros [= <-]. cbn. by rewrite app_nil_r.
    + intros [= <-]. cbn. by rewrite app_nil_r.
  - destruct (workers s !! id) as [[]|]; try done. cbn [mbind option_bind].
    destruct (outer_test _) as [[[p' at'] tr]|] eqn:H; [|done].
    intros [= <-]. apply outer_test_took in H as (Ht & _). by apply Hworker.
  - destruct (workers s !! id) as [[]|]; try done. cbn [mbind option_bind].
    destruct (wake _) as [[[p' at'] tr]|] eqn:H; [|done].
    intros [= <-]. apply wake_took in H as (Ht & _). by apply Hworker.
  - destruct (workers s !! id) as [[| |task| |]|]; try done. cbn [mbind option_bind].
    destruct (finish _ _) as [[[p' at'] tr]|] eqn:H; [|done].
    intros [= <-]. apply finish_took in H as (Ht & _). by apply Hworker.
  - destruct (workers s !! id) as [[]|]; try done. cbn [mbind option_bind].
    intros [= <-]. cbn. by rewrite app_nil_r.
  - intros [= <-]. cbn. by rewrite app_nil_r.
Qed.

End FixedLoop.

(** X6.  The FIXED task queue is first-in first-out under any schedule of
    submissions and worker steps: the tasks the workers have taken, in the
    order they took them, followed by the queue, are the old queue followed
    by the tasks whose submission was accepted, in that order.  A refused
    submission never shows up, and nothing is taken twice.  Along the way
    [taskCount_] is the length of the queue, which stays within
    [taskMaxCount_]. *)
Theorem fixed_queue_fifo (acts : list FixedPool.Action) (s : FixedPool.Sys)
    (st : FixedPool.Step) :
  FixedPool.exec_all s acts = Some st →
  FixedPool.took st ++ FixedPool.taskQueue_ (FixedPool.pool (FixedPool.after st))
    = FixedPool.taskQueue_ (FixedPool.pool s) ++ FixedPool.accepted st ∧
  (FixedPool.counted (FixedPool.pool s) →
   FixedPool.counted (FixedPool.pool (FixedPool.after st))).
Proof.
  revert s st. induction acts as [|a acts IH]; intros s st.
  - intros [= <-]. cbn. by rewrite app_nil_r.
  - cbn [FixedPool.exec_all].
    destruct (FixedPool.exec s a) as [st1|] eqn:H1; [|done]. cbn [mbind option_bind].
    destruct (FixedPool.exec_all (FixedPool.after st1) acts) as [st2|] eqn:H2; [|done].
    cbn [mbind option_bind]. intros [= <-]. cbn.
    apply exec_queue in H1 as (Hq1 & _ & Hc1). apply IH in H2 as (Hq2 & Hc2).
    split; [|by intros ?%Hc1%Hc2].
    rewrite <- app_assoc, Hq2, !app_assoc, Hq1. done.
Qed.

(** Two workers, three tasks. *)
Lemma fixed_queue_fifo_witness :
  ∃ st,
    FixedPool.exec_all FixedPool.initial_sys FixedPool.busy_schedule = Some st ∧
    FixedPool.took st ++ FixedPool.taskQueue_ (FixedPool.pool (FixedPool.after st))
      = FixedPool.taskQueue_ (FixedPool.pool FixedPool.initial_sys) ++ FixedPool.accepted st ∧
    FixedPool.took st = [1%nat; 2%nat; 3%nat].
Proof.
  eexists. split; [vm_compute; reflexivity|].
  split; [|reflexivity].
  eapply (fixed_queue_fifo FixedPool.busy_schedule FixedPool.initial_sys).
  vm_compute. reflexivity.
Defined.

Section FixedPopulation.
Import BasePool FixedPool.

Lemma exec_in_loop (s : Sys) (a : Action) (st : Step) :
  all_in_loop s → ordinary a → exec s a = Some st →
  all_in_loop (after st) ∧
  curThreadCount_ (pool (after st)) = curThreadCount_ (pool s) ∧
  initThreadCount_ (pool (after st)) = initThreadCount_ (pool s) ∧
  threads_ (pool (after st)) = threads_ (pool s).
Proof.
  intros [Hrun Hws] Hord.
  assert (Hworker : ∀ id p' at' tr,
            took_front (pool s) p' at' → at' ≠ Leaving →
            let st := worker_step s id (p', at', tr) in
            all_in_loop (after st) ∧
            curThreadCount_ (pool (after st)) = curThreadCount_ (pool s) ∧
            initThreadCount_ (pool (after st)) = initThreadCount_ (pool s) ∧
            threads_ (pool (after st)) = threads_ (pool s)).
  { intros id p' at' tr (Hst & Hinit & Hcur & Hths & _ & Hq) Hstay. cbn.
    split; [|done]. split; [cbn; congruence|]. cbn. intros id' at0.
    rewrite lookup_insert. case_decide as Hid.
    - intros [= <-]. split; [done|]. intros ->. done.
    - apply Hws. }
  destruct a as [n|task|id|id|id|id|]; cbn [exec]; try done.
  - unfold submitTask. rewrite Hrun, bool_decide_eq_true_2 by done. cbn [negb].
    rewrite wait_for_quiet.
    destruct (has_room (pool s)); cbn [negb]; intros [= <-]; cbn; done.
  - destruct (workers s !! id) as [[]|]; try done. cbn [mbind option_bind].
    destruct (outer_test _) as [[[p' at'] tr]|] eqn:H; [|done].
    intros [= <-]. apply outer_test_took in H as (Ht & _ & Hl).
    apply Hworker; [done|]. intros Hleft. apply Hl in Hleft. done.
  - destruct (workers s !! id) as [[]|]; try done. cbn [mbind option_bind].
    destruct (wake _) as [[[p' at'] tr]|] eqn:H; [|done].
    intros [= <-]. apply wake_took in H as (Ht & _ & Hl).
    apply Hworker; [done|]. intros Hleft. apply Hl in Hleft. congruence.
  - destruct (workers s !! id) as [[| |task| |]|]; try done. cbn [mbind option_bind].
    destruct (finish _ _) as [[[p' at'] tr]|] eqn:H; [|done].
    intros [= <-]. apply finish_took in H as (Ht & _ & Hl).
    apply Hworker; [done|]. intros Hleft. apply Hl in Hleft. done.
  - destruct (workers s !! id) as [at0|] eqn:Hid; [|done].
    destruct (Hws id at0 Hid) as [Hnl _]. by destruct at0.
Qed.

End FixedPopulation.

(** X7.  FIXED keeps its population while it runs.  From a state in which
    the engine is running and every worker is in its loop, any schedule of
    submissions and worker steps (no further [start], no destructor)
    leaves the engine running with every worker still in its loop: no
    worker ever gets to the clean-up, so [curThreadCount_],
    [initThreadCount_] and the thread table stay as they were. *)
Theorem fixed_population_constant (acts : list FixedPool.Action) (s : FixedPool.Sys)
    (st : FixedPool.Step) :
  FixedPool.all_in_loop s →
  Forall FixedPool.ordinary acts →
  FixedPool.exec_all s acts = Some st →
  FixedPool.all_in_loop (FixedPool.after st) ∧
  FixedPool.curThreadCount_ (FixedPool.pool (FixedPool.after st))
    = FixedPool.curThreadCount_ (FixedPool.pool s) ∧
  FixedPool.initThreadCount_ (FixedPool.pool (FixedPool.after st))
    = FixedPool.initThreadCount_ (FixedPool.pool s) ∧
  FixedPool.threads_ (FixedPool.pool (FixedPool.after st))
    = FixedPool.threads_ (FixedPool.pool s) ∧
  ∀ id, FixedPool.exec (FixedPool.after st) (FixedPool.ActCleanup id) = None.
Proof.
  revert s st. induction acts as [|a acts IH]; intros s st Hloop Hord.
  - intros [= <-]. cbn [FixedPool.after].
    split; [done|]. split; [done|]. split; [done|]. split; [done|].
    intros id. cbn [FixedPool.exec].
    destruct (FixedPool.workers s !! id) as [at0|] eqn:Hid; [|done].
    destruct Hloop as [_ Hws]. destruct (Hws id at0 Hid) as [Hnl _]. by destruct at0.
  - apply Forall_cons in Hord as [Ha Hord]. cbn [FixedPool.exec_all].
    destruct (FixedPool.exec s a) as [st1|] eqn:H1; [|done]. cbn [mbind option_bind].
    destruct (FixedPool.exec_all (FixedPool.after st1) acts) as [st2|] eqn:H2; [|done].
    cbn [mbind option_bind]. intros [= <-]. cbn [FixedPool.after].
    apply exec_in_loop in H1 as (Hloop1 & Hc1 & Hi1 & Ht1); [|done|done].
    destruct (IH _ _ Hloop1 Hord H2) as (Hloop2 & Hc2 & Hi2 & Ht2 & Hno).
    split; [done|]. split; [congruence|]. split; [congruence|].
    split; [congruence|done].
Qed.

(** The state [start(2)] leaves, and the rest of the busy schedule. *)
Lemma fixed_population_constant_witness :
  FixedPool.all_in_loop FixedPool.started_sys ∧
  Forall FixedPool.ordinary (tail FixedPool.busy_schedule) ∧
  ∃ st,
    FixedPool.exec_all FixedPool.started_sys (tail FixedPool.busy_schedule) = Some st ∧
    FixedPool.curThreadCount_ (FixedPool.pool (FixedPool.after st))
      = FixedPool.curThreadCount_ (FixedPool.pool FixedPool.started_sys).
Proof.
  assert (Hloop : FixedPool.all_in_loop FixedPool.started_sys).
  { split; [reflexivity|]. intros id at0. vm_compute.
    destruct id as [|[[]|[]|]|]; intros [= <-]; split; discriminate. }
  assert (Hord : Forall FixedPool.ordinary (tail FixedPool.busy_schedule)).
  { repeat constructor. }
  split; [exact Hloop|]. split; [exact Hord|].
  destruct (FixedPool.exec_all FixedPool.started_sys (tail FixedPool.busy_schedule))
    as [st|] eqn:E; [|vm_compute in E; discriminate].
  exists st. split; [reflexivity|].
  destruct (fixed_population_constant _ _ _ Hloop Hord E) as (_ & Hcur & _).
  exact Hcur.
Defined.

Section FixedShutdown.
Import BasePool FixedPool.

Lemma exiting_outer_test (p : t) :
  state_ p = STATE_EXITING → outer_test p = Some (p, Leaving, []).
Proof. intros H. unfold outer_test. by rewrite H. Qed.

Lemma exiting_wake (p : t) :
  state_ p = STATE_EXITING → wake p = Some (p, Leaving, []).
Proof.
  intros H. unfold wake, inner_test, after_inner. rewrite H.
  rewrite (bool_decide_eq_true_2 (STATE_EXITING = STATE_EXITING)) by done.
  by rewrite orb_true_r.
Qed.

End FixedShutdown.

(** X8.  FIXED after the destructor has stored [STATE_EXITING]: whatever a
    worker is doing, its next step takes it out of its loop without taking
    a task, and its clean-up then erases it from the table and decrements
    [curThreadCount_]; the other workers are not affected.  The tasks
    still in the queue stay there: no worker takes one any more. *)
Theorem fixed_shutdown_abandons_queue (s : FixedPool.Sys) (id : Z)
    (at0 : FixedPool.Position) :
  FixedPool.state_ (FixedPool.pool s) = BasePool.STATE_EXITING →
  FixedPool.workers s !! id = Some at0 →
  at0 ≠ FixedPool.Exited →
  ∃ acts st,
    (length acts ≤ 2)%nat ∧
    FixedPool.exec_all s acts = Some st ∧
    FixedPool.workers (FixedPool.after st) !! id = Some FixedPool.Exited ∧
    (∀ id', id' ≠ id →
       FixedPool.workers (FixedPool.after st) !! id' = FixedPool.workers s !! id') ∧
    FixedPool.threads_ (FixedPool.pool (FixedPool.after st))
      = delete id (FixedPool.threads_ (FixedPool.pool s)) ∧
    FixedPool.curThreadCount_ (FixedPool.pool (FixedPool.after st))
      = Util.size_decr (FixedPool.curThreadCount_ (FixedPool.pool s)) ∧
    FixedPool.state_ (FixedPool.pool (FixedPool.after st)) = BasePool.STATE_EXITING ∧
    FixedPool.took st = [] ∧
    FixedPool.taskQueue_ (FixedPool.pool (FixedPool.after st))
      = FixedPool.taskQueue_ (FixedPool.pool s).
Proof.
  intros Hex Hid Hlive.
  assert (Hlast : ∀ s1 : FixedPool.Sys,
            FixedPool.workers s1 !! id = Some FixedPool.Leaving →
            ∃ st, FixedPool.exec_all s1 [FixedPool.ActCleanup id] = Some st ∧
                  FixedPool.after st =
                    {| FixedPool.statics := FixedPool.statics s1;
                       FixedPool.pool := (FixedPool.cleanup (FixedPool.pool s1) id).1.1;
                       FixedPool.workers := <[id := FixedPool.Exited]> (FixedPool.workers s1) |} ∧
                  FixedPool.took st = []).
  { intros s1 H1. cbn [FixedPool.exec_all FixedPool.exec]. rewrite H1.
    cbn [mbind option_bind]. eexists. split; [done|]. done. }
  assert (Hfirst : ∀ (a : FixedPool.Action) (p1 : FixedPool.t) (tr : list Event),
            FixedPool.exec s a =
              Some (FixedPool.worker_step s id (p1, FixedPool.Leaving, tr)) →
            FixedPool.threads_ p1 = FixedPool.threads_ (FixedPool.pool s) →
            FixedPool.curThreadCount_ p1 = FixedPool.curThreadCount_ (FixedPool.pool s) →
            FixedPool.state_ p1 = BasePool.STATE_EXITING →
            FixedPool.taskQueue_ p1 = FixedPool.taskQueue_ (FixedPool.pool s) →
            ∃ st, FixedPool.exec_all s [a; FixedPool.ActCleanup id] = Some st ∧
              FixedPool.workers (FixedPool.after st) !! id = Some FixedPool.Exited ∧
              (∀ id', id' ≠ id →
                 FixedPool.workers (FixedPool.after st) !! id' = FixedPool.workers s !! id') ∧
              FixedPool.threads_ (FixedPool.pool (FixedPool.after st))
                = delete id (FixedPool.threads_ (FixedPool.pool s)) ∧
              FixedPool.curThreadCount_ (FixedPool.pool (FixedPool.after st))
                = Util.size_decr (FixedPool.curThreadCount_ (FixedPool.pool s)) ∧
              FixedPool.state_ (FixedPool.pool (FixedPool.after st)) = BasePool.STATE_EXITING ∧
              FixedPool.took st = [] ∧
              FixedPool.taskQueue_ (FixedPool.pool (FixedPool.after st))
                = FixedPool.taskQueue_ (FixedPool.pool s)).
  { intros a p1 tr Ha Hths Hcur Hst Hq.
    remember [FixedPool.ActCleanup id] as rest.
    cbn [FixedPool.exec_all]. rewrite Ha. cbn [mbind option_bind]. subst rest.
    destruct (Hlast (FixedPool.after (FixedPool.worker_step s id (p1, FixedPool.Leaving, tr))))
      as (st & Hst2 & Hafter & Htook).
    { cbn. apply lookup_insert_eq. }
    rewrite Hst2. cbn [mbind option_bind]. eexists. split; [done|].
    cbn [FixedPool.after FixedPool.took]. rewrite Hafter, Htook. cbn.
    rewrite lookup_insert_eq, Hths, Hcur, Hq.
    repeat split; try done.
    intros id' Hne. by rewrite !lookup_insert_ne. }
  destruct at0 as [| |task| |]; [| | | |done].
  - exists [FixedPool.ActBegin id; FixedPool.ActCleanup id].
    destruct (Hfirst (FixedPool.ActBegin id) (FixedPool.pool s) []) as (st & H); try done.
    { cbn [FixedPool.exec]. rewrite Hid. cbn [mbind option_bind].
      by rewrite exiting_outer_test. }
    exists st. split; [simpl; lia|done].
  - exists [FixedPool.ActWake id; FixedPool.ActCleanup id].
    destruct (Hfirst (FixedPool.ActWake id) (FixedPool.pool s) []) as (st & H); try done.
    { cbn [FixedPool.exec]. rewrite Hid. cbn [mbind option_bind].
      by rewrite exiting_wake. }
    exists st. split; [simpl; lia|done].
  - exists [FixedPool.ActFinish id; FixedPool.ActCleanup id].
    edestruct (Hfirst (FixedPool.ActFinish id)) as (st & H); cycle 5.
    { exists st. split; [simpl; lia|exact H]. }
    { cbn [FixedPool.exec]. rewrite Hid. cbn [mbind option_bind].
      unfold FixedPool.finish. rewrite exiting_outer_test by done.
      cbn [mbind option_bind fmap option_fmap option_map]. reflexivity. }
    all: done.
  - exists [FixedPool.ActCleanup id].
    destruct (Hlast s Hid) as (st & Hst & Hafter & Htook).
    exists st. split; [simpl; lia|]. split; [done|].
    rewrite Hafter, Htook. cbn. rewrite lookup_insert_eq.
    repeat split; try done. intros id' Hne. by rewrite lookup_insert_ne.
Qed.

(** Worker 0 is executing task 3 and task 4 is queued when the destructor
    runs. *)
Lemma fixed_shutdown_abandons_queue_witness :
  FixedPool.state_ (FixedPool.pool FixedPool.exiting_sys) = BasePool.STATE_EXITING ∧
  FixedPool.workers FixedPool.exiting_sys !! 0%Z = Some (FixedPool.Executing 3%nat) ∧
  FixedPool.taskQueue_ (FixedPool.pool FixedPool.exiting_sys) = [4%nat] ∧
  ∃ acts st,
    FixedPool.exec_all FixedPool.exiting_sys acts = Some st ∧
    FixedPool.workers (FixedPool.after st) !! 0%Z = Some FixedPool.Exited ∧
    FixedPool.taskQueue_ (FixedPool.pool (FixedPool.after st))
      = FixedPool.taskQueue_ (FixedPool.pool FixedPool.exiting_sys).
Proof.
  split; [reflexivity|]. split; [reflexivity|]. split; [reflexivity|].
  destruct (fixed_shutdown_abandons_queue FixedPool.exiting_sys 0
              (FixedPool.Executing 3%nat))
    as (acts & st & _ & Hrun & Hgone & _ & _ & _ & _ & _ & Hq).
  - reflexivity.
  - reflexivity.
  - discriminate.
  - exists acts, st. split; [exact Hrun|]. split; [exact Hgone | exact Hq].
Defined.

(** ** cachedpoo.h: [start], the limits and the growth on submit *)

(** X9.  CACHED [start(n)] for [0 <= n <= maxThreadCount_] with enough
    thread ids left, on any pool whose table holds only ids handed out
    before: the engine is running, exactly [n] workers have been added to
    the table and every thread of the table started, and
    [initThreadCount_], [curThreadCount_] and [idleThreadCount_] are all
    [n]; the three limits and the queue are untouched. *)
Theorem cached_start_within_limit (g : BasicThread.Statics) (p : CachedPool.t) (n : Z) :
  ThreadTable.ids_below g (CachedPool.threads_ p) →
  (0 ≤ n)%Z → (Z.to_N n ≤ CachedPool.maxThreadCount_ p)%N →
  (0 ≤ BasicThread.threadIdBase g)%Z →
  (BasicThread.threadIdBase g + n ≤ Util.INT_MAX)%Z →
  ∃ g' p' tr,
    CachedPool.start g p n = Some (g', p', tr) ∧
    CachedPool.state_ p' = BasePool.STATE_RUNNING ∧
    size (CachedPool.threads_ p') = (size (CachedPool.threads_ p) + Z.to_nat n)%nat ∧
    BasicThread.threadIdBase g' = (BasicThread.threadIdBase g + n)%Z ∧
    length tr = size (CachedPool.threads_ p') ∧
    CachedPool.initThreadCount_ p' = Z.to_N n ∧
    CachedPool.curThreadCount_ p' = Z.to_N n ∧
    CachedPool.idleThreadCount_ p' = Z.to_N n ∧
    (CachedPool.curThreadCount_ p' ≤ CachedPool.maxThreadCount_ p')%N ∧
    CachedPool.maxThreadCount_ p' = CachedPool.maxThreadCount_ p ∧
    CachedPool.threadMaxIdleSec_ p' = CachedPool.threadMaxIdleSec_ p ∧
    CachedPool.taskMaxCount_ p' = CachedPool.taskMaxCount_ p ∧
    CachedPool.taskQueue_ p' = CachedPool.taskQueue_ p ∧
    CachedPool.taskCount_ p' = CachedPool.taskCount_ p.
Proof.
  intros Hbelow Hn Hmax Hbase Hroom. unfold CachedPool.start.
  rewrite size_of_int_nonneg by lia.
  destruct (N.ltb_spec (CachedPool.maxThreadCount_ p) (Z.to_N n)); [lia|].
  unfold Util.iterations.
  destruct (Z.leb_spec (Z.of_N (Z.to_N n)) Util.INT_MAX); [|lia].
  cbn [mbind option_bind].
  destruct (create_threads_size (N.to_nat (Z.to_N n)) g (CachedPool.threads_ p) Hbelow)
    as (g' & m' & Hc & Hsize & Hnext & _); [lia|].
  rewrite Hc. cbn [mbind option_bind]. eexists _, _, _. split; [done|].
  cbn [CachedPool.state_ CachedPool.threads_ CachedPool.initThreadCount_
       CachedPool.curThreadCount_ CachedPool.idleThreadCount_ CachedPool.taskQueue_
       CachedPool.taskCount_ CachedPool.taskMaxCount_ CachedPool.maxThreadCount_
       CachedPool.threadMaxIdleSec_].
  rewrite start_all_length, Hsize, Hnext.
  repeat split; try done; lia.
Qed.

(** [start(4)] on a fresh engine. *)
Lemma cached_start_within_limit_witness :
  ThreadTable.ids_below BasicThread.initial_statics (CachedPool.threads_ CachedPool.make) ∧
  (Z.to_N 4 ≤ CachedPool.maxThreadCount_ CachedPool.make)%N ∧
  ∃ g' p' tr,
    CachedPool.start BasicThread.initial_statics CachedPool.make 4 = Some (g', p', tr) ∧
    size (CachedPool.threads_ p') = 4%nat ∧
    CachedPool.curThreadCount_ p' = 4%N.
Proof.
  assert (Hbelow : ThreadTable.ids_below BasicThread.initial_statics
                     (CachedPool.threads_ CachedPool.make)).
  { intros id th. cbn. by rewrite lookup_empty. }
  split; [exact Hbelow|]. split; [vm_compute; discriminate|].
  destruct (cached_start_within_limit BasicThread.initial_statics CachedPool.make 4 Hbelow)
    as (g' & p' & tr & Hs & _ & Hsize & _ & _ & _ & Hcur & _).
  - lia.
  - vm_compute. discriminate.
  - reflexivity.
  - vm_compute. discriminate.
  - exists g', p', tr. split; [exact Hs|]. split; [exact Hsize | exact Hcur].
Defined.

Section CachedLimit.
Import BasePool CachedPool.



End CachedLimit.



(** ** cachedpoo.h: the idle check in ticks *)

(** X11.  The idle check of a CACHED worker, in clock ticks.  With the flag
    clear, [curThreadCount_ ≠ initThreadCount_] and a limit below [2^63],
    the check sets [isIdleTimeout] exactly when at least
    [threadMaxIdleSec_ + 1] whole seconds have passed since [lastTime], or
    when the clock reads a second or more {e before} [lastTime]: the
    negative count of seconds is compared as a [size_t]. *)
Theorem idle_check_threshold (p : CachedPool.t) (l : CachedPool.Local) (nowTime : Z) :
  CachedPool.isIdleTimeout l = false →
  CachedPool.curThreadCount_ p ≠ CachedPool.initThreadCount_ p →
  (CachedPool.threadMaxIdleSec_ p < 2 ^ 63)%N →
  (- 2 ^ 63 ≤ nowTime - CachedPool.lastTime l < 2 ^ 63)%Z →
  CachedPool.isIdleTimeout (CachedPool.checkThreadIdleTimeout p l nowTime) = true ↔
  ((Z.of_N (CachedPool.threadMaxIdleSec_ p) + 1) * CachedPool.TICKS_PER_SEC
     ≤ nowTime - CachedPool.lastTime l)%Z ∨
  (nowTime - CachedPool.lastTime l ≤ - CachedPool.TICKS_PER_SEC)%Z.
Proof.
  intros Hflag Hne Hmax Hd. rewrite (check_flag p l nowTime Hflag).
  unfold CachedPool.idle_seconds, Util.size_of_long, CachedPool.TICKS_PER_SEC.
  set (d := (nowTime - CachedPool.lastTime l)%Z) in *.
  set (m := CachedPool.threadMaxIdleSec_ p) in *.
  change (2 ^ 63)%N with 9223372036854775808%N in Hmax.
  change (2 ^ 63)%Z with 9223372036854775808%Z in Hd.
  change (2 ^ 64)%Z with 18446744073709551616%Z.
  destruct (Z.le_gt_cases 0 d) as [Hpos|Hneg].
  - rewrite Z.quot_div_nonneg by lia.
    assert (Hq : (0 ≤ d `div` 1000000000 < 9223372036854775808)%Z).
    { split; [apply Z.div_pos; lia|]. apply Z.div_lt_upper_bound; lia. }
    rewrite Z.mod_small by lia.
    split.
    + intros [_ Hlt]. left.
      assert (Z.of_N m + 1 ≤ d `div` 1000000000)%Z by lia.
      pose proof (Z.mul_div_le d 1000000000). nia.
    + intros [Hle|?]; [|lia]. split; [done|].
      assert (Z.of_N m + 1 ≤ d `div` 1000000000)%Z; [|lia].
      apply Z.div_le_lower_bound; lia.
  - assert (Hquot : (d `quot` 1000000000 = - ((- d) `div` 1000000000))%Z).
    { rewrite <- (Z.opp_involutive d) at 1. rewrite Z.quot_opp_l by lia.
      rewrite Z.quot_div_nonneg by lia. done. }
    rewrite Hquot.
    assert (Hq : (0 ≤ (- d) `div` 1000000000 ≤ 9223372036854775808)%Z).
    { split; [apply Z.div_pos; lia|].
      transitivity (- d)%Z; [|lia]. apply Z.div_le_upper_bound; lia. }
    destruct (Z.le_gt_cases 1000000000 (- d)) as [Hback|Hsmall].
    + assert (1 ≤ (- d) `div` 1000000000)%Z by (apply Z.div_le_lower_bound; lia).
      split; [intros _; right; lia|]. intros _. split; [done|].
      rewrite <- (Z.mod_add _ 1) by lia. rewrite Z.mod_small by lia. lia.
    + rewrite Z.div_small by lia.
      change (Z.to_N (- 0 mod 18446744073709551616)) with 0%N. split; [intros [_ ?]; lia|].
      intros [?|?]; lia.
Qed.

(** Limit 30 s: a worker idle since tick 0 is flagged at second 31. *)
Lemma idle_check_threshold_witness :
  CachedPool.curThreadCount_ CachedPool.idle_pool
    ≠ CachedPool.initThreadCount_ CachedPool.idle_pool ∧
  (CachedPool.isIdleTimeout
     (CachedPool.checkThreadIdleTimeout CachedPool.idle_pool
        {| CachedPool.isIdleTimeout := false; CachedPool.lastTime := 0 |}
        (31 * CachedPool.TICKS_PER_SEC)) = true ↔
   ((Z.of_N (CachedPool.threadMaxIdleSec_ CachedPool.idle_pool) + 1)
      * CachedPool.TICKS_PER_SEC ≤ 31 * CachedPool.TICKS_PER_SEC - 0)%Z ∨
   (31 * CachedPool.TICKS_PER_SEC - 0 ≤ - CachedPool.TICKS_PER_SEC)%Z).
Proof.
  split; [vm_compute; discriminate|].
  apply (idle_check_threshold CachedPool.idle_pool
           {| CachedPool.isIdleTimeout := false; CachedPool.lastTime := 0 |}
           (31 * CachedPool.TICKS_PER_SEC)).
  - reflexivity.
  - vm_compute. discriminate.
  - reflexivity.
  - vm_compute. split; [discriminate|reflexivity].
Defined.

(** ** cachedpoo.h: the growth on submit, one call at a time *)

(** X12.  CACHED [submitTask] in [STATE_RUNNING] whose wait found room, with
    [p1] the pool at the end of the wait and [p2] the pool right after the
    enqueue.  A thread is created and started exactly when
    [taskCount_ > idleThreadCount_] and [curThreadCount_ < maxThreadCount_]
    hold in [p2].  In that case exactly one [Thread] (the next id) is
    emplaced and started, [curThreadCount_] becomes [curThreadCount_ + 1],
    which is at most [maxThreadCount_], and [idleThreadCount_] is
    incremented.  Otherwise no thread is created and the counters and the
    table are those of [p1].  Either way a submit does not take
    [curThreadCount_] from within [maxThreadCount_] to beyond it. *)
Theorem cached_submit_spawns_one_within_max (g : BasicThread.Statics)
    (p : CachedPool.t) (wakes : list (BasePool.WakeUp CachedPool.t)) (task : Task) :
  CachedPool.state_ p = BasePool.STATE_RUNNING →
  (BasicThread.threadIdBase g < Util.INT_MAX)%Z →
  let p1 := (BasePool.wait_for CachedPool.has_room wakes p).2 in
  CachedPool.has_room p1 = true →
  (CachedPool.maxThreadCount_ p1 < Util.SIZE_MOD)%N →
  let p2 := CachedPool.enqueue p1 task in
  let needed :=
    (CachedPool.idleThreadCount_ p2 < CachedPool.taskCount_ p2)%N ∧
    (CachedPool.curThreadCount_ p2 < CachedPool.maxThreadCount_ p2)%N in
  ∃ g' p' tr,
    CachedPool.submitTask g p wakes task =
      (Returned, g', p', [EvWaitFor notFull 1; EvNotifyAll notEmpty] ++ tr) ∧
    (needed →
       tr = [EvThreadStart (BasicThread.threadIdBase g)] ∧
       BasicThread.threadIdBase g' = (BasicThread.threadIdBase g + 1)%Z ∧
       CachedPool.threads_ p' =
         ThreadTable.emplace (BasicThread.threadIdBase g)
           {| BasicThread.threadId_ := BasicThread.threadIdBase g |}
           (CachedPool.threads_ p1) ∧
       (CachedPool.threads_ p1 !! BasicThread.threadIdBase g = None →
          size (CachedPool.threads_ p') = Datatypes.S (size (CachedPool.threads_ p1))) ∧
       CachedPool.curThreadCount_ p' = (CachedPool.curThreadCount_ p1 + 1)%N ∧
       CachedPool.idleThreadCount_ p' = Util.size_incr (CachedPool.idleThreadCount_ p1) ∧
       (CachedPool.curThreadCount_ p' ≤ CachedPool.maxThreadCount_ p')%N) ∧
    (¬ needed →
       tr = [] ∧ g' = g ∧
       CachedPool.threads_ p' = CachedPool.threads_ p1 ∧
       CachedPool.curThreadCount_ p' = CachedPool.curThreadCount_ p1 ∧
       CachedPool.idleThreadCount_ p' = CachedPool.idleThreadCount_ p1) ∧
    CachedPool.maxThreadCount_ p' = CachedPool.maxThreadCount_ p1 ∧
    ((CachedPool.curThreadCount_ p1 ≤ CachedPool.maxThreadCount_ p1)%N →
     (CachedPool.curThreadCount_ p' ≤ CachedPool.maxThreadCount_ p')%N).
Proof.
  intros Hrun Hid p1 Hroom Hmax p2 needed.
  destruct (wait_for_disturbed CachedPool.has_room wakes p) as (n & _ & Hw).
  assert (Hp1 : p1 = BasePool.disturbed wakes n p) by (unfold p1; by rewrite Hw).
  assert (Hsub : CachedPool.submitTask g p wakes task =
                 if CachedPool.needs_thread p2 then
                   match CachedPool.spawn g p2 with
                   | Some (g', p3, tr3) =>
                       (Returned, g', p3, [EvWaitFor notFull 1; EvNotifyAll notEmpty] ++ tr3)
                   | None => (Undefined, g, p2, [EvWaitFor notFull 1; EvNotifyAll notEmpty])
                   end
                 else (Returned, g, p2, [EvWaitFor notFull 1; EvNotifyAll notEmpty])).
  { unfold CachedPool.submitTask. rewrite Hrun.
    rewrite bool_decide_eq_true_2 by done. cbn [negb].
    rewrite Hw, <- Hp1, Hroom. cbn [negb]. done. }
  rewrite Hsub. clear Hsub.
  assert (Hneeded : needed ↔ CachedPool.needs_thread p2 = true).
  { unfold needed, CachedPool.needs_thread.
    rewrite andb_true_iff, !N.ltb_lt. done. }
  destruct (CachedPool.needs_thread p2) eqn:Hneed.
  - destruct (spawn_when_needed g p2 Hid Hmax Hneed)
      as (p3 & Hspawn & Hths & Hcur & Hidle & Hle & Hmx & _).
    rewrite Hspawn. eexists _, p3, _. split; [done|].
    split; [|split; [|split]].
    + intros _. split; [done|]. split; [done|]. split; [done|].
      split; [|done].
      intros Hfresh. rewrite Hths. unfold ThreadTable.emplace.
      change (CachedPool.threads_ p2) with (CachedPool.threads_ p1).
      rewrite Hfresh. by apply map_size_insert_None.
    + intros Hnot. exfalso. apply Hnot, Hneeded. done.
    + done.
    + intros _. done.
  - eexists g, p2, []. split; [done|].
    split; [|split; [|split]]; try done.
    intros Hyes. apply Hneeded in Hyes. done.
Qed.

(** The third submission after [start(2)]: three tasks pending for two
    idle workers, so worker 2 is created and started. *)
Lemma cached_submit_spawns_one_within_max_witness :
  CachedPool.state_ CachedPool.two_pending.2 = BasePool.STATE_RUNNING ∧
  (BasicThread.threadIdBase CachedPool.two_pending.1 < Util.INT_MAX)%Z ∧
  CachedPool.has_room
    (BasePool.wait_for CachedPool.has_room [] CachedPool.two_pending.2).2 = true ∧
  CachedPool.curThreadCount_ CachedPool.two_pending.2 = 2%N ∧
  ∃ g' p',
    CachedPool.submitTask CachedPool.two_pending.1 CachedPool.two_pending.2 [] 3%nat =
      (Returned, g', p',
       [EvWaitFor notFull 1; EvNotifyAll notEmpty; EvThreadStart 2]) ∧
    BasicThread.threadIdBase g' = 3%Z ∧
    size (CachedPool.threads_ p') = 3%nat ∧
    CachedPool.curThreadCount_ p' = 3%N ∧
    CachedPool.idleThreadCount_ p' = 3%N.
Proof.
  split; [reflexivity|]. split; [vm_compute; reflexivity|]. split; [reflexivity|].
  split; [reflexivity|].
  destruct (cached_submit_spawns_one_within_max CachedPool.two_pending.1
              CachedPool.two_pending.2 [] 3%nat)
    as (g' & p' & tr & Hsub & Hspawn & _).
  - reflexivity.
  - vm_compute. reflexivity.
  - reflexivity.
  - vm_compute. reflexivity.
  - destruct Hspawn as (Htr & Hbase & _ & Hsize & Hcur & Hidle & _).
    { split; vm_compute; reflexivity. }
    exists g', p'. rewrite Htr in Hsub. split; [exact Hsub|].
    split; [exact Hbase|]. split; [exact (Hsize eq_refl)|].
    split; [exact Hcur|]. rewrite Hidle. vm_compute. reflexivity.
Defined.
